(** * Quasar flashlight firmware: off-time memory and runtime supervisor

    A shallow embedding of the three firmware variants of the repository

    - [Quasar/Nanjg/quasar.c]                               (v1.0, one-byte records),
    - [Quasar/Nanjg/Atmel Studio project/Quasar/main.c]     (v2.0, Nanjg 105C/D),
    - [Quasar/A17DD-L/Atmel Studio project/Quasar/main.c]   (v2.0, A17DD-L FET+1),

    together with the properties of the wear-levelled EEPROM log, of the
    power-on mode resolution, of the battery-check gesture and of the
    low-voltage / turbo step-down.

    Conventions.  A C [byte] is a [Z] in [0, 256); every assignment that can
    leave that range is wrapped with [u8].  The EEPROM is a total map from
    addresses to bytes, an erased cell reads [0xff].  The registers of the
    AVR core are not modelled: an EEPROM access is the cell operation that
    the register sequence of the source triggers. *)

From Stdlib Require Import ZArith List Bool Lia.
From stdpp Require Import base numbers functions list.

Local Open Scope Z_scope.

(** ** Bytes and EEPROM cells *)

Definition u8 (z : Z) : Z := z mod 256.

(** [EECR = 32 + 4 + 2] is a write-only access (bits are only programmed
    from 1 to 0, the cell is not erased first), [EECR = 16 + 4 + 2] an
    erase-only access. *)
Inductive EeOp : Type :=
| EeWrite (addr data : Z)
| EeErase (addr : Z).

Definition ERASED : Z := 0xff.

Definition ee_apply (e : Z -> Z) (op : EeOp) : Z -> Z :=
  match op with
  | EeWrite a d => <[a := Z.land (e a) d]> e
  | EeErase a => <[a := ERASED]> e
  end.

Definition ee_run (ops : list EeOp) (e : Z -> Z) : Z -> Z :=
  fold_left ee_apply ops e.

(** The store as it leaves the factory: every cell erased. *)
Definition blank : Z -> Z := fun _ => ERASED.

(** A store whose only programmed cells are the two bytes of one record. *)
Definition single_record (p c gm : Z) : Z -> Z :=
  <[p + 1 := gm]> (<[p := c]> blank).

(** ** Configuration (the [#define]s and the PROGMEM table) *)

Inductive MemPolicy : Type := MEM_LAST | MEM_FIRST | MEM_NEXT.

Record Config : Type := mkConfig {
  MODES_COUNT : Z;
  GROUPS_COUNT : Z;
  groups : list (list Z);      (* rows of the PROGMEM table, as written *)
  memory : MemPolicy;          (* which of MEM_LAST / MEM_FIRST / MEM_NEXT is defined *)
  BATTCHECK : Z;
  LOCKTIME : Z;
  BATTMON : Z;
  CAP_THRESHOLD : Z;
  TURBO_TIMEOUT : Z;
  STROBE : Z;
  PSTROBE : Z;
  SOS : Z
}.

Definition GROUP_CHANGE_MODE : Z := 0.

(** [Nanjg/Atmel Studio project/Quasar/main.c]; this variant has neither
    capacitor threshold nor turbo timer, the two fields are not used. *)
Definition nanjg_cfg : Config :=
  {| MODES_COUNT := 8; GROUPS_COUNT := 2;
     groups := [ [6; 32; 128; 255; 0; 0; 0; 0];
                 [6; 32; 128; 255; 254; 253; 252; 0] ];
     memory := MEM_LAST; BATTCHECK := 16; LOCKTIME := 50; BATTMON := 125;
     CAP_THRESHOLD := 0; TURBO_TIMEOUT := 0;
     STROBE := 254; PSTROBE := 253; SOS := 252 |}.

(** [A17DD-L/Atmel Studio project/Quasar/main.c]; the table holds [sbyte]s,
    negative entries drive the AMC channel. *)
Definition a17dd_cfg : Config :=
  {| MODES_COUNT := 8; GROUPS_COUNT := 2;
     groups := [ [-3; -127; 64; 127; 0; 0; 0; 0];
                 [-3; -127; 64; 127; 126; 125; 124; 0] ];
     memory := MEM_LAST; BATTCHECK := 16; LOCKTIME := 50; BATTMON := 125;
     CAP_THRESHOLD := 190; TURBO_TIMEOUT := 60;
     STROBE := 126; PSTROBE := 125; SOS := 124 |}.

(** The same configurations under another memory policy. *)
Definition with_memory (p : MemPolicy) (cfg : Config) : Config :=
  {| MODES_COUNT := MODES_COUNT cfg; GROUPS_COUNT := GROUPS_COUNT cfg;
     groups := groups cfg; memory := p; BATTCHECK := BATTCHECK cfg;
     LOCKTIME := LOCKTIME cfg; BATTMON := BATTMON cfg;
     CAP_THRESHOLD := CAP_THRESHOLD cfg; TURBO_TIMEOUT := TURBO_TIMEOUT cfg;
     STROBE := STROBE cfg; PSTROBE := PSTROBE cfg; SOS := SOS cfg |}.

(** ** Machine state of the v2.0 variants

    The globals of [main.c] and the EEPROM.  [ticks] exists in the Nanjg
    variant only; the A17DD-L variant never touches it. *)
Record Machine : Type := mkMachine {
  cells : Z -> Z;
  eepos : Z;
  group : Z;
  mode : Z;
  shortClicks : Z;
  ticks : Z
}.

(** Power-on: the EEPROM keeps its content, the globals take their
    initialisers. *)
Definition power_on (e : Z -> Z) : Machine :=
  {| cells := e; eepos := 0; group := 0; mode := 0; shortClicks := 0; ticks := 0 |}.

Definition set_mode (m : Z) (s : Machine) : Machine :=
  {| cells := cells s; eepos := eepos s; group := group s; mode := m;
     shortClicks := shortClicks s; ticks := ticks s |}.
Definition set_group (g : Z) (s : Machine) : Machine :=
  {| cells := cells s; eepos := eepos s; group := g; mode := mode s;
     shortClicks := shortClicks s; ticks := ticks s |}.
Definition set_shortClicks (c : Z) (s : Machine) : Machine :=
  {| cells := cells s; eepos := eepos s; group := group s; mode := mode s;
     shortClicks := c; ticks := ticks s |}.
Definition set_ticks (t : Z) (s : Machine) : Machine :=
  {| cells := cells s; eepos := eepos s; group := group s; mode := mode s;
     shortClicks := shortClicks s; ticks := t |}.

(** ** [eepSave]: write a two-byte record with wear levelling *)

Definition next_eepos (pos : Z) : Z := Z.land (pos + 2) 31.

(** The second byte of a record: [g << 4 | m], stored through the 8-bit
    data register. *)
Definition groupModeByte (g m : Z) : Z := u8 (Z.lor (Z.shiftl g 4) m).

(** The four cell operations of [eepSave(c, g, m)], in program order; [pos]
    is [eepos] on entry. *)
Definition eepSave_ops (pos c g m : Z) : list EeOp :=
  let oldpos := pos in
  let eepos := next_eepos pos in
  [ EeWrite eepos c;
    EeErase oldpos;
    EeWrite (eepos + 1) (groupModeByte g m);
    EeErase (oldpos + 1) ].

Definition eepSave (c g m : Z) (s : Machine) : Machine :=
  {| cells := ee_run (eepSave_ops (eepos s) c g m) (cells s);
     eepos := next_eepos (eepos s);
     group := group s; mode := mode s;
     shortClicks := shortClicks s; ticks := ticks s |}.

(** The EEPROM when power is lost after the first [k] cell operations of
    [eepSave] have completed. *)
Definition eepSave_cut (k : nat) (c g m : Z) (s : Machine) : Z -> Z :=
  ee_run (take k (eepSave_ops (eepos s) c g m)) (cells s).

(** The sixteen two-byte slots of the 32-byte region. *)
Definition slots : list Z := map (fun i => 2 * Z.of_nat i) (seq 0 16).

Definition complete_at (e : Z -> Z) (slot : Z) : bool :=
  negb (e slot =? ERASED) && negb (e (slot + 1) =? ERASED).

Definition has_complete_record (e : Z -> Z) : bool :=
  existsb (complete_at e) slots.

(** ** Mode table and record decoding (v2.0) *)

Section Firmware2.
Variable cfg : Config.

(** [groups[g][m]] when both indices are inside the table. *)
Definition table_lookup (g m : Z) : option Z :=
  row ← groups cfg !! Z.to_nat g; row !! Z.to_nat m.

(** [pgm_read_byte(&groups[g][m])]: the entry as an unsigned byte. *)
Definition pgm_read_byte (g m : Z) : Z := u8 (default 0 (table_lookup g m)).

(** Decode group from data, the high nibble. *)
Definition decodeGroup (data : Z) : Z := Z.shiftr data 4 mod GROUPS_COUNT cfg.

(** Decode mode from data, the low nibble. *)
Definition decodeMode (data : Z) : Z := Z.land data 0xf mod MODES_COUNT cfg.

(** [getNextMode()], reading the globals [group] and [mode]. *)
Definition getNextMode (group mode : Z) : Z :=
  let nextMode := u8 ((mode + 1) mod MODES_COUNT cfg) in
  if pgm_read_byte group nextMode =? 0 then 0 else nextMode.

(** The scan of [eepLoad]:
    [while (((clicksData = eepReadByte(eepos)) == 0xff) && (eepos < 30)) eepos++;]
    It returns the final [eepos], the last byte read and the addresses
    read so far, in order. *)
Fixpoint find_data (fuel : nat) (e : Z -> Z) (pos : Z) (seen : list Z)
  : option (Z * Z * list Z) :=
  match fuel with
  | O => None
  | S fuel' =>
      let clicksData := e pos in
      if (clicksData =? 0xff) && (pos <? 30)
      then find_data fuel' e (u8 (pos + 1)) (seen ++ [pos])
      else Some (pos, clicksData, seen ++ [pos])
  end.

Definition set_eepos (p : Z) (s : Machine) : Machine :=
  {| cells := cells s; eepos := p; group := group s; mode := mode s;
     shortClicks := shortClicks s; ticks := ticks s |}.

(** Every EEPROM address [eepLoad] reads, in order. *)
Definition eepLoad_reads (s : Machine) : option (list Z) :=
  '(pos, _, seen) ← find_data 256 (cells s) (eepos s) [];
  Some (seen ++ [pos + 1]).

(** *** Nanjg: the short flag is bit 7 of the first byte *)

Definition eepLoad_nanjg (s : Machine) : option Machine :=
  '(pos, clicksData, _) ← find_data 256 (cells s) (eepos s) [];
  let s := set_eepos pos s in
  let groupMode := cells s (pos + 1) in
  let s :=
    if negb (clicksData =? 0xff) then
      let s := set_shortClicks (Z.land clicksData 0x7f) s in
      let s := set_group (decodeGroup groupMode) s in
      let s := set_mode (decodeMode groupMode) s in
      if negb (Z.land clicksData 0x80 =? 0) then
        let s := set_mode (getNextMode (group s) (mode s)) s in
        set_shortClicks (u8 (shortClicks s + 1)) s
      else s
    else s in
  Some (eepSave (Z.lor (shortClicks s) 0x80) (group s) (mode s) s).

(** The watchdog tick handler. *)
Definition WDT_vect (s : Machine) : Machine :=
  if ticks s <? 255 then
    let s := set_ticks (ticks s + 1) s in
    if ticks s =? LOCKTIME cfg then
      match memory cfg with
      | MEM_NEXT => eepSave 0 (group s) (getNextMode (group s) (mode s)) s
      | MEM_FIRST => eepSave 0 (group s) 0 s
      | MEM_LAST => eepSave 0 (group s) (mode s) s
      end
    else s
  else s.

(** [doSleep(count)]: every [SLEEP] ends with one watchdog interrupt. *)
Definition doSleep (count : Z) (s : Machine) : Machine :=
  Nat.iter (Z.to_nat (u8 count)) WDT_vect s.

Definition doImpulses (count onTime offTime : Z) (s : Machine) : Machine :=
  Nat.iter (Z.to_nat (u8 count)) (fun s => doSleep offTime (doSleep onTime s)) s.

(** *** A17DD-L: the off-time capacitor classifies the previous session *)

Definition apply_memory (s : Machine) : Machine :=
  match memory cfg with
  | MEM_NEXT => set_mode (getNextMode (group s) (mode s)) s
  | MEM_FIRST => set_mode 0 s
  | MEM_LAST => s
  end.

(** [cap] is the second [getADCResult()] on the capacitor channel. *)
Definition eepLoad_a17dd (cap : Z) (s : Machine) : option Machine :=
  '(pos, clicksData, _) ← find_data 256 (cells s) (eepos s) [];
  let s := set_eepos pos s in
  let groupMode := cells s (pos + 1) in
  let s :=
    if negb (clicksData =? 0xff) then
      let s := set_shortClicks clicksData s in
      let s := set_group (decodeGroup groupMode) s in
      let s := set_mode (decodeMode groupMode) s in
      if cap >? CAP_THRESHOLD cfg then
        let s := set_mode (getNextMode (group s) (mode s)) s in
        set_shortClicks (u8 (shortClicks s + 1)) s
      else
        set_shortClicks 0 (apply_memory s)
    else s in
  Some (eepSave (shortClicks s) (group s) (mode s) s).

(** *** What [main] shows, in order *)

Inductive Event : Type :=
| EvBattCheck (blinks : Z)
| EvGroupBlink
| EvStrobe
| EvPStrobe
| EvSOS
| EvNormal (pmode : Z).

Definition blinksCount (voltage : Z) : Z :=
  if voltage >=? 170 then 4
  else if voltage >=? 160 then 3
  else if voltage >=? 145 then 2
  else 1.

(** The final [switch (pmode)]: which endless loop is entered. *)
Definition display_of (pmode : Z) : Event :=
  if pmode =? STROBE cfg then EvStrobe
  else if pmode =? PSTROBE cfg then EvPStrobe
  else if pmode =? SOS cfg then EvSOS
  else EvNormal pmode.

Definition battcheck_nanjg (voltage : Z) (s : Machine) : Machine * list Event :=
  if shortClicks s >=? BATTCHECK cfg then
    let s := doSleep 50 s in
    let blinks := blinksCount voltage in
    let s := doImpulses blinks 10 20 s in
    let s := set_shortClicks 0 s in
    let s := doSleep 50 s in
    (s, [EvBattCheck blinks])
  else (s, []).

Definition groupchange_nanjg (s : Machine) : Machine * list Event :=
  if mode s =? GROUP_CHANGE_MODE then
    let s := doSleep (LOCKTIME cfg * 2) s in
    let nextGroup := u8 ((group s + 1) mod GROUPS_COUNT cfg) in
    let s := eepSave 0 nextGroup 0 s in
    let s := doSleep (LOCKTIME cfg / 10) s in
    let s := doSleep (LOCKTIME cfg) s in
    let s :=
      match memory cfg with
      | MEM_NEXT => eepSave 0 (group s) (getNextMode (group s) (mode s)) s
      | _ => eepSave 0 (group s) GROUP_CHANGE_MODE s
      end in
    (s, [EvGroupBlink])
  else (s, []).

(** [main] of the Nanjg variant up to the endless display loop;
    [voltage] is the battery sample taken by the battery check. *)
Definition main_nanjg (voltage : Z) (e : Z -> Z) : option (Machine * list Event) :=
  s ← eepLoad_nanjg (power_on e);
  let pmode := pgm_read_byte (group s) (mode s) in
  let '(s, shown) := battcheck_nanjg voltage s in
  let '(s, blink) := groupchange_nanjg s in
  Some (s, shown ++ blink ++ [display_of pmode]).

(** In the A17DD-L variant the watchdog handler is empty, so sleeping
    leaves the machine state alone. *)
Definition battcheck_a17dd (voltage : Z) (s : Machine) : Machine * list Event :=
  if shortClicks s >=? BATTCHECK cfg then
    let blinks := blinksCount voltage in
    (eepSave 0 (group s) (mode s) s, [EvBattCheck blinks])
  else (s, []).

Definition groupchange_a17dd (s : Machine) : Machine * list Event :=
  if mode s =? GROUP_CHANGE_MODE then
    let nextGroup := u8 ((group s + 1) mod GROUPS_COUNT cfg) in
    let s := eepSave 0 nextGroup GROUP_CHANGE_MODE s in
    let s := eepSave 0 (group s) GROUP_CHANGE_MODE s in
    (s, [EvGroupBlink])
  else (s, []).

Definition main_a17dd (cap voltage : Z) (e : Z -> Z) : option (Machine * list Event) :=
  s ← eepLoad_a17dd cap (power_on e);
  let pmode := pgm_read_byte (group s) (mode s) in
  let '(s, shown) := battcheck_a17dd voltage s in
  let '(s, blink) := groupchange_a17dd s in
  Some (s, shown ++ blink ++ [display_of pmode]).

(** *** The endless default loop: low-voltage and turbo step-down *)

Record Supervisor : Type := mkSupervisor {
  pmode : Z;
  lowbattCounter : Z;
  turboTicks : Z
}.

(** [if (sample < BATTMON) { if (++lowbattCounter > 8) {...} } else lowbattCounter = 0;] *)
Definition check_battery (sample : Z) (s : Supervisor) : Supervisor :=
  if sample <? BATTMON cfg then
    let c := u8 (lowbattCounter s + 1) in
    if c >? 8 then
      {| pmode := u8 (Z.shiftr (pmode s) 1 + 3); lowbattCounter := 0;
         turboTicks := turboTicks s |}
    else
      {| pmode := pmode s; lowbattCounter := c; turboTicks := turboTicks s |}
  else
    {| pmode := pmode s; lowbattCounter := 0; turboTicks := turboTicks s |}.

(** The turbo timer of the A17DD-L loop; the flag tells whether
    [pmode = pmode >> 1] was executed. *)
Definition turbo_timer (s : Supervisor) : Supervisor * bool :=
  if turboTicks s <? TURBO_TIMEOUT cfg then
    ({| pmode := pmode s; lowbattCounter := lowbattCounter s;
        turboTicks := u8 (turboTicks s + 1) |}, false)
  else if pmode s =? 127 then
    ({| pmode := Z.shiftr (pmode s) 1; lowbattCounter := lowbattCounter s;
        turboTicks := turboTicks s |}, true)
  else (s, false).

(** One iteration of the Nanjg loop, [sample] being the battery reading. *)
Definition loop_nanjg (sample : Z) (s : Supervisor) : Supervisor :=
  check_battery sample s.

(** One iteration of the A17DD-L loop. *)
Definition loop_a17dd (sample : Z) (s : Supervisor) : Supervisor * bool :=
  turbo_timer (check_battery sample s).

(** A run of the A17DD-L loop over successive battery readings, with
    the number of turbo step-downs it performed. *)
Fixpoint run_a17dd (samples : list Z) (s : Supervisor) : Supervisor * nat :=
  match samples with
  | [] => (s, O)
  | x :: rest =>
      let '(s1, fired) := loop_a17dd x s in
      let '(s2, n) := run_a17dd rest s1 in
      (s2, ((if fired then 1 else 0) + n)%nat)
  end.

Definition run_nanjg (samples : list Z) (s : Supervisor) : Supervisor :=
  fold_left (fun s x => loop_nanjg x s) samples s.

(** [setPWM] of the A17DD-L variant: the duty cycles of the FET and AMC
    channels for a table value read back as a signed byte. *)
Definition as_sbyte (v : Z) : Z := if v <? 128 then v else v - 256.

Definition setPWM (pmode : Z) : Z * Z :=
  let value := as_sbyte pmode in
  if value >? 0 then (u8 (Z.shiftl value 1 + 1), 0)
  else if value <? 0 then (0, u8 (Z.shiftl (- value) 1 + 1))
  else (0, 0).

(** Effective length of a group: index of the first zero slot, or the
    width of the row. *)
Fixpoint first_zero (row : list Z) : Z :=
  match row with
  | [] => 0
  | v :: rest => if u8 v =? 0 then 0 else 1 + first_zero rest
  end.

Definition effective_length (g : Z) : Z :=
  first_zero (default [] (groups cfg !! Z.to_nat g)).

(** The table has [GROUPS_COUNT] rows of [MODES_COUNT] entries and the
    counts respect the documented maximum of 16. *)
Definition table_ok : bool :=
  (0 <? MODES_COUNT cfg) && (MODES_COUNT cfg <=? 16) &&
  (0 <? GROUPS_COUNT cfg) && (GROUPS_COUNT cfg <=? 16) &&
  (Z.of_nat (length (groups cfg)) =? GROUPS_COUNT cfg) &&
  forallb (fun row => Z.of_nat (length row) =? MODES_COUNT cfg) (groups cfg).

(** Zero slots only at the end of a row (as in the shipped tables). *)
Fixpoint zeros_trail (row : list Z) : bool :=
  match row with
  | [] => true
  | v :: rest => if u8 v =? 0 then forallb (fun w => u8 w =? 0) rest else zeros_trail rest
  end.

End Firmware2.

(** ** The v1.0 firmware ([Quasar/Nanjg/quasar.c]): one-byte records *)

Module V1.

Definition MODES_COUNT : Z := 7.
Definition GROUPS_COUNT : Z := 2.
Definition LOCKTIME : Z := 50.
Definition BATTMON : Z := 125.

Definition groups : list (list Z) :=
  [ [6; 32; 128; 255; 0; 0; 0];
    [6; 32; 128; 255; 254; 253; 252] ].

Definition table_lookup (g m : Z) : option Z :=
  row ← groups !! Z.to_nat g; row !! Z.to_nat m.

Definition pgm_read_byte (g m : Z) : Z := u8 (default 0 (table_lookup g m)).

(** Extract group num from byte, bits 6..3. *)
Definition decodeGroup (data : Z) : Z := Z.shiftr (Z.land data 0x78) 3.

(** Extract mode num from byte, bits 2..0. *)
Definition decodeMode (data : Z) : Z := Z.land data 0x7.

(** Combine group and mode to single byte (0GGGGMMMb). *)
Definition codeGroupAndMode (a b : Z) : Z := u8 (Z.lor (Z.shiftl a 3) b).

Record Machine : Type := mkMachine {
  cells : Z -> Z;           (* the EEPROM *)
  eepos : Z;
  group : Z;
  mode : Z;
  ticks : Z;
  mypwm : Z;
  lowbattCounter : Z;
  battcheckCounter : Z      (* 16 bits, in .noinit: survives a short power cut *)
}.

(** Power-on; [bc] is what the uninitialised [battcheckCounter] holds. *)
Definition power_on (e : Z -> Z) (bc : Z) : Machine :=
  {| cells := e; eepos := 0; group := 0; mode := 0; ticks := 0; mypwm := 0;
     lowbattCounter := 0; battcheckCounter := bc |}.

Definition eepSave_ops (pos data : Z) : list EeOp :=
  let oldpos := pos in
  let eepos := Z.land (pos + 1) 31 in
  [ EeWrite eepos data; EeErase oldpos ].

Definition eepSave (data : Z) (s : Machine) : Machine :=
  {| cells := ee_run (eepSave_ops (eepos s) data) (cells s);
     eepos := Z.land (eepos s + 1) 31;
     group := group s; mode := mode s; ticks := ticks s; mypwm := mypwm s;
     lowbattCounter := lowbattCounter s; battcheckCounter := battcheckCounter s |}.

Definition getNextMode (group mode : Z) : Z :=
  let nextMode := u8 (mode + 1) in
  if (nextMode >=? MODES_COUNT) || (pgm_read_byte group nextMode =? 0)
  then 0 else nextMode.

(** [eep[i]] after [eeprom_read_block(&eep, 0, 32)].  The array has 32
    elements; [after k] stands for the byte of RAM that lies [k] bytes
    behind its end, which the source does not determine. *)
Definition eep_at (e : Z -> Z) (after : Z -> Z) (i : Z) : Z :=
  if i <? 32 then e i else after (i - 32).

(** [while ((eep[eepos] == 0xff) && (eepos < 32)) eepos++;] with the
    indices of [eep] that were read, in order. *)
Fixpoint find_data (fuel : nat) (eep : Z -> Z) (pos : Z) (seen : list Z)
  : option (Z * list Z) :=
  match fuel with
  | O => None
  | S fuel' =>
      if (eep pos =? 0xff) && (pos <? 32)
      then find_data fuel' eep (u8 (pos + 1)) (seen ++ [pos])
      else Some (pos, seen ++ [pos])
  end.

(** The indices of [eep] that [getmode] reads, in order. *)
Definition getmode_reads (after : Z -> Z) (s : Machine) : option (list Z) :=
  '(pos, seen) ← find_data 256 (eep_at (cells s) after) (eepos s) [];
  Some (seen ++ [pos]).

Definition u16 (z : Z) : Z := z mod 65536.

(** [group = decodeGroup(d); if (group >= GROUPS_COUNT) group = 0;] *)
Definition storedGroup (groupModeData : Z) : Z :=
  let group := decodeGroup groupModeData in
  if group >=? GROUPS_COUNT then 0 else group.

(** [mode = decodeMode(d); if (mode >= MODES_COUNT) mode = 0;] *)
Definition storedMode (groupModeData : Z) : Z :=
  let mode := decodeMode groupModeData in
  if mode >=? MODES_COUNT then 0 else mode.

Definition getmode (after : Z -> Z) (s : Machine) : option Machine :=
  let eep := eep_at (cells s) after in
  '(pos, _) ← find_data 256 eep (eepos s) [];
  let groupModeData := eep pos in
  let group := storedGroup groupModeData in
  let mode := storedMode groupModeData in
  let short := negb (Z.land groupModeData 0x80 =? 0) in
  let mode := if short then getNextMode group mode else mode in
  let bc := battcheckCounter s in
  let bc :=
    if short && negb (bc =? 0xaaaa)
    then u16 (Z.lor (Z.land (Z.lnot bc) 1) (Z.shiftl bc 1))
    else bc in
  Some (eepSave (Z.lor (codeGroupAndMode group mode) 0x80)
          {| cells := cells s; eepos := pos; group := group; mode := mode;
             ticks := ticks s; mypwm := mypwm s;
             lowbattCounter := lowbattCounter s; battcheckCounter := bc |}).

(** The low-voltage part of the tick handler, on [mypwm]. *)
Definition check_battery (sample : Z) (s : Machine) : Machine :=
  if sample <? BATTMON then
    let c := u8 (lowbattCounter s + 1) in
    if c >? 8 then
      {| cells := cells s; eepos := eepos s; group := group s; mode := mode s;
         ticks := ticks s; mypwm := u8 (Z.shiftr (mypwm s) 1 + 3);
         lowbattCounter := 0; battcheckCounter := battcheckCounter s |}
    else
      {| cells := cells s; eepos := eepos s; group := group s; mode := mode s;
         ticks := ticks s; mypwm := mypwm s;
         lowbattCounter := c; battcheckCounter := battcheckCounter s |}
  else
    {| cells := cells s; eepos := eepos s; group := group s; mode := mode s;
       ticks := ticks s; mypwm := mypwm s;
       lowbattCounter := 0; battcheckCounter := battcheckCounter s |}.

(** The watchdog handler under [MEM_LAST], as shipped; [sample] is the
    battery reading of this tick. *)
Definition WDT_vect (sample : Z) (s : Machine) : Machine :=
  let s :=
    if ticks s <? 255 then
      {| cells := cells s; eepos := eepos s; group := group s; mode := mode s;
         ticks := ticks s + 1; mypwm := mypwm s;
         lowbattCounter := lowbattCounter s; battcheckCounter := battcheckCounter s |}
    else s in
  let s :=
    if ticks s =? LOCKTIME then
      let s := eepSave (codeGroupAndMode (group s) (mode s)) s in
      {| cells := cells s; eepos := eepos s; group := group s; mode := mode s;
         ticks := ticks s; mypwm := mypwm s;
         lowbattCounter := lowbattCounter s; battcheckCounter := 0 |}
    else s in
  check_battery sample s.

End V1.

(** ** Auxiliary notions used by the statements below *)

(** The logical content of a log record. *)
Record LogRecord : Type := mkRecord {
  r_group : Z;
  r_mode : Z;
  r_tally : Z;
  r_short : bool
}.

(** The two bytes the Nanjg v2.0 firmware stores for a record: the boot
    code calls [eepSave(shortClicks | 0x80, group, mode)], the lock-in
    [eepSave(0, group, mode)]. *)
Definition encode_record (r : LogRecord) : Z * Z :=
  (u8 (Z.lor (r_tally r) (if r_short r then 0x80 else 0)),
   groupModeByte (r_group r) (r_mode r)).

(** What [eepLoad] of the Nanjg v2.0 firmware extracts from the two bytes
    of a slot.  It decodes them only under [if (clicksData != 0xff)]: a
    first byte [0xff] is an erased cell to it, not a record. *)
Definition decode_record (cfg : Config) (b : Z * Z) : option LogRecord :=
  let clicksData := b.1 in
  let groupMode := b.2 in
  if negb (clicksData =? 0xff) then
    Some {| r_group := decodeGroup cfg groupMode;
            r_mode := decodeMode cfg groupMode;
            r_tally := Z.land clicksData 0x7f;
            r_short := negb (Z.land clicksData 0x80 =? 0) |}
  else None.

(** The single byte of a v1.0 record, [codeGroupAndMode(group, mode) | 0x80]
    at boot and [codeGroupAndMode(group, mode)] at lock-in, and what
    [getmode] extracts from it. *)
Definition encode_record1 (g m : Z) (short : bool) : Z :=
  Z.lor (V1.codeGroupAndMode g m) (if short then 0x80 else 0).

Definition decode_record1 (d : Z) : Z * Z * bool :=
  (V1.storedGroup d, V1.storedMode d, negb (Z.land d 0x80 =? 0)).

(** Appending a list of records, given as [(c, g, m)] triples. *)
Definition append_all (recs : list (Z * Z * Z)) (s : Machine) : Machine :=
  fold_left (fun s r => eepSave r.1.1 r.1.2 r.2 s) recs s.

(** The Nanjg machine inside [eepLoad], after the scan found the record
    [(0x80, 0x01)] (short flag, tally 0, group 0, mode 1) in slot 0 and the
    short click was resolved to mode 2 and tally 1; the record
    [(0x81, 0, 2)] is appended next. *)
Definition cut_example : Machine :=
  {| cells := single_record 0 0x80 0x01; eepos := 0; group := 0; mode := 2;
     shortClicks := 1; ticks := 0 |}.

(** The integers [0 .. n-1], for exhaustive checks over bytes and nibbles. *)
Definition below (n : nat) : list Z := map Z.of_nat (seq 0 n).

(** The mode a long session resumes into, by memory policy. *)
Definition resumed_mode (cfg : Config) (g m : Z) : Z :=
  match memory cfg with
  | MEM_LAST => m
  | MEM_FIRST => 0
  | MEM_NEXT => if m + 1 <? effective_length cfg g then m + 1 else 0
  end.

(** The successor of a mode, wrapping at the effective length of its group. *)
Definition successor_mode (cfg : Config) (g m : Z) : Z :=
  if m + 1 <? effective_length cfg g then m + 1 else 0.

(** [s] is the Nanjg machine [s0] after its lock-in: the tick handler has
    appended the record of [s0] with tally 0 and no short flag, and the
    tick counter has passed [LOCKTIME]. *)
Definition locked_in (cfg : Config) (s0 s : Machine) : Prop :=
  cells s =
    cells (eepSave 0 (group s0)
             (match memory cfg with
              | MEM_NEXT => getNextMode cfg (group s0) (mode s0)
              | MEM_FIRST => 0
              | MEM_LAST => mode s0
              end) s0) /\
  eepos s = next_eepos (eepos s0) /\
  group s = group s0 /\
  mode s = mode s0 /\
  LOCKTIME cfg <= ticks s.

(** What the tick handler leaves alone. *)
Definition same_frame (s s' : Machine) : Prop :=
  shortClicks s' = shortClicks s /\ group s' = group s /\ mode s' = mode s /\
  (0 <= eepos s < 32 -> 0 <= eepos s' < 32).

(** The events that enter one of the endless display loops of [main]. *)
Definition is_display (ev : Event) : bool :=
  match ev with
  | EvStrobe | EvPStrobe | EvSOS | EvNormal _ => true
  | EvBattCheck _ | EvGroupBlink => false
  end.

(** [v] is the byte of a non-empty slot of the mode table. *)
Definition table_value (cfg : Config) (v : Z) : Prop :=
  exists g m x, table_lookup cfg g m = Some x /\ u8 x <> 0 /\ v = u8 x.

(** The output values the default loop can hold after it was entered on
    a non-empty slot, for any sequence of battery readings. *)
Definition reachable_nanjg (cfg : Config) (v : Z) : Prop :=
  exists v0 samples,
    table_value cfg v0 /\
    pmode (run_nanjg cfg samples
             {| pmode := v0; lowbattCounter := 0; turboTicks := 0 |}) = v.

(** The same for [mypwm] of v1.0, stepped by the tick handler; [s0] is
    the machine when the default loop is entered. *)
Definition reachable_v1 (v : Z) : Prop :=
  exists g m x samples s0,
    V1.table_lookup g m = Some x /\ u8 x <> 0 /\ V1.mypwm s0 = u8 x /\
    V1.mypwm (fold_left (fun s sample => V1.WDT_vect sample s) samples s0) = v.

(** Every non-empty slot of the table holds, as a byte, at least 6. *)
Definition table_min6 (cfg : Config) : bool :=
  forallb (forallb (fun x => (u8 x =? 0) || (6 <=? u8 x))) (groups cfg).

(** The supervisor's view of the v1.0 machine: [mypwm] and the debounce
    counter, and the constants of [quasar.c] as a configuration. *)
Definition v1_cfg : Config :=
  {| MODES_COUNT := V1.MODES_COUNT; GROUPS_COUNT := V1.GROUPS_COUNT;
     groups := V1.groups; memory := MEM_LAST; BATTCHECK := 0;
     LOCKTIME := V1.LOCKTIME; BATTMON := V1.BATTMON;
     CAP_THRESHOLD := 0; TURBO_TIMEOUT := 0;
     STROBE := 254; PSTROBE := 253; SOS := 252 |}.

Definition supervisor_of (s : V1.Machine) : Supervisor :=
  {| pmode := V1.mypwm s; lowbattCounter := V1.lowbattCounter s; turboTicks := 0 |}.

(** ** Sessions, power cycles and the group-change gesture *)

(** The address a cell operation touches. *)
Definition op_addr (op : EeOp) : Z :=
  match op with
  | EeWrite a _ => a
  | EeErase a => a
  end.

(** The low-voltage assignment [pmode = (pmode >> 1) + 3] on a byte. *)
Definition stepdown (v : Z) : Z := u8 (Z.shiftr v 1 + 3).

(** Nanjg: [n] boots in a row, the power being cut each time before the
    tick handler or [main] writes to the log again. *)
Fixpoint clicks_nanjg (cfg : Config) (n : nat) (s : Machine) : option Machine :=
  match n with
  | O => Some s
  | S k => s' ← eepLoad_nanjg cfg (power_on (cells s)); clicks_nanjg cfg k s'
  end.

(** A17DD-L: one boot per capacitor reading of [caps], the power being cut
    each time before [main] writes to the log again. *)
Fixpoint clicks_a17dd (cfg : Config) (caps : list Z) (s : Machine) : option Machine :=
  match caps with
  | [] => Some s
  | cap :: rest =>
      s' ← eepLoad_a17dd cfg cap (power_on (cells s)); clicks_a17dd cfg rest s'
  end.

(** The machine holds group [g], mode [m] and tally [t], and the log holds
    exactly the record that the boot code wrote for them in slot [p], the
    current position: [first] is its first byte. *)
Definition committed (first p g m t : Z) (s : Machine) : Prop :=
  In p slots /\ eepos s = p /\
  (forall a, cells s a = single_record p first (groupModeByte g m) a) /\
  group s = g /\ mode s = m /\ shortClicks s = t.

(** The group-change gesture of the A17DD-L variant, cut by a power loss:
    [phase] 0 is the first blink, 1 the gap and the second blink, anything
    else the end of the sequence. *)
Definition groupchange_a17dd_cut (cfg : Config) (phase : nat) (s : Machine) : Machine :=
  let nextGroup := u8 ((group s + 1) mod GROUPS_COUNT cfg) in
  match phase with
  | O => s
  | 1%nat => eepSave 0 nextGroup GROUP_CHANGE_MODE s
  | _ => eepSave 0 (group s) GROUP_CHANGE_MODE
           (eepSave 0 nextGroup GROUP_CHANGE_MODE s)
  end.

(** The same gesture of the Nanjg variant, the power being lost [k] ticks
    after the advanced group was written.  The gap and the second blink
    last [LOCKTIME / 10] and [LOCKTIME] ticks ([doSleep] takes a byte);
    while fewer ticks have passed [main] is still asleep, with the last of
    them it appends the original group again, and every later tick belongs
    to the display loop that follows. *)
Definition groupchange_nanjg_cut (cfg : Config) (k : nat) (s : Machine) : Machine :=
  let s := doSleep cfg (LOCKTIME cfg * 2) s in
  let nextGroup := u8 ((group s + 1) mod GROUPS_COUNT cfg) in
  let s := eepSave 0 nextGroup 0 s in
  let blink := (Z.to_nat (u8 (LOCKTIME cfg / 10)) + Z.to_nat (u8 (LOCKTIME cfg)))%nat in
  if (k <? blink)%nat then Nat.iter k (WDT_vect cfg) s
  else
    let s := doSleep cfg (LOCKTIME cfg / 10) s in
    let s := doSleep cfg (LOCKTIME cfg) s in
    let s :=
      match memory cfg with
      | MEM_NEXT => eepSave 0 (group s) (getNextMode cfg (group s) (mode s)) s
      | _ => eepSave 0 (group s) GROUP_CHANGE_MODE s
      end in
    Nat.iter (k - blink) (WDT_vect cfg) s.

(** *** v1.0 *)

(** A v1.0 store whose only programmed cell is the byte of one record. *)
Definition single_record1 (p d : Z) : Z -> Z := <[p := d]> blank.

(** The EEPROM when power is lost after the first [k] cell operations of
    the v1.0 [eepSave]. *)
Definition eepSave1_cut (k : nat) (data : Z) (s : V1.Machine) : Z -> Z :=
  ee_run (take k (V1.eepSave_ops (V1.eepos s) data)) (V1.cells s).

(** The update of [battcheckCounter] in [getmode]:
    [(~battcheckCounter & 1) | (battcheckCounter << 1)], kept in 16 bits. *)
Definition battcheck_step (bc : Z) : Z :=
  V1.u16 (Z.lor (Z.land (Z.lnot bc) 1) (Z.shiftl bc 1)).

(** The guarded update: the counter is left alone once it holds [0xaaaa]. *)
Definition battcheck_update (bc : Z) : Z :=
  if bc =? 0xaaaa then bc else battcheck_step bc.

(** The bits shifted in by [n] updates of a counter whose lowest bit is [b]. *)
Fixpoint shifted_in (n : nat) (b : Z) : Z :=
  match n with
  | O => 0
  | S k => 2 * shifted_in k b + (1 - (if Nat.even k then b else 1 - b))
  end.

(** A power cycle short enough for the [.noinit] counter to survive,
    followed by [getmode]. *)
Definition quick_boot1 (after : Z -> Z) (s : V1.Machine) : option V1.Machine :=
  V1.getmode after (V1.power_on (V1.cells s) (V1.battcheckCounter s)).

Fixpoint clicks_v1 (after : Z -> Z) (n : nat) (s : V1.Machine) : option V1.Machine :=
  match n with
  | O => Some s
  | S k => s' ← quick_boot1 after s; clicks_v1 after k s'
  end.

(** The v1.0 machine over a sequence of ticks, one battery reading each. *)
Definition ticks_v1 (samples : list Z) (s : V1.Machine) : V1.Machine :=
  fold_left (fun s x => V1.WDT_vect x s) samples s.

(** The v1.0 machine holds group [g] and mode [m], and the log holds
    exactly the byte [d] at the current position [p]. *)
Definition committed1 (d p g m : Z) (s : V1.Machine) : Prop :=
  0 <= p <= 31 /\ V1.eepos s = p /\
  (forall a, V1.cells s a = single_record1 p d a) /\
  V1.group s = g /\ V1.mode s = m.

(** [s] is the v1.0 machine [s0] after its lock-in: the tick handler has
    appended the record of [s0] without the short flag and cleared the
    click counter, and the tick counter has passed [LOCKTIME]. *)
Definition locked_in1 (s0 s : V1.Machine) : Prop :=
  V1.cells s = V1.cells (V1.eepSave (V1.codeGroupAndMode (V1.group s0) (V1.mode s0)) s0) /\
  V1.eepos s = Z.land (V1.eepos s0 + 1) 31 /\
  V1.group s = V1.group s0 /\ V1.mode s = V1.mode s0 /\
  V1.battcheckCounter s = 0 /\
  V1.LOCKTIME <= V1.ticks s.

(** [s] is the v1.0 machine [s0] some ticks before its lock-in. *)
Definition not_locked1 (s0 s : V1.Machine) (k : Z) : Prop :=
  V1.cells s = V1.cells s0 /\ V1.eepos s = V1.eepos s0 /\
  V1.group s = V1.group s0 /\ V1.mode s = V1.mode s0 /\
  V1.battcheckCounter s = V1.battcheckCounter s0 /\
  V1.ticks s = k.

(** * Properties *)

(** ** Arithmetic of bytes and addresses *)

Lemma u8_small z : 0 <= z < 256 -> u8 z = z.
Proof. intros H. unfold u8. apply Z.mod_small. exact H. Qed.

Lemma u8_range z : 0 <= u8 z < 256.
Proof. unfold u8. apply Z.mod_pos_bound. lia. Qed.

Lemma land_erased d : 0 <= d < 256 -> Z.land ERASED d = d.
Proof.
  intros H. unfold ERASED. change 255 with (Z.ones 8).
  rewrite Z.land_comm, Z.land_ones by lia. apply Z.mod_small. exact H.
Qed.

Lemma next_eepos_mod p : next_eepos p = (p + 2) mod 32.
Proof.
  unfold next_eepos. change 31 with (Z.ones 5).
  rewrite Z.land_ones by lia. reflexivity.
Qed.

Lemma In_slots p : In p slots <-> 0 <= p <= 30 /\ p mod 2 = 0.
Proof.
  unfold slots. rewrite in_map_iff. split.
  - intros (i & <- & Hi). apply in_seq in Hi. split; [lia|].
    rewrite Z.mul_comm. apply Z.mod_mul. lia.
  - intros [Hp He]. exists (Z.to_nat (p / 2)). split.
    + rewrite Z2Nat.id by (apply Z.div_pos; lia).
      pose proof (Z.div_mod p 2). lia.
    + apply in_seq. split; [lia|].
      assert (p / 2 < 16) by (apply Z.div_lt_upper_bound; lia). lia.
Qed.

Lemma next_slot p :
  0 <= p <= 30 /\ p mod 2 = 0 ->
  (p <= 28 /\ (p + 2) mod 32 = p + 2) \/ (p = 30 /\ (p + 2) mod 32 = 0).
Proof.
  intros [Hp He]. destruct (Z.eq_dec p 30) as [->|].
  - right. split; reflexivity.
  - left. assert (p <> 29) by (intros ->; discriminate He).
    split; [lia|]. apply Z.mod_small. lia.
Qed.

(** ** The EEPROM log *)

Section Append.
Variables (s : Machine) (p c0 gm0 c g m : Z).
Hypothesis Hslot : In p slots.
Hypothesis Hpos : eepos s = p.
Hypothesis Hstore : forall a, cells s a = single_record p c0 gm0 a.
Hypothesis Hc : 0 <= c < 256.

Let q := (p + 2) mod 32.
Let gm := groupModeByte g m.

(** Settle a goal about a chain of cell updates of the store [s]. *)
Local Ltac cells_of_store :=
  unfold insert, fn_insert; rewrite ?Hstore;
  unfold single_record, blank, insert, fn_insert;
  repeat (case_decide; try lia);
  rewrite ?land_erased by lia; try reflexivity; try lia.

Local Ltac enter :=
  apply In_slots in Hslot;
  pose proof (next_slot p Hslot) as Hq;
  pose proof (u8_range (Z.lor (Z.shiftl g 4) m)) as Hgm;
  fold (groupModeByte g m) in Hgm;
  fold q in Hq; fold gm in Hgm.

Lemma eepSave_ops_order :
  eepSave_ops p c g m = [EeWrite q c; EeErase p; EeWrite (q + 1) gm; EeErase (p + 1)].
Proof. unfold eepSave_ops. rewrite next_eepos_mod. reflexivity. Qed.

Lemma eepSave_cut_stage (k : nat) :
  eepSave_cut k c g m s =
  ee_run (take k [EeWrite q c; EeErase p; EeWrite (q + 1) gm; EeErase (p + 1)]) (cells s).
Proof. unfold eepSave_cut. rewrite Hpos, eepSave_ops_order. reflexivity. Qed.

Lemma eepSave_old_intact (k : nat) :
  (k <= 1)%nat ->
  eepSave_cut k c g m s p = c0 /\ eepSave_cut k c g m s (p + 1) = gm0.
Proof.
  intros Hk. rewrite eepSave_cut_stage. enter. clearbody q gm.
  destruct k as [|[|k]]; [| |lia];
    cbn [take ee_run fold_left ee_apply]; split; cells_of_store.
Qed.

Lemma eepSave_halfway :
  eepSave_cut 2 c g m s p = ERASED /\ eepSave_cut 2 c g m s (q + 1) = ERASED.
Proof.
  rewrite eepSave_cut_stage. enter. clearbody q gm.
  cbn [take ee_run fold_left ee_apply]. split; cells_of_store.
Qed.

Lemma eepSave_new_complete (k : nat) :
  (3 <= k)%nat ->
  eepSave_cut k c g m s q = c /\ eepSave_cut k c g m s (q + 1) = gm.
Proof.
  intros Hk. rewrite eepSave_cut_stage. enter. clearbody q gm.
  destruct k as [|[|[|[|k]]]]; try lia;
    cbn [take ee_run fold_left ee_apply]; rewrite ?take_nil;
    cbn [ee_run fold_left ee_apply]; split; cells_of_store.
Qed.

Lemma eepSave_single_record a :
  cells (eepSave c g m s) a = single_record q c gm a.
Proof.
  unfold eepSave; cbn [cells]. rewrite Hpos, eepSave_ops_order. enter.
  clearbody q gm. cbn [ee_run fold_left ee_apply]. cells_of_store.
Qed.

Lemma eepSave_eepos : eepos (eepSave c g m s) = q.
Proof. unfold eepSave; cbn [eepos]. rewrite Hpos. apply next_eepos_mod. Qed.

End Append.

Lemma append_all_eepos recs s :
  eepos (append_all recs s) = Nat.iter (length recs) next_eepos (eepos s).
Proof.
  unfold append_all. revert s. induction recs as [|r recs IH]; intros s.
  - reflexivity.
  - cbn [fold_left length]. rewrite IH. cbn [eepSave eepos].
    rewrite Nat.iter_succ_r. reflexivity.
Qed.

Lemma iter_next_eepos n p :
  Nat.iter n next_eepos p mod 32 = (p + 2 * Z.of_nat n) mod 32.
Proof.
  induction n as [|n IH].
  - replace (p + 2 * Z.of_nat 0) with p by lia. reflexivity.
  - rewrite Nat.iter_succ, next_eepos_mod, Z.mod_mod by lia.
    rewrite <- Z.add_mod_idemp_l, IH, Z.add_mod_idemp_l by lia.
    f_equal. lia.
Qed.

Lemma sixteen_appends_wrap recs s :
  length recs = 16%nat -> 0 <= eepos s < 32 ->
  eepos (append_all recs s) = eepos s.
Proof.
  intros Hlen Hp. rewrite append_all_eepos, Hlen.
  assert (H : Nat.iter 16 next_eepos (eepos s) mod 32 = eepos s).
  { rewrite iter_next_eepos. change (2 * Z.of_nat 16) with (1 * 32).
    rewrite Z.mod_add by lia. apply Z.mod_small. exact Hp. }
  rewrite <- H at 2. symmetry. apply Z.mod_small.
  change (Nat.iter 16 next_eepos (eepos s))
    with (next_eepos (Nat.iter 15 next_eepos (eepos s))).
  rewrite next_eepos_mod. apply Z.mod_pos_bound. lia.
Qed.

(** C1, as the firmware does it.  [eepSave] on a store that holds exactly
    one record (at slot [p], the current position) performs four cell
    operations in this order: write the first byte of the new record at
    [(p + 2) mod 32], erase the first byte of the old record, write the
    second byte of the new record, erase the second byte of the old
    record.  The old record is intact while at most one operation has
    completed, the new record is complete once three have; after exactly
    two the first byte of the old record and the second byte of the new one
    are both erased.  When all four are done the store holds exactly the
    new record in the next slot, and sixteen consecutive appends bring the
    write position back to where it started. *)
Theorem eepSave_bytewise_append (s : Machine) (p c0 gm0 c g m : Z) :
  In p slots ->
  eepos s = p ->
  (forall a, cells s a = single_record p c0 gm0 a) ->
  0 <= c < 256 ->
  let q := (p + 2) mod 32 in
  let gm := groupModeByte g m in
  eepSave_ops p c g m
    = [EeWrite q c; EeErase p; EeWrite (q + 1) gm; EeErase (p + 1)] /\
  (forall k, (k <= 1)%nat ->
     eepSave_cut k c g m s p = c0 /\ eepSave_cut k c g m s (p + 1) = gm0) /\
  (eepSave_cut 2 c g m s p = ERASED /\ eepSave_cut 2 c g m s (q + 1) = ERASED) /\
  (forall k, (3 <= k)%nat ->
     eepSave_cut k c g m s q = c /\ eepSave_cut k c g m s (q + 1) = gm) /\
  (forall a, cells (eepSave c g m s) a = single_record q c gm a) /\
  eepos (eepSave c g m s) = q /\
  (forall recs, length recs = 16%nat -> eepos (append_all recs s) = p).
Proof.
  intros Hslot Hpos Hstore Hc q gm. repeat split.
  - apply eepSave_ops_order.
  - eapply eepSave_old_intact; eassumption.
  - eapply eepSave_old_intact; eassumption.
  - eapply eepSave_halfway; eassumption.
  - eapply eepSave_halfway; eassumption.
  - eapply eepSave_new_complete; eassumption.
  - eapply eepSave_new_complete; eassumption.
  - intros a. eapply eepSave_single_record; eassumption.
  - apply eepSave_eepos. exact Hpos.
  - intros recs Hlen. rewrite <- Hpos. apply sixteen_appends_wrap; [exact Hlen|].
    apply In_slots in Hslot. lia.
Qed.

(** The statement above at the machine [cut_example], appending the
    record of the next boot. *)
Lemma eepSave_bytewise_append_witness :
  cells (eepSave 0x81 0 2 cut_example) 2 = 0x81 /\
  cells (eepSave 0x81 0 2 cut_example) 3 = 0x02 /\
  cells (eepSave 0x81 0 2 cut_example) 0 = ERASED /\
  eepos (eepSave 0x81 0 2 cut_example) = 2.
Proof.
  assert (H0 : In 0 slots) by (left; reflexivity).
  assert (H1 : eepos cut_example = 0) by reflexivity.
  assert (H2 : forall a, cells cut_example a = single_record 0 0x80 0x01 a)
    by (intros a; reflexivity).
  assert (H3 : 0 <= 0x81 < 256) by lia.
  destruct (eepSave_bytewise_append cut_example 0 0x80 0x01 0x81 0 2 H0 H1 H2 H3)
    as (_ & _ & _ & _ & Hcells & Hq & _).
  rewrite !Hcells, Hq. repeat split.
Defined.

(** C1, as stated, fails: with the old record in slot 0 and the new one
    going to slot 2, a power cut after the second cell operation leaves no
    slot of the store with both bytes programmed. *)
Lemma eepSave_cut_leaves_no_complete_record :
  has_complete_record (cells cut_example) = true /\
  ~ (forall k : nat, (k <= 4)%nat ->
       has_complete_record (eepSave_cut k 0x81 0 2 cut_example) = true).
Proof.
  split; [reflexivity|].
  intros H. assert (F := H 2%nat ltac:(lia)).
  vm_compute in F. discriminate F.
Qed.

(** What the next boot makes of that store: the scan stops on the second
    byte of the old record and takes it for a tally, the first byte of the
    new record is decoded as group and mode, and the write position
    becomes odd. *)
Lemma boot_after_cut_is_misaligned :
  option_map (fun s => (eepos s, group s, mode s, shortClicks s))
    (eepLoad_nanjg nanjg_cfg (power_on (eepSave_cut 2 0x81 0 2 cut_example)))
  = Some (3, 0, 1, 1).
Proof. vm_compute. reflexivity. Qed.

(** ** Encoding and decoding of records *)

Lemma forallb_below (P : Z -> bool) (n : nat) :
  forallb P (below n) = true -> forall x, 0 <= x < Z.of_nat n -> P x = true.
Proof.
  intros H x Hx. rewrite forallb_forall in H. apply H.
  unfold below. apply in_map_iff. exists (Z.to_nat x). split; [lia|].
  apply in_seq. lia.
Qed.

Lemma nibbles_unpack g m :
  0 <= g < 16 -> 0 <= m < 16 ->
  Z.shiftr (groupModeByte g m) 4 = g /\ Z.land (groupModeByte g m) 0xf = m.
Proof.
  intros Hg Hm.
  pose (P := fun g => forallb (fun m =>
     (Z.shiftr (groupModeByte g m) 4 =? g) && (Z.land (groupModeByte g m) 0xf =? m))
     (below 16)).
  assert (HP : forallb P (below 16) = true) by (vm_compute; reflexivity).
  pose proof (forallb_below _ _ (forallb_below P 16 HP g Hg) m Hm) as H.
  cbv beta in H. apply andb_true_iff in H. lia.
Qed.

Lemma clicks_unpack t (f : bool) :
  0 <= t <= 127 ->
  let c := u8 (Z.lor t (if f then 0x80 else 0)) in
  Z.land c 0x7f = t /\ negb (Z.land c 0x80 =? 0) = f.
Proof.
  intros Ht.
  pose (P := fun f : bool => fun t =>
     let c := u8 (Z.lor t (if f then 0x80 else 0)) in
     (Z.land c 0x7f =? t) && eqb (negb (Z.land c 0x80 =? 0)) f).
  assert (HP : forall f, forallb (P f) (below 128) = true)
    by (intros []; vm_compute; reflexivity).
  pose proof (forallb_below _ _ (HP f) t ltac:(lia)) as H.
  unfold P in H. cbv zeta in *. apply andb_true_iff in H. destruct H as [H1 H2].
  apply eqb_prop in H2. split; [lia|exact H2].
Qed.

Lemma table_ok_spec cfg :
  table_ok cfg = true ->
  0 < MODES_COUNT cfg <= 16 /\ 0 < GROUPS_COUNT cfg <= 16 /\
  Z.of_nat (length (groups cfg)) = GROUPS_COUNT cfg /\
  (forall row, In row (groups cfg) -> Z.of_nat (length row) = MODES_COUNT cfg).
Proof.
  unfold table_ok. rewrite !andb_true_iff, forallb_forall.
  intros [[[[[H1 H2] H3] H4] H5] H6]. repeat split; try lia.
  intros row Hrow. specialize (H6 row Hrow). lia.
Qed.

Lemma table_lookup_is_Some cfg g m :
  table_ok cfg = true ->
  0 <= g < GROUPS_COUNT cfg -> 0 <= m < MODES_COUNT cfg ->
  is_Some (table_lookup cfg g m).
Proof.
  intros Hok Hg Hm. apply table_ok_spec in Hok as (_ & _ & Hlen & Hrows).
  unfold table_lookup.
  destruct (groups cfg !! Z.to_nat g) as [row|] eqn:Hrow.
  - cbn. apply lookup_lt_is_Some.
    assert (In row (groups cfg))
      by (apply list_elem_of_In; eapply list_elem_of_lookup_2; exact Hrow).
    specialize (Hrows row H). lia.
  - apply lookup_ge_None in Hrow. lia.
Qed.

Lemma decodeGroup_range cfg data :
  0 < GROUPS_COUNT cfg -> 0 <= decodeGroup cfg data < GROUPS_COUNT cfg.
Proof. intros H. unfold decodeGroup. apply Z.mod_pos_bound. exact H. Qed.

Lemma decodeMode_range cfg data :
  0 < MODES_COUNT cfg -> 0 <= decodeMode cfg data < MODES_COUNT cfg.
Proof. intros H. unfold decodeMode. apply Z.mod_pos_bound. exact H. Qed.

Lemma decode_groupModeByte cfg g m :
  0 < GROUPS_COUNT cfg <= 16 -> 0 < MODES_COUNT cfg <= 16 ->
  0 <= g < GROUPS_COUNT cfg -> 0 <= m < MODES_COUNT cfg ->
  decodeGroup cfg (groupModeByte g m) = g /\ decodeMode cfg (groupModeByte g m) = m.
Proof.
  intros HG HM Hg Hm.
  destruct (nibbles_unpack g m ltac:(lia) ltac:(lia)) as [H1 H2].
  unfold decodeGroup, decodeMode. rewrite H1, H2.
  split; apply Z.mod_small; lia.
Qed.

Lemma shiftr4_land15 data :
  0 <= data < 256 ->
  Z.shiftr data 4 = data / 16 /\ Z.land data 0xf = data mod 16.
Proof.
  intros _. split.
  - apply (Z.shiftr_div_pow2 data 4). lia.
  - change 15 with (Z.ones 4). rewrite Z.land_ones by lia. reflexivity.
Qed.

Lemma storedGroupMode_checked :
  forallb (fun d =>
     let g := V1.storedGroup d in
     let m := V1.storedMode d in
     (0 <=? g) && (g <? V1.GROUPS_COUNT) && (0 <=? m) && (m <? V1.MODES_COUNT) &&
     (g =? if V1.decodeGroup d <? V1.GROUPS_COUNT then V1.decodeGroup d else 0) &&
     (m =? if V1.decodeMode d <? V1.MODES_COUNT then V1.decodeMode d else 0) &&
     match V1.table_lookup g m with Some _ => true | None => false end)
    (below 256) = true.
Proof. vm_compute. reflexivity. Qed.

(** C7, as the firmware does it.  Every stored byte decodes to a group
    index below [GROUPS_COUNT] and a mode index below [MODES_COUNT], so the
    lookup in the mode table is inside the table.  The v2.0 firmware gets
    there by reducing the two nibbles modulo the counts; the v1.0 firmware
    ([getmode]) instead replaces a field that is out of range by 0. *)
Theorem decode_in_bounds (cfg : Config) (data : Z) :
  table_ok cfg = true ->
  0 <= data < 256 ->
  (decodeGroup cfg data = (data / 16) mod GROUPS_COUNT cfg /\
   decodeMode cfg data = (data mod 16) mod MODES_COUNT cfg /\
   0 <= decodeGroup cfg data < GROUPS_COUNT cfg /\
   0 <= decodeMode cfg data < MODES_COUNT cfg /\
   is_Some (table_lookup cfg (decodeGroup cfg data) (decodeMode cfg data))) /\
  (V1.storedGroup data
     = (if V1.decodeGroup data <? V1.GROUPS_COUNT then V1.decodeGroup data else 0) /\
   V1.storedMode data
     = (if V1.decodeMode data <? V1.MODES_COUNT then V1.decodeMode data else 0) /\
   0 <= V1.storedGroup data < V1.GROUPS_COUNT /\
   0 <= V1.storedMode data < V1.MODES_COUNT /\
   is_Some (V1.table_lookup (V1.storedGroup data) (V1.storedMode data))).
Proof.
  intros Hok Hd. split.
  - pose proof (table_ok_spec cfg Hok) as (HM & HG & _).
    destruct (shiftr4_land15 data Hd) as [H1 H2].
    pose proof (decodeGroup_range cfg data ltac:(lia)) as Hg.
    pose proof (decodeMode_range cfg data ltac:(lia)) as Hm.
    repeat split; try lia.
    + unfold decodeGroup. rewrite H1. reflexivity.
    + unfold decodeMode. rewrite H2. reflexivity.
    + apply table_lookup_is_Some; assumption.
  - pose proof (forallb_below _ _ storedGroupMode_checked data Hd) as H.
    cbv zeta beta in H. rewrite !andb_true_iff in H.
    destruct H as [[[[[[H1 H2] H3] H4] H5] H6] H7].
    repeat split; try lia.
    destruct (V1.table_lookup _ _); [eexists; reflexivity|discriminate].
Qed.

(** The statement at the byte [0xff] of an erased cell, in the shipped
    Nanjg configuration. *)
Lemma decode_in_bounds_witness :
  decodeGroup nanjg_cfg 0xff = 1 /\ decodeMode nanjg_cfg 0xff = 7 /\
  is_Some (table_lookup nanjg_cfg (decodeGroup nanjg_cfg 0xff) (decodeMode nanjg_cfg 0xff)).
Proof.
  assert (Hok : table_ok nanjg_cfg = true) by reflexivity.
  assert (Hd : 0 <= 0xff < 256) by lia.
  destruct (decode_in_bounds nanjg_cfg 0xff Hok Hd) as [(Hg & Hm & _ & _ & Hl) _].
  split; [exact Hg|]. split; [exact Hm|exact Hl].
Defined.

(** C7, as stated, fails for v1.0: the byte [0x18] carries group field 3,
    which [getmode] turns into group 0, while 3 modulo [GROUPS_COUNT] is 1. *)
Lemma getmode_does_not_reduce_modulo :
  V1.decodeGroup 0x18 = 3 /\
  V1.decodeGroup 0x18 mod V1.GROUPS_COUNT = 1 /\
  V1.storedGroup 0x18 = 0 /\
  (forall after bc,
     option_map V1.group (V1.getmode after (V1.power_on (<[0 := 0x18]> blank) bc))
     = Some 0) /\
  ~ (forall data, 0 <= data < 256 ->
       V1.storedGroup data = V1.decodeGroup data mod V1.GROUPS_COUNT).
Proof.
  repeat split.
  intros H. specialize (H 0x18 ltac:(lia)). vm_compute in H. discriminate H.
Qed.

(** ** The boot-time scan *)

Lemma find_data_stop e p :
  0 <= p <= 30 -> (e p <> 0xff \/ p = 30) ->
  forall fuel pos seen,
    0 <= pos <= p ->
    (forall a, pos <= a < p -> e a = 0xff) ->
    (Z.to_nat (p - pos) < fuel)%nat ->
    exists seen', find_data fuel e pos seen = Some (p, e p, seen').
Proof.
  intros Hp Hstop. induction fuel as [|fuel IH]; intros pos seen Hpos Hff Hfuel.
  - lia.
  - cbn [find_data]. destruct (Z.eq_dec pos p) as [->|Hne].
    + assert ((e p =? 0xff) && (p <? 30) = false) as ->.
      { apply andb_false_iff. destruct Hstop; [left|right]; lia. }
      eexists. reflexivity.
    + assert ((e pos =? 0xff) && (pos <? 30) = true) as ->.
      { apply andb_true_iff. rewrite Hff by lia. split; [reflexivity|lia]. }
      rewrite u8_small by lia. apply IH; [lia| |lia].
      intros a Ha. apply Hff. lia.
Qed.

Lemma find_data_total e :
  forall fuel pos seen,
    0 <= pos <= 30 -> (Z.to_nat (31 - pos) <= fuel)%nat ->
    exists p c seen',
      find_data fuel e pos seen = Some (p, c, seen') /\
      pos <= p <= 30 /\ c = e p /\
      (c = 0xff -> p = 30) /\
      (forall a, pos <= a < p -> e a = 0xff) /\
      (forall a, In a seen' -> In a seen \/ 0 <= a <= 30).
Proof.
  induction fuel as [|fuel IH]; intros pos seen Hpos Hfuel.
  - lia.
  - cbn [find_data]. destruct ((e pos =? 0xff) && (pos <? 30)) eqn:Hcont.
    + apply andb_true_iff in Hcont as [H1 H2].
      rewrite u8_small by lia.
      destruct (IH (pos + 1) (seen ++ [pos]) ltac:(lia) ltac:(lia))
        as (p & c & seen' & Hfind & Hp & Hc & Hlast & Hff & Hseen).
      exists p, c, seen'. repeat split; try assumption; try lia.
      * intros a Ha. destruct (Z.eq_dec a pos) as [->|]; [lia|]. apply Hff. lia.
      * intros a Ha. destruct (Hseen a Ha) as [Hin|]; [|right; assumption].
        apply in_app_or in Hin as [Hin|[<-|[]]]; [left; assumption|right; lia].
    + apply andb_false_iff in Hcont.
      exists pos, (e pos), (seen ++ [pos]). repeat split; try lia.
      intros a Ha. apply in_app_or in Ha as [Hin|[<-|[]]]; [left; assumption|right; lia].
Qed.

(** The scan of the v2.0 firmware and the read of the second byte stay
    inside the 32-byte region, whatever the EEPROM holds. *)
Lemma eepLoad_reads_in_region (e : Z -> Z) :
  exists reads,
    eepLoad_reads (power_on e) = Some reads /\
    forall a, In a reads -> 0 <= a <= 31.
Proof.
  destruct (find_data_total e 256 0 [] ltac:(lia) ltac:(lia))
    as (p & c & seen' & Hfind & Hp & _ & _ & _ & Hseen).
  unfold eepLoad_reads, power_on. cbn [cells eepos]. rewrite Hfind. cbn.
  eexists. split; [reflexivity|].
  intros a Ha. apply in_app_or in Ha as [Ha|[<-|[]]]; [|lia].
  destruct (Hseen a Ha) as [[]|]. lia.
Qed.

(** ** The mode table *)

Lemma first_zero_spec (row : list Z) :
  0 <= first_zero row <= Z.of_nat (length row) /\
  (forall i v, row !! i = Some v -> Z.of_nat i < first_zero row -> u8 v <> 0) /\
  (forall v, row !! Z.to_nat (first_zero row) = Some v -> u8 v = 0) /\
  (zeros_trail row = true ->
   forall i v, row !! i = Some v -> first_zero row <= Z.of_nat i -> u8 v = 0).
Proof.
  induction row as [|x row (IH1 & IH2 & IH3 & IH4)].
  - cbn. repeat split; try lia; intros; discriminate.
  - cbn [first_zero zeros_trail length]. destruct (u8 x =? 0) eqn:Hx.
    + repeat split; try lia.
      * intros v Hv. cbn in Hv. inversion Hv; subst. lia.
      * intros Hz [|i] v Hv _; cbn in Hv.
        -- inversion Hv; subst. lia.
        -- rewrite forallb_forall in Hz.
           assert (In v row) as Hin
             by (apply list_elem_of_In; eapply list_elem_of_lookup_2; exact Hv).
           specialize (Hz v Hin). lia.
    + repeat split; try lia.
      * intros [|i] v Hv Hi; cbn in Hv.
        -- inversion Hv; subst. lia.
        -- apply (IH2 i v Hv). lia.
      * intros v Hv. replace (Z.to_nat (1 + first_zero row))
          with (S (Z.to_nat (first_zero row))) in Hv by lia.
        cbn in Hv. apply IH3. exact Hv.
      * intros Hz [|i] v Hv Hi; cbn in Hv.
        -- lia.
        -- apply (IH4 Hz i v Hv). lia.
Qed.

Lemma table_row cfg g :
  table_ok cfg = true -> 0 <= g < GROUPS_COUNT cfg ->
  exists row,
    groups cfg !! Z.to_nat g = Some row /\
    Z.of_nat (length row) = MODES_COUNT cfg /\
    effective_length cfg g = first_zero row /\
    (forall m, pgm_read_byte cfg g m = u8 (default 0 (row !! Z.to_nat m))).
Proof.
  intros Hok Hg. pose proof (table_ok_spec cfg Hok) as (_ & _ & Hlen & Hrows).
  destruct (groups cfg !! Z.to_nat g) as [row|] eqn:Hrow.
  - exists row. repeat split.
    + apply Hrows. apply list_elem_of_In. eapply list_elem_of_lookup_2. exact Hrow.
    + unfold effective_length. rewrite Hrow. reflexivity.
    + intros m. unfold pgm_read_byte, table_lookup. rewrite Hrow. reflexivity.
  - apply lookup_ge_None in Hrow. lia.
Qed.

Lemma effective_length_range cfg g :
  table_ok cfg = true -> 0 <= g < GROUPS_COUNT cfg ->
  0 <= effective_length cfg g <= MODES_COUNT cfg.
Proof.
  intros Hok Hg. destruct (table_row cfg g Hok Hg) as (row & _ & Hlen & -> & _).
  pose proof (first_zero_spec row) as (H & _). lia.
Qed.

(** [getNextMode] is the successor that wraps at the effective length:
    for a mode inside the effective part of its group, and for every mode
    index when the zero slots of the group are all at its end. *)
Lemma getNextMode_wraps cfg g m :
  table_ok cfg = true ->
  0 <= g < GROUPS_COUNT cfg ->
  0 <= m < MODES_COUNT cfg ->
  (m < effective_length cfg g \/
   zeros_trail (default [] (groups cfg !! Z.to_nat g)) = true) ->
  getNextMode cfg g m = (if m + 1 <? effective_length cfg g then m + 1 else 0).
Proof.
  intros Hok Hg Hm Hcase.
  pose proof (table_ok_spec cfg Hok) as (HM & _).
  destruct (table_row cfg g Hok Hg) as (row & Hrow & Hlen & Heff & Hread).
  rewrite Hrow in Hcase. cbn in Hcase. rewrite Heff in *.
  pose proof (first_zero_spec row) as (Hr & Hnz & Hz & Htrail).
  unfold getNextMode. rewrite Hread.
  destruct (Z.eq_dec (m + 1) (MODES_COUNT cfg)) as [Hwrap|Hin].
  - rewrite Hwrap, Z.mod_same by lia. change (u8 0) with 0.
    destruct (Z.ltb_spec (MODES_COUNT cfg) (first_zero row)); [lia|].
    destruct (_ =? 0); reflexivity.
  - rewrite Z.mod_small, (u8_small (m + 1)) by lia.
    assert (is_Some (row !! Z.to_nat (m + 1))) as [v Hv]
      by (apply lookup_lt_is_Some; lia).
    rewrite Hv. change (default 0 (Some v)) with v.
    destruct (m + 1 <? first_zero row) eqn:Hlt.
    + assert (u8 v <> 0) by (apply (Hnz _ _ Hv); lia).
      destruct (Z.eqb_spec (u8 v) 0); [contradiction|reflexivity].
    + assert (u8 v = 0) as ->; [|reflexivity].
      destruct Hcase as [Hc|Hc].
      * apply Hz. replace (first_zero row) with (m + 1) by lia. exact Hv.
      * apply (Htrail Hc _ _ Hv). lia.
Qed.

(** ** Power-on resolution *)

Lemma eepLoad_nanjg_found cfg e p :
  0 <= p <= 30 ->
  (forall a, 0 <= a < p -> e a = 0xff) ->
  e p <> 0xff ->
  let short := negb (Z.land (e p) 0x80 =? 0) in
  let g := decodeGroup cfg (e (p + 1)) in
  let m := if short then getNextMode cfg g (decodeMode cfg (e (p + 1)))
           else decodeMode cfg (e (p + 1)) in
  let t := if short then u8 (Z.land (e p) 0x7f + 1) else Z.land (e p) 0x7f in
  eepLoad_nanjg cfg (power_on e)
  = Some (eepSave (Z.lor t 0x80) g m
            {| cells := e; eepos := p; group := g; mode := m;
               shortClicks := t; ticks := 0 |}).
Proof.
  intros Hp Hff Hdata.
  destruct (find_data_stop e p Hp (or_introl Hdata) 256 0 [] ltac:(lia)
              ltac:(intros; apply Hff; lia) ltac:(lia)) as [seen Hfind].
  unfold eepLoad_nanjg, power_on. cbn [cells eepos]. rewrite Hfind. cbn.
  destruct (Z.eqb_spec (e p) 255) as [Heq|_]; [contradiction|]. cbn.
  destruct (Z.land (e p) 128 =? 0); reflexivity.
Qed.

Lemma eepLoad_a17dd_found cfg cap e p :
  0 <= p <= 30 ->
  (forall a, 0 <= a < p -> e a = 0xff) ->
  e p <> 0xff ->
  let short := cap >? CAP_THRESHOLD cfg in
  let g := decodeGroup cfg (e (p + 1)) in
  let m0 := decodeMode cfg (e (p + 1)) in
  let m := if short then getNextMode cfg g m0
           else match memory cfg with
                | MEM_NEXT => getNextMode cfg g m0
                | MEM_FIRST => 0
                | MEM_LAST => m0
                end in
  let t := if short then u8 (e p + 1) else 0 in
  eepLoad_a17dd cfg cap (power_on e)
  = Some (eepSave t g m
            {| cells := e; eepos := p; group := g; mode := m;
               shortClicks := t; ticks := 0 |}).
Proof.
  intros Hp Hff Hdata.
  destruct (find_data_stop e p Hp (or_introl Hdata) 256 0 [] ltac:(lia)
              ltac:(intros; apply Hff; lia) ltac:(lia)) as [seen Hfind].
  unfold eepLoad_a17dd, power_on. cbn [cells eepos]. rewrite Hfind. cbn.
  destruct (Z.eqb_spec (e p) 255) as [Heq|_]; [contradiction|]. cbn.
  destruct (cap >? CAP_THRESHOLD cfg); [reflexivity|].
  unfold apply_memory. destruct (memory cfg); reflexivity.
Qed.

Lemma find_data_blank e :
  (forall a, 0 <= a < 32 -> e a = ERASED) ->
  exists seen, find_data 256 e 0 [] = Some (30, ERASED, seen).
Proof.
  intros Hblank.
  destruct (find_data_stop e 30 ltac:(lia) (or_intror eq_refl) 256 0 []
              ltac:(lia) ltac:(intros; apply Hblank; lia) ltac:(lia)) as [seen Hfind].
  exists seen. rewrite Hfind, Hblank by lia. reflexivity.
Qed.

(** *** The lock-in of the Nanjg variant *)

Lemma WDT_before_lock cfg s (k : nat) :
  ticks s = 0 -> 0 < LOCKTIME cfg <= 255 -> Z.of_nat k < LOCKTIME cfg ->
  Nat.iter k (WDT_vect cfg) s = set_ticks (Z.of_nat k) s.
Proof.
  intros Ht HL. induction k as [|k IH]; intros Hk.
  - destruct s; cbn in *; subst; reflexivity.
  - rewrite Nat.iter_succ, IH by lia. unfold WDT_vect. cbn [ticks set_ticks].
    destruct (Z.ltb_spec (Z.of_nat k) 255); [|lia].
    destruct (Z.eqb_spec (Z.of_nat k + 1) (LOCKTIME cfg)); [lia|].
    unfold set_ticks. cbn. f_equal. lia.
Qed.

Lemma WDT_at_lock cfg s :
  ticks s = 0 -> 0 < LOCKTIME cfg <= 255 ->
  locked_in cfg s (Nat.iter (Z.to_nat (LOCKTIME cfg)) (WDT_vect cfg) s).
Proof.
  intros Ht HL.
  replace (Z.to_nat (LOCKTIME cfg)) with (S (Z.to_nat (LOCKTIME cfg - 1))) by lia.
  rewrite Nat.iter_succ, WDT_before_lock by lia.
  unfold WDT_vect. cbn [ticks set_ticks].
  destruct (Z.ltb_spec (Z.of_nat (Z.to_nat (LOCKTIME cfg - 1))) 255); [|lia].
  destruct (Z.eqb_spec (Z.of_nat (Z.to_nat (LOCKTIME cfg - 1)) + 1) (LOCKTIME cfg)); [|lia].
  unfold locked_in. destruct (memory cfg); cbn; repeat split; lia.
Qed.

Lemma WDT_after_lock cfg s0 s :
  locked_in cfg s0 s -> locked_in cfg s0 (WDT_vect cfg s).
Proof.
  intros (Hc & Hp & Hg & Hm & Ht). unfold WDT_vect.
  destruct (Z.ltb_spec (ticks s) 255); [|repeat split; assumption].
  cbn [ticks set_ticks].
  destruct (Z.eqb_spec (ticks s + 1) (LOCKTIME cfg)); [lia|].
  repeat split; cbn; try assumption; lia.
Qed.

Lemma iter_after_lock cfg s0 s (n : nat) :
  locked_in cfg s0 s -> locked_in cfg s0 (Nat.iter n (WDT_vect cfg) s).
Proof.
  intros H. induction n as [|n IH]; [exact H|].
  rewrite Nat.iter_succ. apply WDT_after_lock. exact IH.
Qed.

Lemma WDT_locks cfg s (n : nat) :
  ticks s = 0 -> 0 < LOCKTIME cfg <= 255 -> LOCKTIME cfg <= Z.of_nat n ->
  locked_in cfg s (Nat.iter n (WDT_vect cfg) s).
Proof.
  intros Ht HL Hn.
  replace n with ((n - Z.to_nat (LOCKTIME cfg)) + Z.to_nat (LOCKTIME cfg))%nat by lia.
  rewrite Nat.iter_add. apply iter_after_lock. apply WDT_at_lock; assumption.
Qed.

Lemma zeros_trail_row cfg g :
  forallb zeros_trail (groups cfg) = true ->
  zeros_trail (default [] (groups cfg !! Z.to_nat g)) = true.
Proof.
  intros H. destruct (groups cfg !! Z.to_nat g) as [row|] eqn:Hrow; [|reflexivity].
  rewrite forallb_forall in H. apply H.
  apply list_elem_of_In. eapply list_elem_of_lookup_2. exact Hrow.
Qed.

Lemma successor_mode_range cfg g m :
  table_ok cfg = true -> 0 <= g < GROUPS_COUNT cfg -> 0 <= m ->
  0 <= successor_mode cfg g m < MODES_COUNT cfg.
Proof.
  intros Hok Hg Hm. pose proof (effective_length_range cfg g Hok Hg).
  pose proof (table_ok_spec cfg Hok) as (HM & _).
  unfold successor_mode. destruct (Z.ltb_spec (m + 1) (effective_length cfg g)); lia.
Qed.

Lemma resumed_mode_eq cfg g m :
  table_ok cfg = true ->
  forallb zeros_trail (groups cfg) = true ->
  0 <= g < GROUPS_COUNT cfg -> 0 <= m < MODES_COUNT cfg ->
  match memory cfg with
  | MEM_NEXT => getNextMode cfg g m
  | MEM_FIRST => 0
  | MEM_LAST => m
  end = resumed_mode cfg g m /\
  0 <= resumed_mode cfg g m < MODES_COUNT cfg.
Proof.
  intros Hok Htrail Hg Hm. unfold resumed_mode.
  pose proof (successor_mode_range cfg g m Hok Hg ltac:(lia)) as Hs.
  unfold successor_mode in Hs.
  destruct (memory cfg); split; try lia; try reflexivity.
  apply getNextMode_wraps; try assumption.
  right. apply zeros_trail_row. exact Htrail.
Qed.

Lemma long_session_a17dd cfg e p g m cap :
  table_ok cfg = true ->
  forallb zeros_trail (groups cfg) = true ->
  0 <= p <= 30 ->
  (forall a, 0 <= a < p -> e a = ERASED) ->
  e p <> ERASED ->
  decodeGroup cfg (e (p + 1)) = g ->
  decodeMode cfg (e (p + 1)) = m ->
  cap <= CAP_THRESHOLD cfg ->
  exists s, eepLoad_a17dd cfg cap (power_on e) = Some s /\
            group s = g /\ mode s = resumed_mode cfg g m /\ shortClicks s = 0.
Proof.
  intros Hok Htrail Hp Hff Hdata Hdg Hdm Hcap.
  pose proof (table_ok_spec cfg Hok) as (HM & HG & _).
  pose proof (decodeGroup_range cfg (e (p + 1)) ltac:(lia)) as Hg.
  pose proof (decodeMode_range cfg (e (p + 1)) ltac:(lia)) as Hm.
  rewrite Hdg in Hg. rewrite Hdm in Hm.
  rewrite (eepLoad_a17dd_found cfg cap e p Hp Hff Hdata).
  eexists. split; [reflexivity|]. cbn [eepSave group mode shortClicks].
  rewrite Hdg, Hdm.
  destruct (Z.gtb_spec cap (CAP_THRESHOLD cfg)); [lia|].
  repeat split. apply resumed_mode_eq; assumption.
Qed.

Lemma long_session_nanjg cfg s p c0 gm0 (n : nat) :
  table_ok cfg = true ->
  forallb zeros_trail (groups cfg) = true ->
  0 < LOCKTIME cfg <= 255 ->
  In p slots -> eepos s = p ->
  (forall a, cells s a = single_record p c0 gm0 a) ->
  0 <= group s < GROUPS_COUNT cfg -> 0 <= mode s < MODES_COUNT cfg ->
  ticks s = 0 ->
  LOCKTIME cfg <= Z.of_nat n ->
  exists s', eepLoad_nanjg cfg (power_on (cells (Nat.iter n (WDT_vect cfg) s))) = Some s' /\
             group s' = group s /\ mode s' = resumed_mode cfg (group s) (mode s) /\
             shortClicks s' = 0.
Proof.
  intros Hok Htrail HL Hslot Hpos Hstore Hg Hm Ht Hn.
  pose proof (table_ok_spec cfg Hok) as (HM & HG & _).
  destruct (resumed_mode_eq cfg _ _ Hok Htrail Hg Hm) as [Hres Hrange].
  destruct (WDT_locks cfg s n Ht HL Hn) as (Hcells & _).
  rewrite Hres in Hcells.
  set (e := cells (Nat.iter n (WDT_vect cfg) s)) in *.
  set (m' := resumed_mode cfg (group s) (mode s)) in *.
  assert (He : forall a, e a = single_record ((p + 2) mod 32) 0 (groupModeByte (group s) m') a).
  { intros a. rewrite Hcells.
    apply (eepSave_single_record s p c0 gm0 0 (group s) m' Hslot Hpos Hstore). lia. }
  apply In_slots in Hslot. pose proof (next_slot p Hslot) as Hq.
  set (q := (p + 2) mod 32) in *.
  assert (Hq0 : e q = 0)
    by (rewrite He; unfold single_record, blank, insert, fn_insert;
        repeat (case_decide; try lia)).
  assert (Hq1 : e (q + 1) = groupModeByte (group s) m')
    by (rewrite He; unfold single_record, blank, insert, fn_insert;
        repeat (case_decide; try lia)).
  rewrite (eepLoad_nanjg_found cfg e q).
  - eexists. split; [reflexivity|]. cbn [eepSave group mode shortClicks].
    rewrite Hq0, Hq1. cbn [Z.land Z.eqb negb].
    destruct (decode_groupModeByte cfg (group s) m' HG HM Hg Hrange) as [-> ->].
    repeat split.
  - lia.
  - intros a Ha. rewrite He. unfold single_record, blank, insert, fn_insert.
    repeat (case_decide; try lia). reflexivity.
  - rewrite Hq0. discriminate.
Qed.

(** C3, as the firmware does it.  A boot after a long session.  A17DD-L:
    the stored record
    decodes to group [g] and mode [m] inside the configured bounds and the
    capacitor reading is not above the threshold; the boot resumes by the
    memory policy and resets the tally: mode [m] under [MEM_LAST], 0 under
    [MEM_FIRST], and under [MEM_NEXT] the successor of [m] wrapping at the
    effective length of the group (tables with their zero slots at the end
    of each group).  Nanjg: a boot that finds a record without the short
    flag takes the stored group, mode and tally as they are, under every
    policy; the policy is applied by the tick handler when it commits the
    session at the lock time.  So after a session in group [g] and a mode
    [m] other than the group-change mode that reached the lock time, the
    next boot resolves group [g], the mode the policy gives for [m], and
    tally 0. *)
Theorem long_session_resolution :
  (forall cfg e p g m cap,
     table_ok cfg = true ->
     forallb zeros_trail (groups cfg) = true ->
     0 <= p <= 30 ->
     (forall a, 0 <= a < p -> e a = ERASED) ->
     e p <> ERASED ->
     decodeGroup cfg (e (p + 1)) = g ->
     decodeMode cfg (e (p + 1)) = m ->
     cap <= CAP_THRESHOLD cfg ->
     exists s, eepLoad_a17dd cfg cap (power_on e) = Some s /\
               group s = g /\ mode s = resumed_mode cfg g m /\ shortClicks s = 0) /\
  (forall cfg e p,
     0 <= p <= 30 ->
     (forall a, 0 <= a < p -> e a = ERASED) ->
     e p <> ERASED ->
     Z.land (e p) 0x80 = 0 ->
     exists s, eepLoad_nanjg cfg (power_on e) = Some s /\
               group s = decodeGroup cfg (e (p + 1)) /\
               mode s = decodeMode cfg (e (p + 1)) /\
               shortClicks s = Z.land (e p) 0x7f) /\
  (forall cfg s p c0 gm0 (n : nat),
     table_ok cfg = true ->
     forallb zeros_trail (groups cfg) = true ->
     0 < LOCKTIME cfg <= 255 ->
     In p slots -> eepos s = p ->
     (forall a, cells s a = single_record p c0 gm0 a) ->
     0 <= group s < GROUPS_COUNT cfg -> 0 <= mode s < MODES_COUNT cfg ->
     mode s <> GROUP_CHANGE_MODE ->
     ticks s = 0 ->
     LOCKTIME cfg <= Z.of_nat n ->
     exists s', eepLoad_nanjg cfg (power_on (cells (Nat.iter n (WDT_vect cfg) s))) = Some s' /\
                group s' = group s /\
                mode s' = resumed_mode cfg (group s) (mode s) /\
                shortClicks s' = 0) /\
  (forall cfg g m,
     resumed_mode (with_memory MEM_LAST cfg) g m = m /\
     resumed_mode (with_memory MEM_FIRST cfg) g m = 0 /\
     resumed_mode (with_memory MEM_NEXT cfg) g m
       = (if m + 1 <? effective_length cfg g then m + 1 else 0)).
Proof.
  split; [|split; [|split]].
  - intros. eapply long_session_a17dd; eassumption.
  - intros cfg e p Hp Hff Hdata Hflag.
    rewrite (eepLoad_nanjg_found cfg e p Hp Hff Hdata). rewrite Hflag.
    eexists. split; [reflexivity|]. cbn [Z.eqb negb eepSave group mode shortClicks].
    repeat split.
  - intros cfg s p c0 gm0 n Hok Htrail HL Hslot Hpos Hstore Hg Hm _ Ht Hn.
    exact (long_session_nanjg cfg s p c0 gm0 n Hok Htrail HL Hslot Hpos Hstore Hg Hm Ht Hn).
  - intros cfg g m. repeat split.
Qed.

(** The statement for the record (group 0, mode 1) in slot 4 of the
    A17DD-L store, read back with a discharged capacitor under the shipped
    policy [MEM_LAST]: the mode stays 1. *)
Lemma long_session_resolution_witness :
  exists s, eepLoad_a17dd a17dd_cfg 100 (power_on (single_record 4 0 0x01)) = Some s /\
            group s = 0 /\ mode s = 1 /\ shortClicks s = 0.
Proof.
  apply (proj1 long_session_resolution a17dd_cfg (single_record 4 0 0x01) 4 0 1 100).
  - reflexivity.
  - reflexivity.
  - lia.
  - intros a Ha. unfold single_record, blank, insert, fn_insert.
    repeat (case_decide; try lia).
  - discriminate.
  - reflexivity.
  - reflexivity.
  - change (100 <= 190). lia.
Defined.

(** C3, as stated, fails on the Nanjg variant, whose boot applies no policy.
    The byte [0x02] decodes to group 0 and mode 2 of the shipped table,
    where the successor of mode 2 is mode 3.  Under [MEM_NEXT], a boot on
    the record [(0, 0x02)], which has no short flag, resolves mode 2 and
    not mode 3; under [MEM_FIRST], a boot on the record [(5, 0x02)]
    resolves mode 2 and tally 5, not mode 0 and tally 0. *)
Lemma nanjg_boot_applies_no_policy :
  decodeGroup nanjg_cfg 0x02 = 0 /\ decodeMode nanjg_cfg 0x02 = 2 /\
  resumed_mode (with_memory MEM_NEXT nanjg_cfg) 0 2 = 3 /\
  resumed_mode (with_memory MEM_FIRST nanjg_cfg) 0 2 = 0 /\
  option_map (fun s => (group s, mode s, shortClicks s))
    (eepLoad_nanjg (with_memory MEM_NEXT nanjg_cfg) (power_on (single_record 0 0 0x02)))
  = Some (0, 2, 0) /\
  option_map (fun s => (group s, mode s, shortClicks s))
    (eepLoad_nanjg (with_memory MEM_FIRST nanjg_cfg) (power_on (single_record 0 5 0x02)))
  = Some (0, 2, 5).
Proof. repeat split. Qed.

Lemma short_session_a17dd cfg e p g m cap :
  table_ok cfg = true ->
  0 <= p <= 30 ->
  (forall a, 0 <= a < p -> e a = ERASED) ->
  0 <= e p < 255 ->
  decodeGroup cfg (e (p + 1)) = g ->
  decodeMode cfg (e (p + 1)) = m ->
  m < effective_length cfg g ->
  cap > CAP_THRESHOLD cfg ->
  exists s, eepLoad_a17dd cfg cap (power_on e) = Some s /\
            group s = g /\ mode s = successor_mode cfg g m /\
            shortClicks s = e p + 1.
Proof.
  intros Hok Hp Hff Hdata Hdg Hdm Heff Hcap.
  pose proof (table_ok_spec cfg Hok) as (HM & HG & _).
  pose proof (decodeGroup_range cfg (e (p + 1)) ltac:(lia)) as Hg.
  pose proof (decodeMode_range cfg (e (p + 1)) ltac:(lia)) as Hm.
  rewrite Hdg in Hg. rewrite Hdm in Hm.
  rewrite (eepLoad_a17dd_found cfg cap e p Hp Hff) by (unfold ERASED in *; lia).
  eexists. split; [reflexivity|]. cbn [eepSave group mode shortClicks].
  rewrite Hdg, Hdm.
  destruct (Z.gtb_spec cap (CAP_THRESHOLD cfg)); [|lia].
  repeat split.
  - apply getNextMode_wraps; try assumption. left. exact Heff.
  - apply u8_small. lia.
Qed.

Lemma land_flag c :
  0 <= c < 256 -> Z.land c 0x80 <> 0 -> 0x80 <= c /\ Z.land c 0x7f = c - 0x80.
Proof.
  intros Hc Hflag.
  pose (P := fun c => (Z.land c 0x80 =? 0) ||
                      ((0x80 <=? c) && (Z.land c 0x7f =? c - 0x80))).
  assert (HP : forallb P (below 256) = true) by (vm_compute; reflexivity).
  pose proof (forallb_below P 256 HP c Hc) as H. unfold P in H.
  apply orb_true_iff in H as [H|H]; [lia|].
  apply andb_true_iff in H. lia.
Qed.

Lemma short_session_nanjg cfg e p g m :
  table_ok cfg = true ->
  0 <= p <= 30 ->
  (forall a, 0 <= a < p -> e a = ERASED) ->
  0 <= e p < 255 ->
  Z.land (e p) 0x80 <> 0 ->
  decodeGroup cfg (e (p + 1)) = g ->
  decodeMode cfg (e (p + 1)) = m ->
  m < effective_length cfg g ->
  exists s, eepLoad_nanjg cfg (power_on e) = Some s /\
            group s = g /\ mode s = successor_mode cfg g m /\
            shortClicks s = Z.land (e p) 0x7f + 1.
Proof.
  intros Hok Hp Hff Hdata Hflag Hdg Hdm Heff.
  pose proof (table_ok_spec cfg Hok) as (HM & HG & _).
  pose proof (decodeGroup_range cfg (e (p + 1)) ltac:(lia)) as Hg.
  pose proof (decodeMode_range cfg (e (p + 1)) ltac:(lia)) as Hm.
  rewrite Hdg in Hg. rewrite Hdm in Hm.
  rewrite (eepLoad_nanjg_found cfg e p Hp Hff) by (unfold ERASED in *; lia).
  eexists. split; [reflexivity|]. cbn [eepSave group mode shortClicks].
  rewrite Hdg, Hdm.
  destruct (Z.eqb_spec (Z.land (e p) 0x80) 0); [contradiction|]. cbn [negb].
  repeat split.
  - apply getNextMode_wraps; try assumption. left. exact Heff.
  - apply u8_small. destruct (land_flag (e p) ltac:(lia) Hflag). lia.
Qed.

(** C4.  A boot after a short session advances the mode and counts the
    click.  The stored record decodes to group [g] and a mode [m] below the
    effective length of the group; the session is short when the capacitor
    reading is above the threshold (A17DD-L) or when the short flag of the
    record is set (Nanjg).  The resolved mode is [m + 1] when that is below
    the effective length and 0 otherwise, the resolved tally is the stored
    tally plus one.  In particular the group [6, 32, 128, 255, 0, 0, 0] has
    effective length 4 and stored mode 3 resolves to mode 0. *)
Theorem short_session_resolution :
  (forall cfg e p g m cap,
     table_ok cfg = true ->
     0 <= p <= 30 ->
     (forall a, 0 <= a < p -> e a = ERASED) ->
     0 <= e p < 255 ->
     decodeGroup cfg (e (p + 1)) = g ->
     decodeMode cfg (e (p + 1)) = m ->
     m < effective_length cfg g ->
     cap > CAP_THRESHOLD cfg ->
     exists s, eepLoad_a17dd cfg cap (power_on e) = Some s /\
               group s = g /\
               mode s = (if m + 1 <? effective_length cfg g then m + 1 else 0) /\
               shortClicks s = e p + 1) /\
  (forall cfg e p g m,
     table_ok cfg = true ->
     0 <= p <= 30 ->
     (forall a, 0 <= a < p -> e a = ERASED) ->
     0 <= e p < 255 ->
     Z.land (e p) 0x80 <> 0 ->
     decodeGroup cfg (e (p + 1)) = g ->
     decodeMode cfg (e (p + 1)) = m ->
     m < effective_length cfg g ->
     exists s, eepLoad_nanjg cfg (power_on e) = Some s /\
               group s = g /\
               mode s = (if m + 1 <? effective_length cfg g then m + 1 else 0) /\
               shortClicks s = Z.land (e p) 0x7f + 1) /\
  (first_zero [6; 32; 128; 255; 0; 0; 0] = 4 /\
   V1.groups !! 0%nat = Some [6; 32; 128; 255; 0; 0; 0] /\
   V1.getNextMode 0 3 = 0 /\
   (forall after bc,
      option_map V1.mode
        (V1.getmode after (V1.power_on (<[0 := encode_record1 0 3 true]> blank) bc))
      = Some 0) /\
   option_map mode
     (eepLoad_nanjg nanjg_cfg (power_on (single_record 0 0x80 (groupModeByte 0 3))))
   = Some 0).
Proof.
  split; [|split].
  - intros. eapply short_session_a17dd; eassumption.
  - intros. eapply short_session_nanjg; eassumption.
  - repeat split.
Qed.

(** The statement for the A17DD-L record (tally 2, group 1, mode 6, the
    last mode of the second group) read back with a charged capacitor: the
    mode wraps to 0 and the tally becomes 3. *)
Lemma short_session_resolution_witness :
  exists s, eepLoad_a17dd a17dd_cfg 200 (power_on (single_record 6 2 0x16)) = Some s /\
            group s = 1 /\ mode s = 0 /\ shortClicks s = 3.
Proof.
  apply (proj1 short_session_resolution a17dd_cfg (single_record 6 2 0x16) 6 1 6 200).
  - reflexivity.
  - lia.
  - intros a Ha. unfold single_record, blank, insert, fn_insert.
    repeat (case_decide; try lia).
  - change (0 <= 2 < 255). lia.
  - reflexivity.
  - reflexivity.
  - change (6 < 7). lia.
  - change (200 > 190). lia.
Defined.

(** *** The scan of v1.0 *)

Lemma find_data1_blank (eep : Z -> Z) :
  (forall i, 0 <= i < 32 -> eep i = 0xff) ->
  forall (n fuel : nat) seen,
    (n <= 32)%nat -> (n < fuel)%nat ->
    exists seen',
      V1.find_data fuel eep (32 - Z.of_nat n) seen = Some (32, seen') /\
      In 32 seen'.
Proof.
  intros Hblank. induction n as [|n IH]; intros fuel seen Hn Hfuel.
  - destruct fuel as [|fuel]; [lia|]. cbn [V1.find_data].
    change (32 - Z.of_nat 0) with 32. change (32 <? 32) with false.
    rewrite andb_false_r. eexists. split; [reflexivity|].
    apply in_or_app. right. left. reflexivity.
  - destruct fuel as [|fuel]; [lia|]. cbn [V1.find_data].
    rewrite Hblank by lia. change (255 =? 255) with true. cbn [andb].
    destruct (Z.ltb_spec (32 - Z.of_nat (S n)) 32); [|lia].
    rewrite u8_small by lia.
    replace (32 - Z.of_nat (S n) + 1) with (32 - Z.of_nat n) by lia.
    apply IH; lia.
Qed.

(** C10 at the fully erased store, for v1.0.  [getmode] tests
    [eep[eepos] == 0xff] before [eepos < 32], so on a store where all 32
    cells read [0xff] the loop reads [eep[32]], one element past the
    32-byte buffer, and the record read that follows uses index 32 again.
    This holds whatever lies behind the buffer and whatever the
    uninitialised counter holds. *)
Theorem getmode_reads_past_buffer (e : Z -> Z) (after : Z -> Z) (bc : Z) :
  (forall a, 0 <= a < 32 -> e a = ERASED) ->
  exists reads,
    V1.getmode_reads after (V1.power_on e bc) = Some reads /\
    In 32 reads /\
    last reads = Some 32.
Proof.
  intros Hblank.
  destruct (find_data1_blank (V1.eep_at e after)
              ltac:(intros i Hi; unfold V1.eep_at;
                    destruct (Z.ltb_spec i 32); [apply Hblank|]; lia)
              32 256 [] ltac:(lia) ltac:(lia)) as (seen & Hfind & Hin).
  unfold V1.getmode_reads, V1.power_on. cbn [V1.cells V1.eepos].
  change 0 with (32 - Z.of_nat 32) at 1. rewrite Hfind. cbn.
  eexists. split; [reflexivity|]. split.
  - apply in_or_app. left. exact Hin.
  - apply last_snoc.
Qed.

(** The statement at the factory-fresh store. *)
Lemma getmode_reads_past_buffer_witness :
  exists reads,
    V1.getmode_reads (fun _ => 0) (V1.power_on blank 0) = Some reads /\
    In 32 reads /\ last reads = Some 32.
Proof.
  apply (getmode_reads_past_buffer blank (fun _ => 0) 0). intros a _. reflexivity.
Defined.

(** C2.  Boot on an empty store (every cell of the 32-byte region reads
    [0xff]).  The boot code of both v2.0 variants resolves group 0, mode 0
    and tally 0, whatever the configuration and the capacitor reading: its
    scan stops inside the region and the decoding is skipped for a first
    byte [0xff].  [getmode] of v1.0 has no such test and its scan runs one
    element past the buffer: the group and the mode it resolves are
    those decoded from the byte [after 0] that lies behind the buffer, and
    the mode is advanced when that byte has bit 7 set. *)
Theorem empty_store_boot (e : Z -> Z) (cfgN cfgA : Config) (cap : Z)
    (after : Z -> Z) (bc : Z) :
  (forall a, 0 <= a < 32 -> e a = ERASED) ->
  (exists s, eepLoad_nanjg cfgN (power_on e) = Some s /\
             group s = 0 /\ mode s = 0 /\ shortClicks s = 0) /\
  (exists s, eepLoad_a17dd cfgA cap (power_on e) = Some s /\
             group s = 0 /\ mode s = 0 /\ shortClicks s = 0) /\
  (exists s, V1.getmode after (V1.power_on e bc) = Some s /\
             let d := after 0 in
             V1.group s = V1.storedGroup d /\
             V1.mode s = (if negb (Z.land d 0x80 =? 0)
                          then V1.getNextMode (V1.storedGroup d) (V1.storedMode d)
                          else V1.storedMode d)).
Proof.
  intros Hblank. destruct (find_data_blank e Hblank) as [seen Hfind].
  split; [|split].
  - unfold eepLoad_nanjg, power_on. cbn [cells eepos]. rewrite Hfind. cbn.
    eexists. split; [reflexivity|]. cbn. repeat split.
  - unfold eepLoad_a17dd, power_on. cbn [cells eepos]. rewrite Hfind. cbn.
    eexists. split; [reflexivity|]. cbn. repeat split.
  - destruct (find_data1_blank (V1.eep_at e after)
                ltac:(intros i Hi; unfold V1.eep_at;
                      destruct (Z.ltb_spec i 32); [apply Hblank|]; lia)
                32 256 [] ltac:(lia) ltac:(lia)) as (seen1 & Hfind1 & _).
    unfold V1.getmode, V1.power_on. cbn [V1.cells V1.eepos V1.battcheckCounter].
    change (32 - Z.of_nat 32) with 0 in Hfind1. rewrite Hfind1.
    cbn [mbind option_bind]. eexists. split; [reflexivity|].
    change (V1.eep_at e after 32) with (after 0).
    cbn [V1.eepSave V1.group V1.mode]. split; reflexivity.
Qed.

(** The statement at the factory-fresh store: the shipped v2.0
    configurations resolve group 0, mode 0 and tally 0; v1.0 resolves mode
    1 when the byte behind its buffer is [0x80]. *)
Lemma empty_store_boot_witness :
  (exists s, eepLoad_nanjg nanjg_cfg (power_on blank) = Some s /\
             group s = 0 /\ mode s = 0 /\ shortClicks s = 0) /\
  (exists s, eepLoad_a17dd a17dd_cfg 200 (power_on blank) = Some s /\
             group s = 0 /\ mode s = 0 /\ shortClicks s = 0) /\
  (exists s, V1.getmode (fun _ => 0x80) (V1.power_on blank 0) = Some s /\
             V1.group s = 0 /\ V1.mode s = 1).
Proof.
  apply (empty_store_boot blank nanjg_cfg a17dd_cfg 200 (fun _ => 0x80) 0).
  intros a _. reflexivity.
Defined.

(** ** The round trip of a record *)

Lemma first_byte_erased_iff t (f : bool) :
  0 <= t <= 127 ->
  (u8 (Z.lor t (if f then 0x80 else 0)) = ERASED <-> t = 127 /\ f = true).
Proof.
  intros Ht. destruct (clicks_unpack t f Ht) as [H1 H2]. cbv zeta in H1, H2. split.
  - intros E. rewrite E in H1, H2. split; [|symmetry; exact H2].
    change (Z.land ERASED 127) with 127 in H1. lia.
  - intros [-> ->]. reflexivity.
Qed.

(** C6, as the firmware does it.  For every group below [GROUPS_COUNT],
    mode below [MODES_COUNT],
    tally of at most 127 and short flag, other than the tally 127 together
    with the set flag, decoding the encoded record gives the record back:
    for the two-byte record of the v2.0 firmware (any configuration within
    the documented maximum of 16 groups of 16 modes), and for the one-byte
    record of v1.0, which carries group, mode and flag only.  The tally 127
    with the set flag packs into the first byte [0xff], which [eepLoad]
    takes for an erased cell: nothing is decoded.  What is decoded is what
    the boot of the Nanjg variant starts from when it finds the two bytes
    in the log. *)
Theorem record_roundtrip :
  (forall cfg (r : LogRecord),
     0 < GROUPS_COUNT cfg <= 16 -> 0 < MODES_COUNT cfg <= 16 ->
     0 <= r_group r < GROUPS_COUNT cfg ->
     0 <= r_mode r < MODES_COUNT cfg ->
     0 <= r_tally r <= 127 ->
     (r_tally r = 127 -> r_short r = false) ->
     decode_record cfg (encode_record r) = Some r) /\
  (forall cfg g m,
     let r := {| r_group := g; r_mode := m; r_tally := 127; r_short := true |} in
     (encode_record r).1 = ERASED /\ decode_record cfg (encode_record r) = None) /\
  (forall cfg e p r,
     0 <= p <= 30 ->
     (forall a, 0 <= a < p -> e a = ERASED) ->
     decode_record cfg (e p, e (p + 1)) = Some r ->
     exists s, eepLoad_nanjg cfg (power_on e) = Some s /\
               group s = r_group r /\
               mode s = (if r_short r then getNextMode cfg (r_group r) (r_mode r)
                         else r_mode r) /\
               shortClicks s = (if r_short r then u8 (r_tally r + 1) else r_tally r)) /\
  (forall g m (short : bool),
     0 <= g < V1.GROUPS_COUNT -> 0 <= m < V1.MODES_COUNT ->
     decode_record1 (encode_record1 g m short) = (g, m, short)).
Proof.
  split; [|split; [|split]].
  - intros cfg [g m t f] HG HM Hg Hm Ht Hfull.
    cbn [r_group r_mode r_tally r_short] in *.
    unfold decode_record, encode_record. cbn [fst snd r_group r_mode r_tally r_short].
    destruct (Z.eqb_spec (u8 (Z.lor t (if f then 128 else 0))) 255) as [E|_].
    + apply (first_byte_erased_iff t f Ht) in E as [E1 E2].
      rewrite (Hfull E1) in E2. discriminate E2.
    + cbn [negb]. destruct (decode_groupModeByte cfg g m HG HM Hg Hm) as [-> ->].
      destruct (clicks_unpack t f Ht) as [-> ->]. reflexivity.
  - intros cfg g m r. split; reflexivity.
  - intros cfg e p r Hp Hff Hdec. unfold decode_record in Hdec. cbn [fst snd] in Hdec.
    destruct (Z.eqb_spec (e p) 255) as [E|NE]; [discriminate Hdec|].
    cbn [negb] in Hdec. injection Hdec as <-.
    rewrite (eepLoad_nanjg_found cfg e p Hp Hff NE).
    eexists. split; [reflexivity|].
    cbn [eepSave group mode shortClicks r_group r_mode r_tally r_short].
    repeat split.
  - intros g m short Hg Hm.
    pose (P := fun short : bool => fun g => forallb (fun m =>
       let '(g', m', f') := decode_record1 (encode_record1 g m short) in
       (g' =? g) && (m' =? m) && eqb f' short) (below 7)).
    assert (HP : forall f, forallb (P f) (below 2) = true)
      by (intros []; vm_compute; reflexivity).
    pose proof (forallb_below _ _ (forallb_below _ _ (HP short) g Hg) m Hm) as H.
    cbv beta in H. destruct (decode_record1 (encode_record1 g m short)) as [[g' m'] f'].
    rewrite !andb_true_iff in H. destruct H as [[H1 H2] H3].
    apply eqb_prop in H3. f_equal; [f_equal|]; [lia|lia|exact H3].
Qed.

(** The round trip for the record that a fifteenth short click in a row
    stores in the shipped Nanjg configuration. *)
Lemma record_roundtrip_witness :
  decode_record nanjg_cfg
    (encode_record {| r_group := 1; r_mode := 6; r_tally := 15; r_short := true |})
  = Some {| r_group := 1; r_mode := 6; r_tally := 15; r_short := true |}.
Proof.
  apply (proj1 record_roundtrip nanjg_cfg); cbn; lia.
Defined.

(** C6, as stated, fails for the record (group 0, mode 1, tally 127, short
    flag), which is inside its range: the two bytes are [(0xff, 0x01)], the
    firmware decodes nothing from them, and a boot on the log that holds
    them in slot 0 skips the first byte and resolves group 1, mode 7 and
    tally 1. *)
Lemma full_tally_record_is_lost :
  (0 <= 0 < GROUPS_COUNT nanjg_cfg /\ 0 <= 1 < MODES_COUNT nanjg_cfg /\ 0 <= 127 <= 127) /\
  encode_record {| r_group := 0; r_mode := 1; r_tally := 127; r_short := true |}
  = (0xff, 0x01) /\
  decode_record nanjg_cfg
    (encode_record {| r_group := 0; r_mode := 1; r_tally := 127; r_short := true |})
  <> Some {| r_group := 0; r_mode := 1; r_tally := 127; r_short := true |} /\
  option_map (fun s => (group s, mode s, shortClicks s))
    (eepLoad_nanjg nanjg_cfg (power_on (single_record 0 0xff 0x01)))
  = Some (1, 7, 1).
Proof.
  split; [|split; [|split]].
  - vm_compute. repeat split; discriminate.
  - reflexivity.
  - discriminate.
  - reflexivity.
Qed.

(** ** The battery-check gesture *)

Lemma next_eepos_range p : 0 <= next_eepos p < 32.
Proof. rewrite next_eepos_mod. apply Z.mod_pos_bound. lia. Qed.

Lemma next_eepos_apart p :
  0 <= p < 32 -> next_eepos p <> p /\ next_eepos p <> p + 1.
Proof.
  intros Hp. rewrite next_eepos_mod.
  destruct (Z.ltb_spec (p + 2) 32).
  - rewrite Z.mod_small by lia. lia.
  - replace (p + 2) with ((p - 30) + 1 * 32) by lia.
    rewrite Z.mod_add, Z.mod_small by lia. lia.
Qed.

(** After [eepSave(0, g, m)] the first byte of the current record is 0,
    whatever the EEPROM held before. *)
Lemma eepSave_zero_tally g m s :
  0 <= eepos s < 32 ->
  cells (eepSave 0 g m s) (eepos (eepSave 0 g m s)) = 0.
Proof.
  intros Hp. destruct (next_eepos_apart (eepos s) Hp) as [H1 H2].
  unfold eepSave, eepSave_ops. cbn [cells eepos ee_run fold_left ee_apply].
  unfold insert, fn_insert. repeat (case_decide; try lia).
  apply Z.land_0_r.
Qed.

Lemma same_frame_refl s : same_frame s s.
Proof. repeat split; tauto. Qed.

Lemma same_frame_trans s1 s2 s3 :
  same_frame s1 s2 -> same_frame s2 s3 -> same_frame s1 s3.
Proof.
  intros (A1 & A2 & A3 & A4) (B1 & B2 & B3 & B4).
  repeat split; try congruence; apply B4, A4; assumption.
Qed.

Lemma WDT_frame cfg s : same_frame s (WDT_vect cfg s).
Proof.
  unfold WDT_vect. destruct (ticks s <? 255); [|apply same_frame_refl].
  cbn [ticks set_ticks]. destruct (_ =? LOCKTIME cfg).
  - destruct (memory cfg); repeat split; cbn; intros; apply next_eepos_range.
  - repeat split; cbn; tauto.
Qed.

Lemma iter_frame (f : Machine -> Machine) (n : nat) s :
  (forall x, same_frame x (f x)) -> same_frame s (Nat.iter n f s).
Proof.
  intros Hf. induction n as [|n IH]; [apply same_frame_refl|].
  rewrite Nat.iter_succ. eapply same_frame_trans; [exact IH|apply Hf].
Qed.

Lemma doSleep_frame cfg count s : same_frame s (doSleep cfg count s).
Proof. apply iter_frame. intros x. apply WDT_frame. Qed.

Lemma doSleep_locked cfg s0 s count :
  locked_in cfg s0 s -> locked_in cfg s0 (doSleep cfg count s).
Proof. apply iter_after_lock. Qed.

Lemma doImpulses_locked cfg s0 s count onTime offTime :
  locked_in cfg s0 s -> locked_in cfg s0 (doImpulses cfg count onTime offTime s).
Proof.
  intros H. unfold doImpulses.
  induction (Z.to_nat (u8 count)) as [|n IH]; [exact H|].
  rewrite Nat.iter_succ. apply doSleep_locked, doSleep_locked, IH.
Qed.

Lemma battcheck_nanjg_shown cfg voltage r :
  ticks r = 0 -> 0 < LOCKTIME cfg <= 50 -> 0 <= eepos r < 32 ->
  BATTCHECK cfg <= shortClicks r ->
  exists s, battcheck_nanjg cfg voltage r = (s, [EvBattCheck (blinksCount voltage)]) /\
            shortClicks s = 0 /\ cells s (eepos s) = 0 /\
            group s = group r /\ mode s = mode r /\ 0 <= eepos s < 32.
Proof.
  intros Ht HL Hp Hb. unfold battcheck_nanjg.
  destruct (Z.geb_spec (shortClicks r) (BATTCHECK cfg)); [|lia].
  eexists. split; [reflexivity|].
  set (s1 := doSleep cfg 50 r).
  set (s2 := doImpulses cfg (blinksCount voltage) 10 20 s1).
  set (s3 := set_shortClicks 0 s2).
  assert (L1 : locked_in cfg r s1)
    by (apply (WDT_locks cfg r (Z.to_nat (u8 50)) Ht); change (u8 50) with 50; lia).
  assert (L2 : locked_in cfg r s2) by (apply doImpulses_locked, L1).
  assert (L3 : locked_in cfg r s3) by exact L2.
  assert (L4 : locked_in cfg r (doSleep cfg 50 s3)) by (apply doSleep_locked, L3).
  destruct (doSleep_frame cfg 50 s3) as (F1 & _).
  destruct L4 as (Hc & He & Hg & Hm & Hticks).
  repeat split.
  - rewrite F1. reflexivity.
  - rewrite Hc, He. apply (eepSave_zero_tally _ _ r Hp).
  - exact Hg.
  - exact Hm.
  - rewrite He. apply next_eepos_range.
  - rewrite He. apply next_eepos_range.
Qed.

Lemma groupchange_nanjg_spec cfg s :
  0 <= eepos s < 32 ->
  exists s' blink,
    groupchange_nanjg cfg s = (s', blink) /\
    (forall b, ~ In (EvBattCheck b) blink) /\
    shortClicks s' = shortClicks s /\
    (cells s (eepos s) = 0 -> cells s' (eepos s') = 0).
Proof.
  intros Hp. unfold groupchange_nanjg.
  destruct (mode s =? GROUP_CHANGE_MODE).
  - eexists _, _. split; [reflexivity|].
    set (s1 := doSleep cfg (LOCKTIME cfg * 2) s).
    set (s2 := eepSave 0 _ 0 s1).
    set (s3 := doSleep cfg (LOCKTIME cfg / 10) s2).
    set (s4 := doSleep cfg (LOCKTIME cfg) s3).
    destruct (doSleep_frame cfg (LOCKTIME cfg * 2) s) as (A1 & _ & _ & A4).
    destruct (doSleep_frame cfg (LOCKTIME cfg / 10) s2) as (B1 & _ & _ & B4).
    destruct (doSleep_frame cfg (LOCKTIME cfg) s3) as (C1 & _ & _ & C4).
    fold s1 in A1, A4. fold s3 in B1, B4. fold s4 in C1, C4.
    assert (H4 : 0 <= eepos s4 < 32).
    { apply C4, B4. subst s2. cbn [eepSave eepos]. apply next_eepos_range. }
    assert (H2 : shortClicks s2 = shortClicks s1) by reflexivity.
    split; [intros b [Hb|[]]; discriminate Hb|].
    destruct (memory cfg); (split; [cbn [eepSave shortClicks]; congruence|]);
      intros _; apply eepSave_zero_tally; exact H4.
  - exists s, []. repeat split; tauto.
Qed.

Lemma display_of_not_battcheck cfg v b : display_of cfg v <> EvBattCheck b.
Proof.
  unfold display_of.
  destruct (_ =? STROBE cfg); [discriminate|].
  destruct (_ =? PSTROBE cfg); [discriminate|].
  destruct (_ =? SOS cfg); discriminate.
Qed.

Lemma eepLoad_nanjg_total cfg e :
  exists r, eepLoad_nanjg cfg (power_on e) = Some r /\
            ticks r = 0 /\ 0 <= eepos r < 32.
Proof.
  destruct (find_data_total e 256 0 [] ltac:(lia) ltac:(lia))
    as (p & c & seen & Hfind & _).
  unfold eepLoad_nanjg, power_on. cbn [cells eepos]. rewrite Hfind. cbn.
  eexists. split; [reflexivity|]. cbn [eepSave ticks eepos]. split.
  - destruct (c =? 255); cbn; [reflexivity|].
    destruct (Z.land c 128 =? 0); reflexivity.
  - apply next_eepos_range.
Qed.

Lemma eepLoad_a17dd_total cfg cap e :
  exists r, eepLoad_a17dd cfg cap (power_on e) = Some r /\ 0 <= eepos r < 32.
Proof.
  destruct (find_data_total e 256 0 [] ltac:(lia) ltac:(lia))
    as (p & c & seen & Hfind & _).
  unfold eepLoad_a17dd, power_on. cbn [cells eepos]. rewrite Hfind. cbn.
  eexists. split; [reflexivity|]. cbn [eepSave eepos]. apply next_eepos_range.
Qed.

Lemma battcheck_in_trace (shown blink : list Event) (d : Event) (b0 : Z) :
  (shown = [] \/ shown = [EvBattCheck b0]) ->
  (forall b, ~ In (EvBattCheck b) blink) ->
  (forall b, d <> EvBattCheck b) ->
  ((exists b, In (EvBattCheck b) (shown ++ blink ++ [d])) <-> shown <> []) /\
  last (shown ++ blink ++ [d]) = Some d.
Proof.
  intros Hshown Hblink Hd. split.
  - split.
    + intros [b Hb] ->. cbn [app] in Hb.
      apply in_app_or in Hb as [Hb|[Hb|[]]]; [exact (Hblink b Hb)|exact (Hd b Hb)].
    + intros Hne. destruct Hshown as [->| ->]; [contradiction|].
      exists b0. left. reflexivity.
  - rewrite app_assoc. apply last_snoc.
Qed.

Lemma main_nanjg_gesture cfg voltage e :
  0 < LOCKTIME cfg <= 50 ->
  exists r s evs,
    eepLoad_nanjg cfg (power_on e) = Some r /\
    main_nanjg cfg voltage e = Some (s, evs) /\
    ((exists b, In (EvBattCheck b) evs) <-> BATTCHECK cfg <= shortClicks r) /\
    last evs = Some (display_of cfg (pgm_read_byte cfg (group r) (mode r))) /\
    (BATTCHECK cfg <= shortClicks r ->
     hd_error evs = Some (EvBattCheck (blinksCount voltage)) /\
     shortClicks s = 0 /\ cells s (eepos s) = 0).
Proof.
  intros HL. destruct (eepLoad_nanjg_total cfg e) as (r & Hr & Ht & Hp).
  unfold main_nanjg. rewrite Hr. cbn [mbind option_bind].
  set (d := display_of cfg (pgm_read_byte cfg (group r) (mode r))).
  destruct (Z.le_gt_cases (BATTCHECK cfg) (shortClicks r)) as [Hb|Hb].
  - destruct (battcheck_nanjg_shown cfg voltage r Ht HL Hp Hb)
      as (s1 & -> & Hs1 & Hc1 & _ & _ & Hp1).
    destruct (groupchange_nanjg_spec cfg s1 Hp1) as (s2 & blink & -> & Hbl & Hs2 & Hc2).
    exists r, s2, ([EvBattCheck (blinksCount voltage)] ++ blink ++ [d]).
    destruct (battcheck_in_trace [EvBattCheck (blinksCount voltage)] blink d
                (blinksCount voltage) (or_intror eq_refl) Hbl
                (display_of_not_battcheck cfg _)) as [Hin Hlast].
    repeat split; try assumption; try reflexivity.
    + intros _. exact Hb.
    + intros _. apply Hin. discriminate.
    + congruence.
    + apply Hc2, Hc1.
  - assert (battcheck_nanjg cfg voltage r = (r, [])) as ->.
    { unfold battcheck_nanjg. destruct (Z.geb_spec (shortClicks r) (BATTCHECK cfg)); [lia|reflexivity]. }
    destruct (groupchange_nanjg_spec cfg r Hp) as (s2 & blink & -> & Hbl & Hs2 & Hc2).
    exists r, s2, ([] ++ blink ++ [d]).
    destruct (battcheck_in_trace [] blink d 0 (or_introl eq_refl) Hbl
                (display_of_not_battcheck cfg _)) as [Hin Hlast].
    repeat split; try assumption; try reflexivity; try lia.
    intros Hex. apply Hin in Hex. contradiction.
Qed.

Lemma groupchange_a17dd_spec cfg s :
  0 <= eepos s < 32 ->
  exists s' blink,
    groupchange_a17dd cfg s = (s', blink) /\
    (forall b, ~ In (EvBattCheck b) blink) /\
    (cells s (eepos s) = 0 -> cells s' (eepos s') = 0).
Proof.
  intros Hp. unfold groupchange_a17dd.
  destruct (mode s =? GROUP_CHANGE_MODE).
  - eexists _, _. split; [reflexivity|].
    split; [intros b [Hb|[]]; discriminate Hb|].
    intros _. apply eepSave_zero_tally. cbn [eepSave eepos]. apply next_eepos_range.
  - exists s, []. repeat split; tauto.
Qed.

Lemma main_a17dd_gesture cfg cap voltage e :
  exists r s evs,
    eepLoad_a17dd cfg cap (power_on e) = Some r /\
    main_a17dd cfg cap voltage e = Some (s, evs) /\
    ((exists b, In (EvBattCheck b) evs) <-> BATTCHECK cfg <= shortClicks r) /\
    last evs = Some (display_of cfg (pgm_read_byte cfg (group r) (mode r))) /\
    (BATTCHECK cfg <= shortClicks r ->
     hd_error evs = Some (EvBattCheck (blinksCount voltage)) /\
     cells s (eepos s) = 0).
Proof.
  destruct (eepLoad_a17dd_total cfg cap e) as (r & Hr & Hp).
  unfold main_a17dd. rewrite Hr. cbn [mbind option_bind].
  set (d := display_of cfg (pgm_read_byte cfg (group r) (mode r))).
  unfold battcheck_a17dd.
  destruct (Z.geb_spec (shortClicks r) (BATTCHECK cfg)) as [Hb|Hb].
  - set (s1 := eepSave 0 (group r) (mode r) r).
    assert (Hp1 : 0 <= eepos s1 < 32) by apply next_eepos_range.
    destruct (groupchange_a17dd_spec cfg s1 Hp1) as (s2 & blink & -> & Hbl & Hc2).
    exists r, s2, ([EvBattCheck (blinksCount voltage)] ++ blink ++ [d]).
    destruct (battcheck_in_trace [EvBattCheck (blinksCount voltage)] blink d
                (blinksCount voltage) (or_intror eq_refl) Hbl
                (display_of_not_battcheck cfg _)) as [Hin Hlast].
    repeat split; try assumption; try reflexivity.
    + intros _. lia.
    + intros _. apply Hin. discriminate.
    + apply Hc2. apply eepSave_zero_tally. exact Hp.
  - destruct (groupchange_a17dd_spec cfg r Hp) as (s2 & blink & -> & Hbl & Hc2).
    exists r, s2, ([] ++ blink ++ [d]).
    destruct (battcheck_in_trace [] blink d 0 (or_introl eq_refl) Hbl
                (display_of_not_battcheck cfg _)) as [Hin Hlast].
    repeat split; try assumption; try reflexivity; try lia.
    intros Hex. apply Hin in Hex. contradiction.
Qed.

(** C5, as the firmware does it.  At every boot the battery-check display
    runs exactly when the resolved tally has reached [BATTCHECK]; it is then
    the first thing shown, and the mode display (the endless loop chosen by
    the resolved mode) still follows it as the last thing entered.  When the
    display has run, the first byte of the current log record is 0: the
    A17DD-L variant appends that record after the blinks, the Nanjg variant
    (with the lock time within the first 50 ticks, as shipped) gets it from
    the tick handler during the display and also clears the tally in RAM. *)
Theorem battcheck_then_display :
  (forall cfg voltage e,
     0 < LOCKTIME cfg <= 50 ->
     exists r s evs,
       eepLoad_nanjg cfg (power_on e) = Some r /\
       main_nanjg cfg voltage e = Some (s, evs) /\
       ((exists b, In (EvBattCheck b) evs) <-> BATTCHECK cfg <= shortClicks r) /\
       (exists d, last evs = Some d /\ is_display d = true) /\
       (BATTCHECK cfg <= shortClicks r ->
        hd_error evs = Some (EvBattCheck (blinksCount voltage)) /\
        shortClicks s = 0 /\ cells s (eepos s) = 0)) /\
  (forall cfg cap voltage e,
     exists r s evs,
       eepLoad_a17dd cfg cap (power_on e) = Some r /\
       main_a17dd cfg cap voltage e = Some (s, evs) /\
       ((exists b, In (EvBattCheck b) evs) <-> BATTCHECK cfg <= shortClicks r) /\
       (exists d, last evs = Some d /\ is_display d = true) /\
       (BATTCHECK cfg <= shortClicks r ->
        hd_error evs = Some (EvBattCheck (blinksCount voltage)) /\
        cells s (eepos s) = 0)).
Proof.
  assert (Hdisp : forall cfg v, is_display (display_of cfg v) = true).
  { intros cfg v. unfold display_of.
    destruct (_ =? STROBE cfg); [reflexivity|].
    destruct (_ =? PSTROBE cfg); [reflexivity|].
    destruct (_ =? SOS cfg); reflexivity. }
  split.
  - intros cfg voltage e HL.
    destruct (main_nanjg_gesture cfg voltage e HL) as (r & s & evs & H1 & H2 & H3 & H4 & H5).
    exists r, s, evs.
    split; [exact H1|]. split; [exact H2|]. split; [exact H3|].
    split; [|exact H5]. eexists. split; [exact H4|apply Hdisp].
  - intros cfg cap voltage e.
    destruct (main_a17dd_gesture cfg cap voltage e) as (r & s & evs & H1 & H2 & H3 & H4 & H5).
    exists r, s, evs.
    split; [exact H1|]. split; [exact H2|]. split; [exact H3|].
    split; [|exact H5]. eexists. split; [exact H4|apply Hdisp].
Qed.

(** The statement at the sixteenth short click of the shipped Nanjg
    firmware: record (tally 15, short flag, group 0, mode 1) in slot 0. *)
Lemma battcheck_then_display_witness :
  exists r s evs,
    eepLoad_nanjg nanjg_cfg (power_on (single_record 0 0x8f 0x01)) = Some r /\
    main_nanjg nanjg_cfg 165 (single_record 0 0x8f 0x01) = Some (s, evs) /\
    ((exists b, In (EvBattCheck b) evs) <-> BATTCHECK nanjg_cfg <= shortClicks r) /\
    (exists d, last evs = Some d /\ is_display d = true) /\
    (BATTCHECK nanjg_cfg <= shortClicks r ->
     hd_error evs = Some (EvBattCheck (blinksCount 165)) /\
     shortClicks s = 0 /\ cells s (eepos s) = 0).
Proof.
  apply (proj1 battcheck_then_display nanjg_cfg 165 (single_record 0 0x8f 0x01)).
  change (0 < 50 <= 50). lia.
Defined.

(** C5, as stated, fails: at that boot the battery check is shown and the
    normal display of mode 2 (value 128) is entered all the same, so the
    battery check does not run instead of it. *)
Lemma battcheck_not_instead_of_display :
  option_map snd (main_nanjg nanjg_cfg 165 (single_record 0 0x8f 0x01))
    = Some [EvBattCheck 3; EvNormal 128] /\
  ~ (forall evs,
       option_map snd (main_nanjg nanjg_cfg 165 (single_record 0 0x8f 0x01)) = Some evs ->
       (exists b, In (EvBattCheck b) evs) ->
       forall d, In d evs -> is_display d = false).
Proof.
  assert (H : option_map snd (main_nanjg nanjg_cfg 165 (single_record 0 0x8f 0x01))
              = Some [EvBattCheck 3; EvNormal 128]) by (vm_compute; reflexivity).
  split; [exact H|].
  intros Hclaim.
  specialize (Hclaim _ H (ex_intro _ 3 (or_introl eq_refl)) (EvNormal 128)
                (or_intror (or_introl eq_refl))).
  discriminate Hclaim.
Qed.

(** ** The runtime supervisor *)

Lemma stepdown_bounds v :
  6 <= v <= 255 -> 6 <= u8 (Z.shiftr v 1 + 3) <= v.
Proof.
  intros Hv. rewrite (Z.shiftr_div_pow2 v 1) by lia. change (2 ^ 1) with 2.
  pose proof (Z.div_mod v 2 ltac:(lia)).
  pose proof (Z.mod_pos_bound v 2 ltac:(lia)).
  rewrite u8_small; lia.
Qed.

Lemma stepdown_small v :
  0 <= v < 127 -> 0 <= u8 (Z.shiftr v 1 + 3) < 127.
Proof.
  intros Hv. rewrite (Z.shiftr_div_pow2 v 1) by lia. change (2 ^ 1) with 2.
  pose proof (Z.div_mod v 2 ltac:(lia)).
  pose proof (Z.mod_pos_bound v 2 ltac:(lia)).
  rewrite u8_small; lia.
Qed.

(** For the values below 5, which no shipped mode reaches, the same
    assignment raises the value. *)
Lemma stepdown_raises_small v :
  0 <= v <= 4 -> v < u8 (Z.shiftr v 1 + 3).
Proof.
  intros Hv.
  assert (v = 0 \/ v = 1 \/ v = 2 \/ v = 3 \/ v = 4) as [->|[->|[->|[->| ->]]]] by lia;
    vm_compute; reflexivity.
Qed.

Lemma check_battery_low cfg x s :
  x < BATTMON cfg -> 0 <= lowbattCounter s < 255 ->
  check_battery cfg x s =
    if lowbattCounter s + 1 >? 8
    then {| pmode := u8 (Z.shiftr (pmode s) 1 + 3); lowbattCounter := 0;
            turboTicks := turboTicks s |}
    else {| pmode := pmode s; lowbattCounter := lowbattCounter s + 1;
            turboTicks := turboTicks s |}.
Proof.
  intros Hx Hc. unfold check_battery.
  destruct (Z.ltb_spec x (BATTMON cfg)); [|lia].
  rewrite u8_small by lia. reflexivity.
Qed.

Lemma check_battery_ok cfg x s :
  BATTMON cfg <= x ->
  check_battery cfg x s =
    {| pmode := pmode s; lowbattCounter := 0; turboTicks := turboTicks s |}.
Proof.
  intros Hx. unfold check_battery.
  destruct (Z.ltb_spec x (BATTMON cfg)); [lia|reflexivity].
Qed.

Lemma lows_accumulate cfg (lows : list Z) s :
  Forall (fun x => x < BATTMON cfg) lows ->
  0 <= lowbattCounter s ->
  lowbattCounter s + Z.of_nat (length lows) <= 8 ->
  run_nanjg cfg lows s =
    {| pmode := pmode s;
       lowbattCounter := lowbattCounter s + Z.of_nat (length lows);
       turboTicks := turboTicks s |}.
Proof.
  unfold run_nanjg. revert s.
  induction lows as [|x lows IH]; intros s Hlow Hc Hlen.
  - cbn. destruct s; cbn. f_equal. lia.
  - apply Forall_cons in Hlow as [Hx Hlow]. cbn [length] in Hlen.
    cbn [fold_left]. unfold loop_nanjg at 2.
    rewrite check_battery_low by lia.
    destruct (Z.gtb_spec (lowbattCounter s + 1) 8); [lia|].
    rewrite IH; cbn [pmode lowbattCounter turboTicks]; try assumption; try lia.
    f_equal. cbn [length]. lia.
Qed.

Lemma nine_lows_step cfg (lows : list Z) s :
  Forall (fun x => x < BATTMON cfg) lows ->
  lowbattCounter s = 0 ->
  length lows = 9%nat ->
  run_nanjg cfg lows s =
    {| pmode := u8 (Z.shiftr (pmode s) 1 + 3); lowbattCounter := 0;
       turboTicks := turboTicks s |}.
Proof.
  intros Hlow Hc Hlen. revert Hlow Hlen.
  induction lows as [|x front _] using rev_ind; intros Hlow Hlen;
    [discriminate Hlen|].
  rewrite length_app in Hlen. cbn in Hlen.
  apply Forall_app in Hlow as [Hfront Hx]. apply Forall_cons in Hx as [Hx _].
  unfold run_nanjg. rewrite fold_left_app. cbn [fold_left].
  fold (run_nanjg cfg front s).
  rewrite (lows_accumulate cfg front s Hfront) by lia.
  unfold loop_nanjg. rewrite check_battery_low by (cbn; lia).
  cbn [pmode lowbattCounter turboTicks].
  destruct (Z.gtb_spec (lowbattCounter s + Z.of_nat (length front) + 1) 8); [|lia].
  reflexivity.
Qed.

Lemma lookup2_forallb (P : Z -> bool) (tbl : list (list Z)) (i j : nat) x :
  forallb (forallb P) tbl = true ->
  (row ← tbl !! i; row !! j) = Some x -> P x = true.
Proof.
  intros Hall Hx. destruct (tbl !! i) as [row|] eqn:Hrow; [|discriminate Hx].
  cbn in Hx. rewrite forallb_forall in Hall.
  assert (Hr : forallb P row = true).
  { apply Hall. apply list_elem_of_In. eapply list_elem_of_lookup_2. exact Hrow. }
  rewrite forallb_forall in Hr. apply Hr.
  apply list_elem_of_In. eapply list_elem_of_lookup_2. exact Hx.
Qed.

Lemma table_value_min cfg v :
  table_min6 cfg = true -> table_value cfg v -> 6 <= v <= 255.
Proof.
  intros Hmin (g & m & x & Hx & Hnz & ->).
  pose proof (lookup2_forallb _ _ _ _ _ Hmin Hx) as H. cbv beta in H.
  pose proof (u8_range x). apply orb_true_iff in H. lia.
Qed.

Lemma check_battery_pmode cfg x s :
  6 <= pmode s <= 255 ->
  6 <= pmode (check_battery cfg x s) <= pmode s.
Proof.
  intros Hv. pose proof (stepdown_bounds _ Hv). unfold check_battery.
  destruct (x <? BATTMON cfg); [|cbn; lia].
  destruct (_ >? 8); cbn; lia.
Qed.

Lemma turbo_timer_pmode cfg s :
  6 <= pmode s <= 255 ->
  6 <= pmode (turbo_timer cfg s).1 <= pmode s.
Proof.
  intros Hv. unfold turbo_timer.
  destruct (_ <? TURBO_TIMEOUT cfg); [cbn; lia|].
  destruct (Z.eqb_spec (pmode s) 127) as [E|]; cbn [fst pmode]; [|lia].
  rewrite E. change (Z.shiftr 127 1) with 63. lia.
Qed.

Lemma run_nanjg_pmode cfg samples s :
  6 <= pmode s <= 255 ->
  6 <= pmode (run_nanjg cfg samples s) <= pmode s.
Proof.
  unfold run_nanjg. revert s. induction samples as [|x samples IH]; intros s Hv.
  - cbn. lia.
  - cbn [fold_left]. pose proof (check_battery_pmode cfg x s Hv) as H1.
    fold (loop_nanjg cfg x s) in H1.
    pose proof (IH (loop_nanjg cfg x s) ltac:(lia)) as H2. lia.
Qed.

Lemma run_a17dd_pmode cfg samples s :
  6 <= pmode s <= 255 ->
  6 <= pmode (run_a17dd cfg samples s).1 <= pmode s.
Proof.
  revert s. induction samples as [|x samples IH]; intros s Hv.
  - cbn. lia.
  - cbn [run_a17dd]. unfold loop_a17dd.
    pose proof (check_battery_pmode cfg x s Hv) as H1.
    pose proof (turbo_timer_pmode cfg (check_battery cfg x s) ltac:(lia)) as H2.
    destruct (turbo_timer cfg (check_battery cfg x s)) as [s1 fired].
    cbn [fst] in H2. pose proof (IH s1 ltac:(lia)) as H3.
    destruct (run_a17dd cfg samples s1) as [s2 n]. cbn [fst] in *. lia.
Qed.

(** The tick handler of v1.0 steps [mypwm] as the default loop of the
    Nanjg v2.0 variant steps [pmode]. *)
Lemma WDT_vect1_supervisor x s :
  supervisor_of (V1.WDT_vect x s) = loop_nanjg v1_cfg x (supervisor_of s).
Proof.
  unfold V1.WDT_vect, loop_nanjg, V1.check_battery, check_battery, supervisor_of.
  change (BATTMON v1_cfg) with V1.BATTMON.
  destruct (V1.ticks s <? 255); cbn [V1.ticks];
    (destruct (_ =? V1.LOCKTIME); cbn [V1.eepSave V1.lowbattCounter V1.mypwm];
     (destruct (x <? V1.BATTMON); [destruct (_ >? 8)|]; reflexivity)).
Qed.

Lemma run1_supervisor samples s :
  supervisor_of (fold_left (fun s x => V1.WDT_vect x s) samples s)
  = run_nanjg v1_cfg samples (supervisor_of s).
Proof.
  unfold run_nanjg. revert s. induction samples as [|x samples IH]; intros s.
  - reflexivity.
  - cbn [fold_left]. rewrite IH, WDT_vect1_supervisor. reflexivity.
Qed.

Lemma setPWM_fet v : 1 <= v <= 127 -> setPWM v = (2 * v + 1, 0).
Proof.
  intros Hv. unfold setPWM, as_sbyte.
  destruct (Z.ltb_spec v 128); [|lia].
  destruct (Z.gtb_spec v 0); [|lia].
  rewrite Z.shiftl_mul_pow2 by lia. change (2 ^ 1) with 2.
  rewrite u8_small by lia. f_equal. lia.
Qed.

(** C9.  In the default loop, low battery readings are counted; while at
    most eight have come in a row the output value is unchanged, the ninth
    in a row sets it to [(v >> 1) + 3] and clears the counter; a reading at
    or above the threshold clears the counter and leaves the output value
    alone.  The tick handler of v1.0 does the same to [mypwm].  In the Nanjg
    variant and in v1.0 the byte is the PWM duty cycle: every value
    reachable from a non-empty slot of a table whose non-empty slots hold at
    least 6 is at least 6, and for such a value the step never gives a
    larger one.  In the A17DD-L variant the byte goes to [setPWM] as a
    signed value: for the FET codes 6 to 127 the step does not raise the
    FET duty cycle and leaves the AMC channel off, but for the two AMC
    codes of the shipped table the light gets brighter: nine low readings
    take [-3] (the byte 253, AMC duty 7) to [-127] (the byte 129, AMC duty
    255), and nine more take that to 67 (FET duty 135). *)
Theorem low_battery_ratchet :
  (forall cfg lows s,
     Forall (fun x => x < BATTMON cfg) lows ->
     lowbattCounter s = 0 ->
     (length lows <= 8)%nat ->
     run_nanjg cfg lows s =
       {| pmode := pmode s; lowbattCounter := Z.of_nat (length lows);
          turboTicks := turboTicks s |}) /\
  (forall cfg lows s,
     Forall (fun x => x < BATTMON cfg) lows ->
     lowbattCounter s = 0 ->
     length lows = 9%nat ->
     run_nanjg cfg lows s =
       {| pmode := u8 (Z.shiftr (pmode s) 1 + 3); lowbattCounter := 0;
          turboTicks := turboTicks s |}) /\
  (forall cfg x s,
     BATTMON cfg <= x ->
     check_battery cfg x s =
       {| pmode := pmode s; lowbattCounter := 0; turboTicks := turboTicks s |}) /\
  (forall cfg x s, loop_a17dd cfg x s = turbo_timer cfg (loop_nanjg cfg x s)) /\
  (forall samples s,
     supervisor_of (fold_left (fun s x => V1.WDT_vect x s) samples s)
     = run_nanjg v1_cfg samples (supervisor_of s)) /\
  (forall cfg v,
     table_min6 cfg = true ->
     reachable_nanjg cfg v ->
     6 <= v /\ u8 (Z.shiftr v 1 + 3) <= v) /\
  (forall v, reachable_v1 v -> 6 <= v /\ u8 (Z.shiftr v 1 + 3) <= v) /\
  (forall v,
     6 <= v <= 127 ->
     let v' := u8 (Z.shiftr v 1 + 3) in
     (setPWM v).2 = 0 /\ (setPWM v').2 = 0 /\ (setPWM v').1 <= (setPWM v).1) /\
  (table_value a17dd_cfg 253 /\ table_value a17dd_cfg 129 /\
   run_a17dd a17dd_cfg (repeat 100 9)
     {| pmode := 253; lowbattCounter := 0; turboTicks := 0 |}
   = ({| pmode := 129; lowbattCounter := 0; turboTicks := 9 |}, O) /\
   run_a17dd a17dd_cfg (repeat 100 9)
     {| pmode := 129; lowbattCounter := 0; turboTicks := 9 |}
   = ({| pmode := 67; lowbattCounter := 0; turboTicks := 18 |}, O) /\
   setPWM 253 = (0, 7) /\ setPWM 129 = (0, 255) /\ setPWM 67 = (135, 0)).
Proof.
  repeat apply conj.
  - intros cfg lows s Hlow Hc Hlen.
    rewrite (lows_accumulate cfg lows s Hlow) by lia. rewrite Hc. reflexivity.
  - apply nine_lows_step.
  - apply check_battery_ok.
  - reflexivity.
  - apply run1_supervisor.
  - intros cfg v Hmin (v0 & samples & Hv0 & <-).
    pose proof (table_value_min cfg v0 Hmin Hv0) as H0.
    pose proof (run_nanjg_pmode cfg samples
                  {| pmode := v0; lowbattCounter := 0; turboTicks := 0 |} H0) as H1.
    cbn [pmode] in H1. split; [lia|]. apply stepdown_bounds. lia.
  - intros v (g & m & x & samples & s0 & Hx & Hnz & Hs0 & <-).
    assert (H0 : 6 <= pmode (supervisor_of s0) <= 255).
    { cbn [supervisor_of pmode]. rewrite Hs0.
      apply (table_value_min v1_cfg); [reflexivity|].
      exists g, m, x. repeat split; assumption. }
    pose proof (run_nanjg_pmode v1_cfg samples (supervisor_of s0) H0) as H1.
    rewrite <- run1_supervisor in H1. cbn [supervisor_of pmode] in H1.
    split; [lia|]. apply stepdown_bounds. cbn [supervisor_of pmode] in H0. lia.
  - intros v Hv v'. subst v'. pose proof (stepdown_bounds v ltac:(lia)) as Hb.
    rewrite !setPWM_fet by lia. cbn [fst snd]. repeat split; lia.
  - exists 0, 0, (-3). repeat split. discriminate.
  - exists 0, 1, (-127). repeat split. discriminate.
  - reflexivity.
  - reflexivity.
  - reflexivity.
  - reflexivity.
  - reflexivity.
Qed.

(** The statement for the nine low readings that take the shipped Nanjg
    firmware from its top mode 255 to 130. *)
Lemma low_battery_ratchet_witness :
  run_nanjg nanjg_cfg [100; 100; 100; 100; 100; 100; 100; 100; 100]
    {| pmode := 255; lowbattCounter := 0; turboTicks := 0 |}
  = {| pmode := 130; lowbattCounter := 0; turboTicks := 0 |}.
Proof.
  apply (proj1 (proj2 low_battery_ratchet) nanjg_cfg
           [100; 100; 100; 100; 100; 100; 100; 100; 100]
           {| pmode := 255; lowbattCounter := 0; turboTicks := 0 |}).
  - repeat constructor.
  - reflexivity.
  - reflexivity.
Defined.

(** *** The turbo timer *)

Lemma check_battery_below cfg x s :
  0 <= pmode s < 127 -> 0 <= pmode (check_battery cfg x s) < 127.
Proof.
  intros Hv. pose proof (stepdown_small _ Hv). unfold check_battery.
  destruct (x <? BATTMON cfg); [|cbn; lia].
  destruct (_ >? 8); cbn; lia.
Qed.

Lemma no_turbo_below cfg samples s :
  0 <= pmode s < 127 -> (run_a17dd cfg samples s).2 = O.
Proof.
  revert s. induction samples as [|x samples IH]; intros s Hv; [reflexivity|].
  cbn [run_a17dd]. unfold loop_a17dd.
  pose proof (check_battery_below cfg x s Hv) as H1.
  unfold turbo_timer.
  destruct (_ <? TURBO_TIMEOUT cfg).
  - specialize (IH {| pmode := pmode (check_battery cfg x s);
                      lowbattCounter := lowbattCounter (check_battery cfg x s);
                      turboTicks := u8 (turboTicks (check_battery cfg x s) + 1) |} H1).
    destruct (run_a17dd cfg samples _) as [s2 n]. cbn in *. lia.
  - destruct (Z.eqb_spec (pmode (check_battery cfg x s)) 127); [lia|].
    specialize (IH _ H1). destruct (run_a17dd cfg samples _) as [s2 k]. cbn in *. lia.
Qed.

Lemma turbo_one_shot cfg samples s : ((run_a17dd cfg samples s).2 <= 1)%nat.
Proof.
  revert s. induction samples as [|x samples IH]; intros s; [cbn; lia|].
  cbn [run_a17dd]. unfold loop_a17dd, turbo_timer.
  destruct (_ <? TURBO_TIMEOUT cfg).
  - specialize (IH {| pmode := pmode (check_battery cfg x s);
                      lowbattCounter := lowbattCounter (check_battery cfg x s);
                      turboTicks := u8 (turboTicks (check_battery cfg x s) + 1) |}).
    destruct (run_a17dd cfg samples _) as [s2 n]. cbn in *. lia.
  - destruct (Z.eqb_spec (pmode (check_battery cfg x s)) 127) as [E|NE].
    + pose proof (no_turbo_below cfg samples
                    {| pmode := Z.shiftr (pmode (check_battery cfg x s)) 1;
                       lowbattCounter := lowbattCounter (check_battery cfg x s);
                       turboTicks := turboTicks (check_battery cfg x s) |}) as H.
      cbn [pmode] in H.
      assert (Hb : 0 <= Z.shiftr (pmode (check_battery cfg x s)) 1 < 127)
        by (rewrite E; change (Z.shiftr 127 1) with 63; lia).
      specialize (H Hb).
      destruct (run_a17dd cfg samples _) as [s2 n]. cbn in *. lia.
    + specialize (IH (check_battery cfg x s)).
      destruct (run_a17dd cfg samples _) as [s2 n]. cbn in *. lia.
Qed.

Lemma run_nanjg_below cfg samples s :
  0 <= pmode s < 127 -> 0 <= pmode (run_nanjg cfg samples s) < 127.
Proof.
  unfold run_nanjg. revert s. induction samples as [|x samples IH]; intros s Hv.
  - exact Hv.
  - cbn [fold_left]. apply IH. unfold loop_nanjg. apply check_battery_below. exact Hv.
Qed.

Lemma run_a17dd_app cfg l1 l2 s :
  run_a17dd cfg (l1 ++ l2) s
  = let r1 := run_a17dd cfg l1 s in
    let r2 := run_a17dd cfg l2 r1.1 in
    (r2.1, (r1.2 + r2.2)%nat).
Proof.
  revert s. induction l1 as [|x l1 IH]; intros s.
  - cbn. destruct (run_a17dd cfg l2 s); reflexivity.
  - cbn [app run_a17dd]. destruct (loop_a17dd cfg x s) as [s1 fired].
    rewrite IH. cbv zeta. destruct (run_a17dd cfg l1 s1) as [s2 n]. cbn [fst snd].
    destruct (run_a17dd cfg l2 s2) as [s3 k]. cbn [fst snd]. f_equal. lia.
Qed.

Lemma turbo_ticks_stay cfg samples s :
  turboTicks s = TURBO_TIMEOUT cfg ->
  turboTicks (run_a17dd cfg samples s).1 = TURBO_TIMEOUT cfg.
Proof.
  revert s. induction samples as [|x samples IH]; intros s Ht; [exact Ht|].
  cbn [run_a17dd]. unfold loop_a17dd.
  assert (Hc : turboTicks (check_battery cfg x s) = TURBO_TIMEOUT cfg).
  { unfold check_battery. destruct (x <? BATTMON cfg); [destruct (_ >? 8)|]; exact Ht. }
  unfold turbo_timer. rewrite Hc, Z.ltb_irrefl.
  destruct (pmode (check_battery cfg x s) =? 127).
  - specialize (IH {| pmode := Z.shiftr (pmode (check_battery cfg x s)) 1;
                      lowbattCounter := lowbattCounter (check_battery cfg x s);
                      turboTicks := TURBO_TIMEOUT cfg |} eq_refl).
    destruct (run_a17dd cfg samples _) as [s2 n]. exact IH.
  - specialize (IH _ Hc). destruct (run_a17dd cfg samples _) as [s2 n]. exact IH.
Qed.

(** One battery check on two states that agree on the debounce counter:
    either the low-voltage step fires on both, or both keep their output
    value and leave with the same counter. *)
Lemma check_battery_twin cfg x v w c t t0 :
  (pmode (check_battery cfg x {| pmode := v; lowbattCounter := c; turboTicks := t0 |})
   = u8 (Z.shiftr v 1 + 3) /\
   check_battery cfg x {| pmode := v; lowbattCounter := c; turboTicks := t0 |}
   = {| pmode := u8 (Z.shiftr v 1 + 3); lowbattCounter := 0; turboTicks := t0 |} /\
   x < BATTMON cfg /\ u8 (c + 1) > 8) \/
  (exists c1,
     check_battery cfg x {| pmode := v; lowbattCounter := c; turboTicks := t0 |}
     = {| pmode := v; lowbattCounter := c1; turboTicks := t0 |} /\
     check_battery cfg x {| pmode := w; lowbattCounter := c; turboTicks := t |}
     = {| pmode := w; lowbattCounter := c1; turboTicks := t |}).
Proof.
  unfold check_battery. cbn [pmode lowbattCounter turboTicks].
  destruct (Z.ltb_spec x (BATTMON cfg)).
  - destruct (Z.gtb_spec (u8 (c + 1)) 8).
    + left. repeat split; [assumption|lia].
    + right. eexists. split; reflexivity.
  - right. eexists. split; reflexivity.
Qed.

(** While the low-voltage step does not fire, a state past its turbo step
    stays as it is. *)
Lemma run_after_turbo cfg samples c t0 :
  pmode (run_nanjg cfg samples
           {| pmode := 127; lowbattCounter := c; turboTicks := t0 |}) = 127 ->
  exists c',
    run_a17dd cfg samples
      {| pmode := 63; lowbattCounter := c; turboTicks := TURBO_TIMEOUT cfg |}
    = ({| pmode := 63; lowbattCounter := c'; turboTicks := TURBO_TIMEOUT cfg |}, O).
Proof.
  revert c. induction samples as [|x samples IH]; intros c Hkeep.
  - exists c. reflexivity.
  - unfold run_nanjg in Hkeep. cbn [fold_left] in Hkeep. unfold loop_nanjg at 2 in Hkeep.
    fold (run_nanjg cfg samples
            (check_battery cfg x {| pmode := 127; lowbattCounter := c; turboTicks := t0 |}))
      in Hkeep.
    destruct (check_battery_twin cfg x 127 63 c (TURBO_TIMEOUT cfg) t0)
      as [(_ & Hfire & _)|(c1 & H1 & H2)].
    + rewrite Hfire in Hkeep. change (u8 (Z.shiftr 127 1 + 3)) with 66 in Hkeep.
      pose proof (run_nanjg_below cfg samples
                    {| pmode := 66; lowbattCounter := 0; turboTicks := t0 |}
                    ltac:(cbn [pmode]; lia)) as Hb.
      lia.
    + rewrite H1 in Hkeep. cbn [run_a17dd]. unfold loop_a17dd. rewrite H2.
      unfold turbo_timer. cbn [pmode lowbattCounter turboTicks].
      rewrite Z.ltb_irrefl. change (63 =? 127) with false. cbn iota.
      destruct (IH c1 Hkeep) as [c' ->]. exists c'. reflexivity.
Qed.

Lemma run_turbo cfg samples c t t0 :
  0 <= t <= TURBO_TIMEOUT cfg -> TURBO_TIMEOUT cfg < 256 ->
  pmode (run_nanjg cfg samples
           {| pmode := 127; lowbattCounter := c; turboTicks := t0 |}) = 127 ->
  exists c',
    run_a17dd cfg samples {| pmode := 127; lowbattCounter := c; turboTicks := t |}
    = if t + Z.of_nat (length samples) <=? TURBO_TIMEOUT cfg
      then ({| pmode := 127; lowbattCounter := c';
               turboTicks := t + Z.of_nat (length samples) |}, O)
      else ({| pmode := 63; lowbattCounter := c';
               turboTicks := TURBO_TIMEOUT cfg |}, 1%nat).
Proof.
  intros Ht HT. revert c t Ht. induction samples as [|x samples IH]; intros c t Ht Hkeep.
  - exists c. cbn [run_a17dd length].
    destruct (Z.leb_spec (t + Z.of_nat 0) (TURBO_TIMEOUT cfg)); [|lia].
    repeat f_equal. lia.
  - unfold run_nanjg in Hkeep. cbn [fold_left] in Hkeep. unfold loop_nanjg at 2 in Hkeep.
    fold (run_nanjg cfg samples
            (check_battery cfg x {| pmode := 127; lowbattCounter := c; turboTicks := t0 |}))
      in Hkeep.
    destruct (check_battery_twin cfg x 127 127 c t t0)
      as [(_ & Hfire & _)|(c1 & H1 & H2)].
    + rewrite Hfire in Hkeep. change (u8 (Z.shiftr 127 1 + 3)) with 66 in Hkeep.
      pose proof (run_nanjg_below cfg samples
                    {| pmode := 66; lowbattCounter := 0; turboTicks := t0 |}
                    ltac:(cbn [pmode]; lia)) as Hb.
      lia.
    + rewrite H1 in Hkeep. cbn [run_a17dd length]. unfold loop_a17dd. rewrite H2.
      unfold turbo_timer. cbn [pmode lowbattCounter turboTicks].
      destruct (Z.ltb_spec t (TURBO_TIMEOUT cfg)).
      * rewrite u8_small by lia.
        destruct (IH c1 (t + 1) ltac:(lia) Hkeep) as [c' ->]. exists c'.
        replace (t + 1 + Z.of_nat (length samples))
          with (t + Z.of_nat (S (length samples))) by lia.
        destruct (_ <=? TURBO_TIMEOUT cfg); reflexivity.
      * change (127 =? 127) with true. cbn iota. change (Z.shiftr 127 1) with 63.
        assert (t = TURBO_TIMEOUT cfg) as -> by lia.
        destruct (run_after_turbo cfg samples c1 t0 Hkeep) as [c' ->]. exists c'.
        destruct (Z.leb_spec (TURBO_TIMEOUT cfg + Z.of_nat (S (length samples)))
                    (TURBO_TIMEOUT cfg)); [lia|reflexivity].
Qed.

(** C8.  The turbo step-down of the A17DD-L default loop
    ([pmode = pmode >> 1] at [pmode == 127]).  In any run, whatever the
    battery readings and the starting state, it is executed at most once,
    and never while the output is below the maximum-brightness code.  In
    any single iteration that finds the timer expired it is executed
    exactly when the output, after the battery check of that iteration,
    is still 127; an iteration that finds the timer running does not
    step.  Hence, for a loop entered at 127 with the timer at 0 and any
    battery readings that do not trigger the low-voltage step during the
    first [TURBO_TIMEOUT + 1] iterations: the output is 127 for the first
    [TURBO_TIMEOUT] iterations, iteration [TURBO_TIMEOUT + 1] makes it 63,
    and however long the run goes on the step has been executed exactly
    once, the timer stays at [TURBO_TIMEOUT] and the output stays at or
    below 63. *)
Theorem turbo_steps_down_once :
  (forall cfg samples s, ((run_a17dd cfg samples s).2 <= 1)%nat) /\
  (forall cfg samples s,
     0 <= pmode s < 127 -> (run_a17dd cfg samples s).2 = O) /\
  (forall cfg x s,
     let b := check_battery cfg x s in
     (TURBO_TIMEOUT cfg <= turboTicks s ->
      loop_a17dd cfg x s =
        if pmode b =? 127
        then ({| pmode := 63; lowbattCounter := lowbattCounter b;
                 turboTicks := turboTicks s |}, true)
        else (b, false)) /\
     (turboTicks s < TURBO_TIMEOUT cfg ->
      (loop_a17dd cfg x s).2 = false /\
      pmode (loop_a17dd cfg x s).1 = pmode b)) /\
  (forall cfg samples c,
     0 <= TURBO_TIMEOUT cfg < 256 ->
     let s0 := {| pmode := 127; lowbattCounter := c; turboTicks := 0 |} in
     let first := take (Z.to_nat (TURBO_TIMEOUT cfg + 1)) samples in
     pmode (run_nanjg cfg first s0) = 127 ->
     let r := run_a17dd cfg samples s0 in
     if Z.of_nat (length samples) <=? TURBO_TIMEOUT cfg
     then pmode r.1 = 127 /\ r.2 = O /\
          turboTicks r.1 = Z.of_nat (length samples)
     else pmode (run_a17dd cfg first s0).1 = 63 /\
          r.2 = 1%nat /\
          turboTicks r.1 = TURBO_TIMEOUT cfg /\
          pmode r.1 <= 63).
Proof.
  split; [apply turbo_one_shot|]. split; [apply no_turbo_below|]. split.
  - intros cfg x s b. subst b.
    assert (Hc : turboTicks (check_battery cfg x s) = turboTicks s).
    { unfold check_battery. destruct (x <? BATTMON cfg); [destruct (_ >? 8)|];
        reflexivity. }
    split.
    + intros Ht. unfold loop_a17dd, turbo_timer. rewrite Hc.
      destruct (Z.ltb_spec (turboTicks s) (TURBO_TIMEOUT cfg)); [lia|].
      destruct (Z.eqb_spec (pmode (check_battery cfg x s)) 127) as [E|NE];
        [|reflexivity].
      rewrite E. reflexivity.
    + intros Ht. unfold loop_a17dd, turbo_timer. rewrite Hc.
      destruct (Z.ltb_spec (turboTicks s) (TURBO_TIMEOUT cfg)); [|lia].
      split; reflexivity.
  - intros cfg samples c HT s0 first Hkeep r.
    destruct (Z.leb_spec (Z.of_nat (length samples)) (TURBO_TIMEOUT cfg)) as [Hle|Hgt].
    + assert (Hfirst : first = samples) by (apply take_ge; lia).
      rewrite Hfirst in Hkeep.
      destruct (run_turbo cfg samples c 0 0 ltac:(lia) ltac:(lia) Hkeep) as [c' Hr].
      fold s0 in Hr. fold r in Hr. rewrite Z.add_0_l in Hr.
      destruct (Z.leb_spec (Z.of_nat (length samples)) (TURBO_TIMEOUT cfg)); [|lia].
      rewrite Hr. repeat split.
    + assert (Hlen : length first = Z.to_nat (TURBO_TIMEOUT cfg + 1))
        by (subst first; rewrite length_take; lia).
      destruct (run_turbo cfg first c 0 0 ltac:(lia) ltac:(lia) Hkeep) as [c' Hr].
      fold s0 in Hr. rewrite Z.add_0_l in Hr.
      destruct (Z.leb_spec (Z.of_nat (length first)) (TURBO_TIMEOUT cfg)); [lia|].
      assert (Hsplit : r = run_a17dd cfg (first ++ drop (Z.to_nat (TURBO_TIMEOUT cfg + 1)) samples) s0)
        by (subst r first; rewrite take_drop; reflexivity).
      rewrite run_a17dd_app, Hr in Hsplit. cbv zeta in Hsplit. cbn [fst snd] in Hsplit.
      set (rest := drop (Z.to_nat (TURBO_TIMEOUT cfg + 1)) samples) in *.
      set (s1 := {| pmode := 63; lowbattCounter := c'; turboTicks := TURBO_TIMEOUT cfg |}) in *.
      pose proof (no_turbo_below cfg rest s1 ltac:(cbn; lia)) as Hno.
      pose proof (turbo_ticks_stay cfg rest s1 eq_refl) as Hticks.
      pose proof (run_a17dd_pmode cfg rest s1 ltac:(cbn; lia)) as Hpm.
      cbn [pmode s1] in Hpm.
      rewrite Hr, Hsplit, Hno. cbn [fst snd]. repeat split; [exact Hticks|lia].
Qed.

(** The statement for the shipped A17DD-L firmware on a battery that
    reads low twice out of three times, for 63 iterations: the low-voltage
    step never fires and the turbo step is taken at iteration 61. *)
Lemma turbo_steps_down_once_witness :
  pmode (run_a17dd a17dd_cfg (take 61 (concat (repeat [100; 100; 200] 21)))
           {| pmode := 127; lowbattCounter := 0; turboTicks := 0 |}).1 = 63 /\
  (run_a17dd a17dd_cfg (concat (repeat [100; 100; 200] 21))
     {| pmode := 127; lowbattCounter := 0; turboTicks := 0 |}).2 = 1%nat.
Proof.
  pose proof (proj2 (proj2 (proj2 turbo_steps_down_once)) a17dd_cfg
                (concat (repeat [100; 100; 200] 21)) 0
                ltac:(change (0 <= 60 < 256); lia) eq_refl) as H.
  cbv zeta in H.
  change (Z.of_nat (length (concat (repeat [100; 100; 200] 21)))
          <=? TURBO_TIMEOUT a17dd_cfg) with false in H.
  cbv iota in H. destruct H as (H1 & H2 & _). split; [exact H1|exact H2].
Defined.


(** * Further properties of the firmware *)

(** ** Display helpers *)

(** X1.  The number of blinks of the battery display is between 1 and 4
    and never decreases when the battery reading rises. *)
Theorem blinksCount_monotone (v w : Z) :
  1 <= blinksCount v <= 4 /\ (v <= w -> blinksCount v <= blinksCount w).
Proof.
  unfold blinksCount.
  destruct (Z.geb_spec v 170), (Z.geb_spec v 160), (Z.geb_spec v 145),
           (Z.geb_spec w 170), (Z.geb_spec w 160), (Z.geb_spec w 145); lia.
Qed.

(** The statement for the readings 150 and 165. *)
Lemma blinksCount_monotone_witness : blinksCount 150 <= blinksCount 165.
Proof. apply (blinksCount_monotone 150 165). lia. Defined.

Lemma setPWM_checked :
  forallb (fun v =>
     let '(fet, amc) := setPWM v in
     ((fet =? 0) || (amc =? 0)) &&
     (0 <=? fet) && (fet <=? 255) && (0 <=? amc) && (amc <=? 255) &&
     eqb ((fet =? 0) && (amc =? 0)) (v =? 0) &&
     (if (1 <=? v) && (v <=? 127) then (fet =? 2 * v + 1) && (amc =? 0) else true) &&
     (if (129 <=? v) && (v <=? 255) then (amc =? 2 * (256 - v) + 1) && (fet =? 0) else true) &&
     (if v =? 128 then (amc =? 1) && (fet =? 0) else true))
    (below 256) = true.
Proof. vm_compute. reflexivity. Qed.

(** X2.  [setPWM] of the A17DD-L variant never drives both channels: for
    every byte at least one duty cycle is 0, both are 0 only for the value
    0, a positive value [v] gives [2v + 1] on the FET, a negative value
    [-n] (the byte [256 - n], [n] up to 127) gives [2n + 1] on the AMC
    channel, and [-128] wraps to the duty cycle 1. *)
Theorem setPWM_one_channel (v : Z) :
  0 <= v < 256 ->
  let '(fet, amc) := setPWM v in
  (fet = 0 \/ amc = 0) /\
  0 <= fet <= 255 /\ 0 <= amc <= 255 /\
  (fet = 0 /\ amc = 0 <-> v = 0) /\
  (1 <= v <= 127 -> fet = 2 * v + 1 /\ amc = 0) /\
  (129 <= v <= 255 -> amc = 2 * (256 - v) + 1 /\ fet = 0) /\
  (v = 128 -> amc = 1 /\ fet = 0).
Proof.
  intros Hv. pose proof (forallb_below _ _ setPWM_checked v Hv) as H.
  cbv beta in H. destruct (setPWM v) as [fet amc].
  rewrite !andb_true_iff in H.
  destruct H as [[[[[[[[H1 H2] H3] H4] H5] H6] H7] H8] H9].
  apply orb_true_iff in H1. apply eqb_prop in H6.
  assert (E0 : fet = 0 /\ amc = 0 <-> v = 0).
  { destruct (Z.eqb_spec fet 0), (Z.eqb_spec amc 0), (Z.eqb_spec v 0);
      cbn in H6; try discriminate H6; lia. }
  split; [lia|]. split; [lia|]. split; [lia|]. split; [exact E0|].
  split; [|split].
  - intros Hr. replace ((1 <=? v) && (v <=? 127)) with true in H7
      by (symmetry; apply andb_true_iff; lia).
    apply andb_true_iff in H7. lia.
  - intros Hr. replace ((129 <=? v) && (v <=? 255)) with true in H8
      by (symmetry; apply andb_true_iff; lia).
    apply andb_true_iff in H8. lia.
  - intros ->. cbn in H9. apply andb_true_iff in H9. lia.
Qed.

(** The statement at the byte 253, the lowest shipped mode [-3]. *)
Lemma setPWM_one_channel_witness :
  let '(fet, amc) := setPWM 253 in
  (fet = 0 \/ amc = 0) /\
  0 <= fet <= 255 /\ 0 <= amc <= 255 /\
  (fet = 0 /\ amc = 0 <-> 253 = 0) /\
  (1 <= 253 <= 127 -> fet = 2 * 253 + 1 /\ amc = 0) /\
  (129 <= 253 <= 255 -> amc = 2 * (256 - 253) + 1 /\ fet = 0) /\
  (253 = 128 -> amc = 1 /\ fet = 0).
Proof. apply (setPWM_one_channel 253). lia. Defined.

(** ** The log stays aligned and inside its region *)

(** X3.  While the write position is one of the sixteen even slots,
    [eepSave] touches only addresses 0 to 31 and leaves the write position
    on an even slot again; it never writes the cells of the slot it
    erases, and never erases the cells it has just written. *)
Theorem eepSave_stays_in_region (s : Machine) (c g m : Z) :
  In (eepos s) slots ->
  (forall op, In op (eepSave_ops (eepos s) c g m) -> 0 <= op_addr op <= 31) /\
  In (eepos (eepSave c g m s)) slots /\
  (forall a d b, In (EeWrite a d) (eepSave_ops (eepos s) c g m) ->
                 In (EeErase b) (eepSave_ops (eepos s) c g m) -> a <> b).
Proof.
  intros Hslot. pose proof Hslot as Hs'. apply In_slots in Hs'.
  destruct (next_slot (eepos s) Hs') as [[Hle Hq]|[Hp Hq]];
    unfold eepSave_ops; cbn [eepSave eepos]; rewrite next_eepos_mod, Hq.
  - split; [|split].
    + intros op [<-|[<-|[<-|[<-|[]]]]]; cbn; lia.
    + apply In_slots. split; [lia|].
      replace (eepos s + 2) with (eepos s + 1 * 2) by lia.
      rewrite Z.mod_add by lia. tauto.
    + intros a d b [H|[H|[H|[H|[]]]]] [H'|[H'|[H'|[H'|[]]]]];
        inversion H; inversion H'; subst; lia.
  - split; [|split].
    + intros op [<-|[<-|[<-|[<-|[]]]]]; cbn; lia.
    + left. reflexivity.
    + intros a d b [H|[H|[H|[H|[]]]]] [H'|[H'|[H'|[H'|[]]]]];
        inversion H; inversion H'; subst; lia.
Qed.

(** The statement at the machine [cut_example], whose position is slot 0. *)
Lemma eepSave_stays_in_region_witness :
  In (eepos (eepSave 0x81 0 2 cut_example)) slots.
Proof.
  apply (eepSave_stays_in_region cut_example 0x81 0 2). left. reflexivity.
Defined.

(** ** The low-voltage ratchet bottoms out *)

Lemma stepdown_floor_checked :
  forallb (fun v =>
     if 6 <=? v then
       (Nat.iter 8 stepdown v =? 6) &&
       ((v =? 6) || (stepdown v <? v)) && (6 <=? stepdown v)
     else true) (below 256) = true.
Proof. vm_compute. reflexivity. Qed.

Lemma run_nanjg_app cfg xs ys s :
  run_nanjg cfg (xs ++ ys) s = run_nanjg cfg ys (run_nanjg cfg xs s).
Proof. unfold run_nanjg. apply fold_left_app. Qed.

Lemma lows_in_rounds cfg (k : nat) :
  forall (lows : list Z) s,
    Forall (fun x => x < BATTMON cfg) lows ->
    lowbattCounter s = 0 ->
    length lows = (9 * k)%nat ->
    run_nanjg cfg lows s =
      {| pmode := Nat.iter k stepdown (pmode s); lowbattCounter := 0;
         turboTicks := turboTicks s |}.
Proof.
  induction k as [|k IH]; intros lows s Hlow Hc Hlen.
  - destruct lows; [|discriminate Hlen]. destruct s; cbn in *. subst. reflexivity.
  - assert (Hl1 : length (take 9 lows) = 9%nat) by (rewrite length_take; lia).
    assert (Hl2 : length (drop 9 lows) = (9 * k)%nat) by (rewrite length_drop; lia).
    assert (H1 : Forall (fun x => x < BATTMON cfg) (take 9 lows))
      by (apply Forall_take; exact Hlow).
    assert (H2 : Forall (fun x => x < BATTMON cfg) (drop 9 lows))
      by (apply Forall_drop; exact Hlow).
    rewrite <- (take_drop 9 lows) at 1.
    rewrite run_nanjg_app, (nine_lows_step cfg _ s H1 Hc Hl1).
    rewrite (IH (drop 9 lows) _ H2); [|reflexivity|exact Hl2].
    cbn [pmode lowbattCounter turboTicks]. fold (stepdown (pmode s)).
    rewrite Nat.iter_succ_r. reflexivity.
Qed.

Lemma lows_any_length cfg (lows : list Z) s :
  Forall (fun x => x < BATTMON cfg) lows ->
  lowbattCounter s = 0 ->
  run_nanjg cfg lows s =
    {| pmode := Nat.iter (length lows / 9) stepdown (pmode s);
       lowbattCounter := Z.of_nat (length lows mod 9);
       turboTicks := turboTicks s |}.
Proof.
  intros Hlow Hc.
  set (k := (length lows / 9)%nat).
  pose proof (Nat.div_mod_eq (length lows) 9) as Hdm. fold k in Hdm.
  pose proof (Nat.mod_upper_bound (length lows) 9 ltac:(lia)) as Hr.
  assert (Hl1 : length (take (9 * k) lows) = (9 * k)%nat) by (rewrite length_take; lia).
  assert (Hl2 : length (drop (9 * k) lows) = (length lows mod 9)%nat)
    by (rewrite length_drop; lia).
  assert (H1 : Forall (fun x => x < BATTMON cfg) (take (9 * k) lows))
    by (apply Forall_take; exact Hlow).
  assert (H2 : Forall (fun x => x < BATTMON cfg) (drop (9 * k) lows))
    by (apply Forall_drop; exact Hlow).
  rewrite <- (take_drop (9 * k) lows) at 1.
  rewrite run_nanjg_app, (lows_in_rounds cfg k _ s H1 Hc Hl1).
  rewrite (lows_accumulate cfg _ _ H2); cbn [pmode lowbattCounter turboTicks]; [|lia|lia].
  rewrite Hl2. reflexivity.
Qed.

(** X4.  The floor of the low-voltage step-down in the Nanjg variant,
    where the byte [pmode] is the PWM duty cycle.  The step strictly
    lowers every byte above 6 and leaves 6 where it is, so the light is
    dimmed but never switched off.  In the default loop entered with any
    byte of 6 or more, [n] low readings in a row step the output
    [n / 9] times and leave the debounce counter at [n mod 9]; the output
    never rises, and from 72 low readings on it is 6. *)
Theorem low_battery_floor :
  (forall v, 6 <= v <= 255 ->
     stepdown 6 = 6 /\ (6 < v -> 6 <= stepdown v < v)) /\
  (forall cfg lows s,
     Forall (fun x => x < BATTMON cfg) lows ->
     lowbattCounter s = 0 ->
     6 <= pmode s <= 255 ->
     run_nanjg cfg lows s =
       {| pmode := Nat.iter (length lows / 9) stepdown (pmode s);
          lowbattCounter := Z.of_nat (length lows mod 9);
          turboTicks := turboTicks s |} /\
     6 <= pmode (run_nanjg cfg lows s) <= pmode s /\
     ((72 <= length lows)%nat -> pmode (run_nanjg cfg lows s) = 6)).
Proof.
  assert (Hstep : forall v, 6 <= v <= 255 ->
            Nat.iter 8 stepdown v = 6 /\ (v = 6 \/ stepdown v < v) /\ 6 <= stepdown v).
  { intros v Hv. pose proof (forallb_below _ _ stepdown_floor_checked v ltac:(lia)) as H.
    cbv beta in H. destruct (Z.leb_spec 6 v); [|lia].
    rewrite !andb_true_iff, orb_true_iff in H. lia. }
  split.
  - intros v Hv. split; [reflexivity|]. intros Hgt.
    destruct (Hstep v Hv) as (_ & H & H'). lia.
  - intros cfg lows s Hlow Hc Hv.
    split; [apply lows_any_length; assumption|].
    split; [apply run_nanjg_pmode; exact Hv|].
    intros Hn. rewrite (lows_any_length cfg lows s Hlow Hc). cbn [pmode].
    pose proof (Nat.div_mod_eq (length lows) 9) as Hdm.
    pose proof (Nat.mod_upper_bound (length lows) 9 ltac:(lia)) as Hr.
    set (k := (length lows / 9)%nat) in *.
    replace k with ((k - 8) + 8)%nat by lia. rewrite Nat.iter_add.
    destruct (Hstep (pmode s) Hv) as (-> & _).
    clear. induction (k - 8)%nat as [|j IH]; [reflexivity|].
    rewrite Nat.iter_succ, IH. reflexivity.
Qed.

(** The statement for 75 low readings from the top mode 255 of the
    shipped Nanjg firmware. *)
Lemma low_battery_floor_witness :
  pmode (run_nanjg nanjg_cfg (repeat 100 75)
           {| pmode := 255; lowbattCounter := 0; turboTicks := 0 |}) = 6.
Proof.
  assert (Hlow : Forall (fun x => x < BATTMON nanjg_cfg) (repeat 100 75)).
  { generalize 75%nat. intros n. induction n as [|n IH]; constructor; [|exact IH].
    change (100 < 125). lia. }
  apply (proj2 (proj2 (proj2 low_battery_floor nanjg_cfg (repeat 100 75)
                  {| pmode := 255; lowbattCounter := 0; turboTicks := 0 |}
                  Hlow eq_refl ltac:(cbn; lia)))).
  rewrite repeat_length. lia.
Defined.

(** ** The lock-in of the Nanjg tick handler *)

Lemma WDT_ticks_saturate cfg s (n : nat) :
  ticks s = 0 -> ticks (Nat.iter n (WDT_vect cfg) s) = Z.min (Z.of_nat n) 255.
Proof.
  intros Ht. induction n as [|n IH]; [cbn; lia|].
  rewrite Nat.iter_succ. unfold WDT_vect at 1.
  destruct (Z.ltb_spec (ticks (Nat.iter n (WDT_vect cfg) s)) 255) as [Hlt|Hge].
  - cbn [ticks set_ticks].
    destruct (_ =? LOCKTIME cfg); [destruct (memory cfg)|]; cbn [eepSave ticks set_ticks]; lia.
  - lia.
Qed.

(** X5.  In a session of the Nanjg variant in a mode other than the
    group-change mode, where [main] itself appends nothing after the boot,
    the log is written exactly once, by the tick handler: before tick
    [LOCKTIME] the EEPROM and the write position are untouched, from tick
    [LOCKTIME] on they are those of the single append of
    [(0, group, mode by policy)], however many ticks follow; the tick
    counter stops at 255 and does not wrap back to [LOCKTIME]. *)
Theorem tick_handler_commits_once (cfg : Config) (s : Machine) (n : nat) :
  mode s <> GROUP_CHANGE_MODE ->
  ticks s = 0 -> 0 < LOCKTIME cfg <= 255 ->
  let s' := Nat.iter n (WDT_vect cfg) s in
  let committed_mode :=
    match memory cfg with
    | MEM_NEXT => getNextMode cfg (group s) (mode s)
    | MEM_FIRST => 0
    | MEM_LAST => mode s
    end in
  ticks s' = Z.min (Z.of_nat n) 255 /\
  group s' = group s /\ mode s' = mode s /\
  (Z.of_nat n < LOCKTIME cfg -> cells s' = cells s /\ eepos s' = eepos s) /\
  (LOCKTIME cfg <= Z.of_nat n ->
     cells s' = cells (eepSave 0 (group s) committed_mode s) /\
     eepos s' = next_eepos (eepos s)).
Proof.
  intros _ Ht HL s' cm. subst s'.
  split; [apply WDT_ticks_saturate; exact Ht|].
  destruct (iter_frame (WDT_vect cfg) n s (WDT_frame cfg)) as (_ & Hg & Hm & _).
  split; [exact Hg|]. split; [exact Hm|]. split.
  - intros Hn. rewrite (WDT_before_lock cfg s n Ht HL Hn). split; reflexivity.
  - intros Hn. destruct (WDT_locks cfg s n Ht HL Hn) as (Hc & He & _).
    split; assumption.
Qed.

(** The statement for a session of 200 ticks of the shipped firmware that
    began with the append of [cut_example]. *)
Lemma tick_handler_commits_once_witness :
  eepos (Nat.iter 200 (WDT_vect nanjg_cfg) (eepSave 0x81 0 2 cut_example)) = 4 /\
  ticks (Nat.iter 200 (WDT_vect nanjg_cfg) (eepSave 0x81 0 2 cut_example)) = 200.
Proof.
  destruct (tick_handler_commits_once nanjg_cfg (eepSave 0x81 0 2 cut_example) 200
              ltac:(discriminate) eq_refl ltac:(change (0 < 50 <= 255); lia))
    as (Ht & _ & _ & _ & Hl).
  split; [|exact Ht].
  destruct (Hl ltac:(change (50 <= Z.of_nat 200); lia)) as [_ He]. exact He.
Defined.

(** ** The resolved indices always lie in the mode table *)

Lemma getNextMode_range cfg g m :
  0 < MODES_COUNT cfg <= 16 -> 0 <= getNextMode cfg g m < MODES_COUNT cfg.
Proof.
  intros HM. unfold getNextMode.
  pose proof (Z.mod_pos_bound (m + 1) (MODES_COUNT cfg) ltac:(lia)).
  rewrite u8_small by lia. destruct (_ =? 0); lia.
Qed.

Lemma find_data1_total (eep : Z -> Z) :
  forall (fuel : nat) pos seen,
    0 <= pos <= 32 -> (Z.to_nat (33 - pos) <= fuel)%nat ->
    exists p seen',
      V1.find_data fuel eep pos seen = Some (p, seen') /\
      pos <= p <= 32 /\
      (forall a, pos <= a < p -> eep a = 0xff) /\
      (p < 32 -> eep p <> 0xff) /\
      (forall a, In a seen' -> In a seen \/ pos <= a <= p).
Proof.
  induction fuel as [|fuel IH]; intros pos seen Hpos Hfuel; [lia|].
  cbn [V1.find_data]. destruct ((eep pos =? 0xff) && (pos <? 32)) eqn:Hcont.
  - apply andb_true_iff in Hcont as [H1 H2].
    rewrite u8_small by lia.
    destruct (IH (pos + 1) (seen ++ [pos]) ltac:(lia) ltac:(lia))
      as (p & seen' & Hfind & Hp & Hff & Hstop & Hseen).
    exists p, seen'. split; [exact Hfind|]. split; [lia|]. split; [|split].
    + intros a Ha. destruct (Z.eq_dec a pos) as [->|]; [lia|]. apply Hff. lia.
    + exact Hstop.
    + intros a Ha. destruct (Hseen a Ha) as [Hin|]; [|right; lia].
      apply in_app_or in Hin as [Hin|[<-|[]]]; [left; assumption|right; lia].
  - apply andb_false_iff in Hcont.
    exists pos, (seen ++ [pos]). split; [reflexivity|]. split; [lia|].
    split; [intros a Ha; lia|]. split; [intros Hlt; destruct Hcont; lia|].
    intros a Ha. apply in_app_or in Ha as [Hin|[<-|[]]]; [left; assumption|right; lia].
Qed.

Lemma getNextMode1_range g m :
  0 <= m -> 0 <= V1.getNextMode g m < V1.MODES_COUNT.
Proof.
  intros Hm. unfold V1.getNextMode, V1.MODES_COUNT.
  pose proof (u8_range (m + 1)).
  destruct (Z.geb_spec (u8 (m + 1)) 7); cbn [orb]; [lia|].
  destruct (_ =? 0); lia.
Qed.

Lemma stored_range d :
  0 <= d < 256 ->
  0 <= V1.storedGroup d < V1.GROUPS_COUNT /\ 0 <= V1.storedMode d < V1.MODES_COUNT.
Proof.
  intros Hd. pose proof (forallb_below _ _ storedGroupMode_checked d Hd) as H.
  cbv zeta beta in H. rewrite !andb_true_iff in H. lia.
Qed.

Lemma table_lookup1_is_Some g m :
  0 <= g < V1.GROUPS_COUNT -> 0 <= m < V1.MODES_COUNT ->
  is_Some (V1.table_lookup g m).
Proof.
  intros Hg Hm.
  apply (table_lookup_is_Some v1_cfg g m); [reflexivity|exact Hg|exact Hm].
Qed.

(** X6.  Whatever the EEPROM holds, the boot code returns, and the group
    and mode it leaves in RAM index an entry of the mode table, so that
    [groups[group][mode]] in [main] is read inside the table: for the scan
    and the decoding of both v2.0 variants (any well-formed table), and for
    [getmode] of v1.0 even when it reads behind its buffer, as long as
    memory cells hold bytes. *)
Theorem resolved_indices_in_table :
  (forall cfg e,
     table_ok cfg = true ->
     exists s, eepLoad_nanjg cfg (power_on e) = Some s /\
               0 <= group s < GROUPS_COUNT cfg /\ 0 <= mode s < MODES_COUNT cfg /\
               is_Some (table_lookup cfg (group s) (mode s))) /\
  (forall cfg cap e,
     table_ok cfg = true ->
     exists s, eepLoad_a17dd cfg cap (power_on e) = Some s /\
               0 <= group s < GROUPS_COUNT cfg /\ 0 <= mode s < MODES_COUNT cfg /\
               is_Some (table_lookup cfg (group s) (mode s))) /\
  (forall e after bc,
     (forall a, 0 <= e a < 256) -> (forall k, 0 <= after k < 256) ->
     exists s, V1.getmode after (V1.power_on e bc) = Some s /\
               0 <= V1.group s < V1.GROUPS_COUNT /\
               0 <= V1.mode s < V1.MODES_COUNT /\
               is_Some (V1.table_lookup (V1.group s) (V1.mode s))).
Proof.
  split; [|split].
  - intros cfg e Hok. pose proof (table_ok_spec cfg Hok) as (HM & HG & _).
    destruct (find_data_total e 256 0 [] ltac:(lia) ltac:(lia))
      as (p & c & seen & Hfind & _).
    unfold eepLoad_nanjg, power_on. cbn [cells eepos]. rewrite Hfind. cbn.
    eexists. split; [reflexivity|]. cbn [eepSave group mode].
    assert (H : forall g m, 0 <= g < GROUPS_COUNT cfg -> 0 <= m < MODES_COUNT cfg ->
                0 <= g < GROUPS_COUNT cfg /\ 0 <= m < MODES_COUNT cfg /\
                is_Some (table_lookup cfg g m))
      by (intros; repeat split; try lia; apply table_lookup_is_Some; assumption).
    pose proof (decodeGroup_range cfg (e (p + 1)) ltac:(lia)).
    pose proof (decodeMode_range cfg (e (p + 1)) ltac:(lia)).
    pose proof (getNextMode_range cfg (decodeGroup cfg (e (p + 1)))
                  (decodeMode cfg (e (p + 1))) HM).
    destruct (c =? 255); cbn; [apply H; lia|].
    destruct (Z.land c 128 =? 0); cbn; apply H; assumption.
  - intros cfg cap e Hok. pose proof (table_ok_spec cfg Hok) as (HM & HG & _).
    destruct (find_data_total e 256 0 [] ltac:(lia) ltac:(lia))
      as (p & c & seen & Hfind & _).
    unfold eepLoad_a17dd, power_on. cbn [cells eepos]. rewrite Hfind. cbn.
    eexists. split; [reflexivity|]. cbn [eepSave group mode].
    assert (H : forall g m, 0 <= g < GROUPS_COUNT cfg -> 0 <= m < MODES_COUNT cfg ->
                0 <= g < GROUPS_COUNT cfg /\ 0 <= m < MODES_COUNT cfg /\
                is_Some (table_lookup cfg g m))
      by (intros; repeat split; try lia; apply table_lookup_is_Some; assumption).
    pose proof (decodeGroup_range cfg (e (p + 1)) ltac:(lia)).
    pose proof (decodeMode_range cfg (e (p + 1)) ltac:(lia)).
    pose proof (getNextMode_range cfg (decodeGroup cfg (e (p + 1)))
                  (decodeMode cfg (e (p + 1))) HM).
    destruct (c =? 255); cbn; [apply H; lia|].
    destruct (cap >? CAP_THRESHOLD cfg); cbn; [apply H; assumption|].
    unfold apply_memory. destruct (memory cfg); cbn; apply H; lia.
  - intros e after bc He Hafter.
    destruct (find_data1_total (V1.eep_at e after) 256 0 [] ltac:(lia) ltac:(lia))
      as (p & seen & Hfind & Hp & _).
    unfold V1.getmode, V1.power_on. cbn [V1.cells V1.eepos]. rewrite Hfind. cbn.
    eexists. split; [reflexivity|]. cbn [V1.eepSave V1.group V1.mode].
    assert (Hbyte : 0 <= V1.eep_at e after p < 256)
      by (unfold V1.eep_at; destruct (p <? 32); [apply He|apply Hafter]).
    destruct (stored_range _ Hbyte) as [Hg Hm].
    pose proof (getNextMode1_range (V1.storedGroup (V1.eep_at e after p))
                  (V1.storedMode (V1.eep_at e after p)) ltac:(lia)) as Hn.
    destruct (negb _); (split; [exact Hg|]); (split; [assumption|]);
      apply table_lookup1_is_Some; assumption.
Qed.

(** The statement at the store left by the power cut of
    [boot_after_cut_is_misaligned], in the shipped Nanjg configuration. *)
Lemma resolved_indices_in_table_witness :
  exists s, eepLoad_nanjg nanjg_cfg
              (power_on (eepSave_cut 2 0x81 0 2 cut_example)) = Some s /\
            0 <= group s < GROUPS_COUNT nanjg_cfg /\
            0 <= mode s < MODES_COUNT nanjg_cfg /\
            is_Some (table_lookup nanjg_cfg (group s) (mode s)).
Proof.
  apply (proj1 resolved_indices_in_table nanjg_cfg). reflexivity.
Defined.

(** ** [getmode] of v1.0 on a store that holds a record *)

Lemma getmode_found (e after : Z -> Z) (bc p : Z) :
  0 <= p <= 31 ->
  (forall a, 0 <= a < p -> e a = ERASED) ->
  e p <> ERASED ->
  let short := negb (Z.land (e p) 0x80 =? 0) in
  let g := V1.storedGroup (e p) in
  let m := if short then V1.getNextMode g (V1.storedMode (e p))
           else V1.storedMode (e p) in
  (exists reads, V1.getmode_reads after (V1.power_on e bc) = Some reads /\
                 forall a, In a reads -> 0 <= a <= p) /\
  (exists s, V1.getmode after (V1.power_on e bc) = Some s /\
             V1.group s = g /\ V1.mode s = m /\
             V1.eepos s = Z.land (p + 1) 31 /\
             V1.cells s =
               ee_run [EeWrite (Z.land (p + 1) 31) (Z.lor (V1.codeGroupAndMode g m) 0x80);
                       EeErase p] e).
Proof.
  intros Hp Hff Hdata short g m.
  destruct (find_data1_total (V1.eep_at e after) 256 0 [] ltac:(lia) ltac:(lia))
    as (q & seen & Hfind & Hq & Hbefore & Hstop & Hseen).
  assert (Hat : forall a, 0 <= a < 32 -> V1.eep_at e after a = e a)
    by (intros a Ha; unfold V1.eep_at; destruct (Z.ltb_spec a 32); [reflexivity|lia]).
  assert (q = p) as ->.
  { destruct (Z.lt_trichotomy q p) as [Hlt|[Heq|Hgt]]; [|exact Heq|].
    - specialize (Hstop ltac:(lia)). rewrite Hat in Hstop by lia.
      rewrite Hff in Hstop by lia. contradiction.
    - specialize (Hbefore p ltac:(lia)). rewrite Hat in Hbefore by lia.
      contradiction. }
  split.
  - unfold V1.getmode_reads, V1.power_on. cbn [V1.cells V1.eepos]. rewrite Hfind. cbn.
    eexists. split; [reflexivity|].
    intros a Ha. apply in_app_or in Ha as [Ha|[<-|[]]]; [|lia].
    destruct (Hseen a Ha) as [[]|]. lia.
  - unfold V1.getmode, V1.power_on. cbn [V1.cells V1.eepos]. rewrite Hfind. cbn.
    rewrite Hat by lia. eexists. split; [reflexivity|].
    cbn [V1.eepSave V1.group V1.mode V1.eepos V1.cells].
    fold short. fold g. repeat split.
Qed.

(** X7.  When the store of v1.0 holds a record, its first programmed
    byte being at address [p] (0 to 31), [getmode] reads only the elements
    0 to [p] of its buffer, resolves the group and mode stored in that byte
    (advancing the mode when the short flag is set), and appends the
    resolved record with the short flag at the next position; nothing of
    this depends on the memory behind the buffer. *)
Theorem getmode_finds_first_record (e after : Z -> Z) (bc p : Z) :
  0 <= p <= 31 ->
  (forall a, 0 <= a < p -> e a = ERASED) ->
  e p <> ERASED ->
  let short := negb (Z.land (e p) 0x80 =? 0) in
  let g := V1.storedGroup (e p) in
  let m := if short then V1.getNextMode g (V1.storedMode (e p))
           else V1.storedMode (e p) in
  (exists reads, V1.getmode_reads after (V1.power_on e bc) = Some reads /\
                 forall a, In a reads -> 0 <= a <= p) /\
  (exists s, V1.getmode after (V1.power_on e bc) = Some s /\
             V1.group s = g /\ V1.mode s = m /\
             V1.eepos s = Z.land (p + 1) 31 /\
             V1.cells s =
               ee_run [EeWrite (Z.land (p + 1) 31) (Z.lor (V1.codeGroupAndMode g m) 0x80);
                       EeErase p] e).
Proof. apply getmode_found. Qed.

(** The statement for the byte [0x83] (short flag, group 0, mode 3) at
    address 5. *)
Lemma getmode_finds_first_record_witness :
  exists s, V1.getmode (fun _ => 0) (V1.power_on (single_record1 5 0x83) 0) = Some s /\
            V1.group s = 0 /\ V1.mode s = 0 /\ V1.eepos s = 6.
Proof.
  destruct (getmode_finds_first_record (single_record1 5 0x83) (fun _ => 0) 0 5)
    as [_ (s & Hs & Hg & Hm & He & _)].
  - lia.
  - intros a Ha. unfold single_record1, blank, insert, fn_insert.
    case_decide; [lia|reflexivity].
  - discriminate.
  - exists s. repeat split; assumption.
Defined.

(** ** The one-byte log of v1.0 *)

Lemma land31_mod p : Z.land p 31 = p mod 32.
Proof. change 31 with (Z.ones 5). rewrite Z.land_ones by lia. reflexivity. Qed.

Lemma next_byte p :
  0 <= p <= 31 ->
  (p <= 30 /\ (p + 1) mod 32 = p + 1) \/ (p = 31 /\ (p + 1) mod 32 = 0).
Proof.
  intros Hp. destruct (Z.eq_dec p 31) as [->|].
  - right. split; reflexivity.
  - left. split; [lia|]. apply Z.mod_small. lia.
Qed.

Section Append1.
Variables (s : V1.Machine) (p d0 d : Z).
Hypothesis Hp : 0 <= p <= 31.
Hypothesis Hpos : V1.eepos s = p.
Hypothesis Hstore : forall a, V1.cells s a = single_record1 p d0 a.
Hypothesis Hd : 0 <= d < 256.

Local Ltac cells1 :=
  unfold insert, fn_insert; rewrite ?Hstore;
  unfold single_record1, blank, insert, fn_insert;
  repeat (case_decide; try lia);
  rewrite ?land_erased by lia; try reflexivity; try lia.

Lemma eepSave1_ops_order :
  V1.eepSave_ops p d = [EeWrite ((p + 1) mod 32) d; EeErase p].
Proof. unfold V1.eepSave_ops. rewrite land31_mod. reflexivity. Qed.

Lemma eepSave1_cut_stage (k : nat) :
  eepSave1_cut k d s = ee_run (take k [EeWrite ((p + 1) mod 32) d; EeErase p]) (V1.cells s).
Proof. unfold eepSave1_cut. rewrite Hpos, eepSave1_ops_order. reflexivity. Qed.

Lemma eepSave1_written a :
  eepSave1_cut 1 d s a = <[(p + 1) mod 32 := d]> (single_record1 p d0) a.
Proof.
  rewrite eepSave1_cut_stage. pose proof (next_byte p Hp) as Hq.
  set (q := (p + 1) mod 32) in *. clearbody q.
  cbn [take ee_run fold_left ee_apply]. cells1.
Qed.

Lemma eepSave1_done (k : nat) a :
  (2 <= k)%nat -> eepSave1_cut k d s a = single_record1 ((p + 1) mod 32) d a.
Proof.
  intros Hk. rewrite eepSave1_cut_stage. pose proof (next_byte p Hp) as Hq.
  set (q := (p + 1) mod 32) in *. clearbody q.
  destruct k as [|[|k]]; try lia.
  cbn [take ee_run fold_left ee_apply]. rewrite take_nil.
  cbn [ee_run fold_left ee_apply]. cells1.
Qed.

Lemma eepSave1_single_record a :
  V1.cells (V1.eepSave d s) a = single_record1 ((p + 1) mod 32) d a.
Proof.
  rewrite <- (eepSave1_done 2 a) by lia. unfold eepSave1_cut, V1.eepSave.
  cbn [V1.cells]. reflexivity.
Qed.

Lemma eepSave1_first_record (k : nat) :
  d0 <> ERASED -> d <> ERASED ->
  exists p', 0 <= p' <= 31 /\
             (forall a, 0 <= a < p' -> eepSave1_cut k d s a = ERASED) /\
             ((p' = p /\ eepSave1_cut k d s p' = d0) \/
              (p' = (p + 1) mod 32 /\ eepSave1_cut k d s p' = d)).
Proof.
  intros Hd0 Hdn. pose proof (next_byte p Hp) as Hq.
  destruct k as [|[|k]].
  - exists p. split; [lia|]. rewrite eepSave1_cut_stage.
    cbn [take ee_run fold_left]. split; [|left; split; [reflexivity|]].
    + intros a Ha. cells1.
    + cells1.
  - destruct Hq as [[Hle Hq]|[H31 Hq]].
    + exists p. split; [lia|]. split; [|left; split; [reflexivity|]].
      * intros a Ha. rewrite eepSave1_written, Hq. cells1.
      * rewrite eepSave1_written, Hq. cells1.
    + exists 0. split; [lia|]. split; [intros a Ha; lia|].
      right. split; [symmetry; exact Hq|].
      rewrite eepSave1_written, Hq. cells1.
  - exists ((p + 1) mod 32). split; [lia|]. split; [|right; split; [reflexivity|]].
    + intros a Ha. rewrite eepSave1_done by lia. cells1.
    + rewrite eepSave1_done by lia. cells1.
Qed.

End Append1.

Lemma eepos1_after_appends (ds : list Z) s :
  V1.eepos (fold_left (fun s d => V1.eepSave d s) ds s) mod 32
  = (V1.eepos s + Z.of_nat (length ds)) mod 32.
Proof.
  revert s. induction ds as [|d ds IH]; intros s.
  - cbn [fold_left length]. f_equal. lia.
  - cbn [fold_left length]. rewrite IH. cbn [V1.eepSave V1.eepos].
    rewrite land31_mod, Z.add_mod_idemp_l by lia. f_equal. lia.
Qed.

(** X8.  The append of v1.0 is safe against a power cut.  On a store that
    holds exactly one record byte, at the current position [p], [eepSave]
    writes the new byte at [(p + 1) mod 32] and then erases the old one.
    Whenever the power is lost (after 0, 1 or 2 cell operations) the first
    programmed byte of the store is the complete old record or the complete
    new record, so the next boot never sees an empty or a half-written
    log; when both operations are done the store holds exactly the new
    record, and 32 appends bring the position back to where it started. *)
Theorem eepSave1_power_safe (s : V1.Machine) (p d0 d : Z) :
  0 <= p <= 31 ->
  V1.eepos s = p ->
  (forall a, V1.cells s a = single_record1 p d0 a) ->
  0 <= d < 256 ->
  d0 <> ERASED -> d <> ERASED ->
  V1.eepSave_ops p d = [EeWrite ((p + 1) mod 32) d; EeErase p] /\
  (forall k : nat,
     exists p', 0 <= p' <= 31 /\
                (forall a, 0 <= a < p' -> eepSave1_cut k d s a = ERASED) /\
                ((p' = p /\ eepSave1_cut k d s p' = d0) \/
                 (p' = (p + 1) mod 32 /\ eepSave1_cut k d s p' = d))) /\
  (forall a, V1.cells (V1.eepSave d s) a = single_record1 ((p + 1) mod 32) d a) /\
  V1.eepos (V1.eepSave d s) = (p + 1) mod 32 /\
  (forall ds, length ds = 32%nat ->
     V1.eepos (fold_left (fun s d => V1.eepSave d s) ds s) = p).
Proof.
  intros Hp Hpos Hstore Hd Hd0 Hdn. split; [|split; [|split; [|split]]].
  - apply eepSave1_ops_order.
  - intros k. eapply eepSave1_first_record; eassumption.
  - intros a. eapply eepSave1_single_record; eassumption.
  - cbn [V1.eepSave V1.eepos]. rewrite Hpos. apply land31_mod.
  - intros ds Hlen. pose proof (eepos1_after_appends ds s) as H.
    rewrite Hlen, Hpos in H. change (Z.of_nat 32) with (1 * 32) in H.
    rewrite Z.mod_add, (Z.mod_small p) in H by lia. rewrite <- H.
    symmetry. apply Z.mod_small.
    destruct ds as [|d' ds] using rev_ind; [discriminate Hlen|].
    rewrite fold_left_app. cbn [fold_left V1.eepSave V1.eepos].
    rewrite land31_mod. apply Z.mod_pos_bound. lia.
Qed.

(** The statement for the store that holds [0x81] in its last cell: the
    new byte goes to cell 0, and a power cut between the two operations
    leaves the new record as the first programmed byte. *)
Lemma eepSave1_power_safe_witness :
  V1.eepos (V1.eepSave 0x82
     {| V1.cells := single_record1 31 0x81; V1.eepos := 31; V1.group := 0;
        V1.mode := 2; V1.ticks := 0; V1.mypwm := 0; V1.lowbattCounter := 0;
        V1.battcheckCounter := 0 |}) = 0.
Proof.
  apply (eepSave1_power_safe
           {| V1.cells := single_record1 31 0x81; V1.eepos := 31; V1.group := 0;
              V1.mode := 2; V1.ticks := 0; V1.mypwm := 0; V1.lowbattCounter := 0;
              V1.battcheckCounter := 0 |} 31 0x81 0x82);
    try reflexivity; try lia; try discriminate.
Defined.

(** ** The click counter of v1.0 *)

Lemma find_data1_first (e after : Z -> Z) (p : Z) :
  0 <= p <= 31 ->
  (forall a, 0 <= a < p -> e a = ERASED) ->
  e p <> ERASED ->
  exists seen,
    V1.find_data 256 (V1.eep_at e after) 0 [] = Some (p, seen) /\
    V1.eep_at e after p = e p.
Proof.
  intros Hp Hff Hdata.
  destruct (find_data1_total (V1.eep_at e after) 256 0 [] ltac:(lia) ltac:(lia))
    as (q & seen & Hfind & Hq & Hbefore & Hstop & _).
  assert (Hat : forall a, 0 <= a < 32 -> V1.eep_at e after a = e a)
    by (intros a Ha; unfold V1.eep_at; destruct (Z.ltb_spec a 32); [reflexivity|lia]).
  assert (q = p) as ->.
  { destruct (Z.lt_trichotomy q p) as [Hlt|[Heq|Hgt]]; [|exact Heq|].
    - specialize (Hstop ltac:(lia)). rewrite Hat in Hstop by lia.
      rewrite Hff in Hstop by lia. contradiction.
    - specialize (Hbefore p ltac:(lia)). rewrite Hat in Hbefore by lia.
      contradiction. }
  exists seen. split; [exact Hfind|]. apply Hat. lia.
Qed.

Lemma battcheck_step_linear bc :
  battcheck_step bc = (2 * bc + (1 - bc mod 2)) mod 65536.
Proof.
  unfold battcheck_step, V1.u16. f_equal.
  rewrite Z.shiftl_mul_pow2 by lia. change (2 ^ 1) with 2. rewrite (Z.mul_comm bc 2).
  change 1 with (Z.ones 1) at 1. rewrite Z.land_ones by lia. change (2 ^ 1) with 2.
  assert (Hn : Z.lnot bc mod 2 = 1 - bc mod 2).
  { unfold Z.lnot. rewrite <- Z.sub_1_r.
    pose proof (Z.mod_pos_bound bc 2 ltac:(lia)) as Hb.
    rewrite (Z.div_mod bc 2) at 1 by lia.
    replace (- (2 * (bc / 2) + bc mod 2) - 1)
      with ((1 - bc mod 2) + (- (bc / 2) - 1) * 2) by lia.
    rewrite Z.mod_add by lia. apply Z.mod_small. lia. }
  rewrite Hn. pose proof (Z.mod_pos_bound bc 2 ltac:(lia)) as Hb.
  assert (Hc : bc mod 2 = 0 \/ bc mod 2 = 1) by lia.
  destruct Hc as [-> | ->]; [change (1 - 0) with 1|change (1 - 1) with 0].
  - apply Z.bits_inj'. intros n Hn0. rewrite Z.lor_spec.
    destruct (Z.eq_dec n 0) as [->|Hne].
    + rewrite Z.testbit_odd_0. reflexivity.
    + replace n with (Z.succ (n - 1)) by lia.
      rewrite Z.testbit_odd_succ, Z.testbit_even_succ by lia.
      rewrite (Z.bits_above_log2 1 (Z.succ (n - 1))) by (change (Z.log2 1) with 0; lia).
      reflexivity.
  - rewrite Z.lor_0_l. lia.
Qed.

Lemma battcheck_step_range bc : 0 <= battcheck_step bc < 65536.
Proof. unfold battcheck_step, V1.u16. apply Z.mod_pos_bound. lia. Qed.

Lemma battcheck_update_range bc : 0 <= bc < 65536 -> 0 <= battcheck_update bc < 65536.
Proof.
  intros Hbc. unfold battcheck_update. destruct (bc =? 43690); [exact Hbc|].
  apply battcheck_step_range.
Qed.

Lemma battcheck_step_parity (n : nat) bc :
  Nat.iter n battcheck_step bc mod 2
  = if Nat.even n then bc mod 2 else 1 - bc mod 2.
Proof.
  induction n as [|n IH]; [reflexivity|].
  rewrite Nat.iter_succ, battcheck_step_linear, Nat.even_succ, <- Nat.negb_even.
  rewrite Z.mod_mod_divide by (exists 32768; reflexivity).
  rewrite IH. pose proof (Z.mod_pos_bound bc 2 ltac:(lia)) as Hb.
  rewrite Z.add_comm, Z.mul_comm, Z.mod_add by lia.
  destruct (Nat.even n); cbn [negb];
    [|replace (1 - (1 - bc mod 2)) with (bc mod 2) by lia]; apply Z.mod_small; lia.
Qed.

Lemma battcheck_step_iter (n : nat) bc :
  Nat.iter n battcheck_step bc
  = (2 ^ Z.of_nat n * bc + shifted_in n (bc mod 2)) mod 65536 \/ n = O.
Proof.
  destruct n as [|n]; [right; reflexivity|left].
  induction n as [|n IH].
  - cbn [Nat.iter nat_rect shifted_in Nat.even]. rewrite battcheck_step_linear.
    f_equal.
  - rewrite Nat.iter_succ, battcheck_step_linear.
    rewrite (battcheck_step_parity (S n) bc).
    rewrite IH. set (k := S n).
    replace (Z.of_nat (S k)) with (Z.of_nat k + 1) by lia.
    rewrite Z.pow_add_r by lia. change (2 ^ 1) with 2.
    cbn [shifted_in].
    rewrite Z.add_mod, Z.mul_mod_idemp_r, <- Z.add_mod by lia.
    f_equal. lia.
Qed.

Lemma battcheck_update_or_step (n : nat) bc :
  Nat.iter n battcheck_update bc = 0xaaaa \/
  Nat.iter n battcheck_update bc = Nat.iter n battcheck_step bc.
Proof.
  induction n as [|n IH]; [right; reflexivity|].
  rewrite !Nat.iter_succ. destruct IH as [-> | ->]; [left; reflexivity|].
  unfold battcheck_update.
  destruct (Z.eqb_spec (Nat.iter n battcheck_step bc) 43690) as [E|NE];
    [left; exact E|right; reflexivity].
Qed.

Lemma battcheck_update_sticky (n : nat) :
  Nat.iter n battcheck_update 0xaaaa = 0xaaaa.
Proof. induction n as [|n IH]; [reflexivity|]. rewrite Nat.iter_succ, IH. reflexivity. Qed.

Lemma battcheck_from_zero_checked :
  forallb (fun k => negb (Nat.iter (Z.to_nat k) battcheck_update 0 =? 0xaaaa)) (below 16)
  = true /\
  Nat.iter 16 battcheck_update 0 = 0xaaaa.
Proof. split; vm_compute; reflexivity. Qed.

Lemma battcheck_within_16 bc (n : nat) :
  0 <= bc < 65536 -> (16 <= n)%nat -> Nat.iter n battcheck_update bc = 0xaaaa.
Proof.
  intros Hbc Hn.
  assert (H16 : Nat.iter 16 battcheck_update bc = 0xaaaa).
  { pose proof (Z.mod_pos_bound bc 2 ltac:(lia)) as Hb.
    assert (Hc : bc mod 2 = 0 \/ bc mod 2 = 1) by lia.
    destruct Hc as [Hc|Hc].
    - destruct (battcheck_update_or_step 16 bc) as [H|H]; [exact H|].
      rewrite H. destruct (battcheck_step_iter 16 bc) as [->|]; [|discriminate].
      rewrite Hc. change (2 ^ Z.of_nat 16) with 65536.
      rewrite (Z.mul_comm 65536 bc), Z.add_comm, Z.mod_add by lia. reflexivity.
    - change 16%nat with (1 + 15)%nat. rewrite Nat.iter_add.
      assert (H15 : Nat.iter 15 battcheck_update bc = 0xaaaa).
      { destruct (battcheck_update_or_step 15 bc) as [H|H]; [exact H|].
        rewrite H. destruct (battcheck_step_iter 15 bc) as [->|]; [|discriminate].
        rewrite Hc. rewrite (Z.div_mod bc 2) at 1 by lia. rewrite Hc.
        change (2 ^ Z.of_nat 15) with 32768.
        replace (32768 * (2 * (bc / 2) + 1) + shifted_in 15 1)
          with (32768 + shifted_in 15 1 + (bc / 2) * 65536) by lia.
        rewrite Z.mod_add by lia. reflexivity. }
      rewrite H15. reflexivity. }
  replace n with ((n - 16) + 16)%nat by lia. rewrite Nat.iter_add, H16.
  apply battcheck_update_sticky.
Qed.

Lemma battcheck_from_zero (n : nat) :
  Nat.iter n battcheck_update 0 = 0xaaaa <-> (16 <= n)%nat.
Proof.
  destruct battcheck_from_zero_checked as [Hbefore H16]. split.
  - intros H. destruct (Nat.le_gt_cases 16 n) as [|Hlt]; [assumption|].
    pose proof (forallb_below _ _ Hbefore (Z.of_nat n) ltac:(lia)) as Hn.
    cbv beta in Hn. rewrite Nat2Z.id, H in Hn. discriminate Hn.
  - intros Hn. replace n with ((n - 16) + 16)%nat by lia.
    rewrite Nat.iter_add, H16. apply battcheck_update_sticky.
Qed.

(** X9.  The click counter of v1.0 is a 16-bit shift register that takes
    in the complement of its lowest bit at every short boot and stops at
    [0xaaaa], the value that triggers the battery display.  From 0 (the
    value after a lock-in) it holds [0xaaaa] after exactly 16 updates and
    not before; from any 16-bit value (the counter is not initialised at
    power-up) it holds [0xaaaa] after 16 updates at the latest, and it
    stays there until it is cleared.  [getmode] applies the update exactly
    at the boots that find the short flag set. *)
Theorem battcheck_counter_pattern :
  (forall n : nat, Nat.iter n battcheck_update 0 = 0xaaaa <-> (16 <= n)%nat) /\
  (forall bc (n : nat),
     0 <= bc < 65536 -> (16 <= n)%nat -> Nat.iter n battcheck_update bc = 0xaaaa) /\
  (forall bc, 0 <= bc < 65536 -> 0 <= battcheck_update bc < 65536) /\
  (forall e after bc p,
     0 <= p <= 31 ->
     (forall a, 0 <= a < p -> e a = ERASED) ->
     e p <> ERASED ->
     option_map V1.battcheckCounter (V1.getmode after (V1.power_on e bc))
     = Some (if negb (Z.land (e p) 0x80 =? 0) then battcheck_update bc else bc)).
Proof.
  split; [exact battcheck_from_zero|]. split; [exact battcheck_within_16|].
  split.
  - exact battcheck_update_range.
  - intros e after bc p Hp Hff Hdata.
    destruct (find_data1_first e after p Hp Hff Hdata) as (seen & Hfind & Hat).
    unfold V1.getmode, V1.power_on. cbn [V1.cells V1.eepos V1.battcheckCounter].
    rewrite Hfind. cbn. rewrite Hat. unfold battcheck_update, battcheck_step.
    destruct (negb _); cbn [andb]; [|reflexivity].
    destruct (bc =? 43690); reflexivity.
Qed.

(** The statement for a counter that power-up left at [0x1234]. *)
Lemma battcheck_counter_pattern_witness :
  Nat.iter 16 battcheck_update 0x1234 = 0xaaaa.
Proof.
  apply (proj1 (proj2 battcheck_counter_pattern) 0x1234 16%nat); lia.
Defined.

(** ** Consecutive short clicks and the lock-in of v1.0 *)

Lemma encode1_fields_checked :
  forallb (fun f : bool => forallb (fun g => forallb (fun m =>
     let d := encode_record1 g m f in
     (0 <=? d) && (d <? 255) && (V1.storedGroup d =? g) && (V1.storedMode d =? m) &&
     eqb (negb (Z.land d 0x80 =? 0)) f) (below 7)) (below 2)) [true; false] = true.
Proof. vm_compute. reflexivity. Qed.

Lemma encode1_fields g m (f : bool) :
  0 <= g < V1.GROUPS_COUNT -> 0 <= m < V1.MODES_COUNT ->
  let d := encode_record1 g m f in
  0 <= d < 255 /\ V1.storedGroup d = g /\ V1.storedMode d = m /\
  negb (Z.land d 0x80 =? 0) = f.
Proof.
  intros Hg Hm. pose proof encode1_fields_checked as H.
  rewrite forallb_forall in H.
  assert (Hf : In f [true; false]) by (destruct f; cbn; tauto).
  pose proof (forallb_below _ _ (forallb_below _ _ (H f Hf) g Hg) m Hm) as Hgm.
  cbv beta zeta in Hgm. rewrite !andb_true_iff in Hgm.
  destruct Hgm as [[[[H1 H2] H3] H4] H5]. apply eqb_prop in H5.
  cbv zeta. repeat split; try lia. exact H5.
Qed.

Lemma getNextMode1_checked :
  forallb (fun g => forallb (fun m =>
     if m <? effective_length v1_cfg g
     then V1.getNextMode g m =? (m + 1) mod effective_length v1_cfg g
     else true) (below 7)) (below 2) = true.
Proof. vm_compute. reflexivity. Qed.

Lemma getNextMode1_wraps g m :
  0 <= g < V1.GROUPS_COUNT -> 0 <= m < effective_length v1_cfg g ->
  V1.getNextMode g m = (m + 1) mod effective_length v1_cfg g /\
  0 < effective_length v1_cfg g <= V1.MODES_COUNT.
Proof.
  intros Hg Hm.
  pose proof (effective_length_range v1_cfg g eq_refl Hg) as HL.
  change (MODES_COUNT v1_cfg) with V1.MODES_COUNT in HL.
  assert (Hm7 : 0 <= m < Z.of_nat 7) by (unfold V1.MODES_COUNT in HL; lia).
  pose proof (forallb_below _ _ (forallb_below _ _ getNextMode1_checked g Hg) m Hm7) as H.
  cbv beta in H. destruct (Z.ltb_spec m (effective_length v1_cfg g)); [|lia].
  split; lia.
Qed.

Lemma committed1_scan d p g m s :
  committed1 d p g m s -> d <> ERASED ->
  0 <= p <= 31 /\ (forall a, 0 <= a < p -> V1.cells s a = ERASED) /\
  V1.cells s p = d.
Proof.
  intros (Hp & _ & Hstore & _) Hd. split; [exact Hp|]. split.
  - intros a Ha. rewrite Hstore. unfold single_record1, blank, insert, fn_insert.
    case_decide; [lia|reflexivity].
  - rewrite Hstore. unfold single_record1, insert, fn_insert.
    case_decide; [reflexivity|lia].
Qed.

Lemma quick_boot1_short after s p g m :
  0 <= g < V1.GROUPS_COUNT -> 0 <= m < effective_length v1_cfg g ->
  committed1 (encode_record1 g m true) p g m s ->
  let m' := (m + 1) mod effective_length v1_cfg g in
  exists s',
    quick_boot1 after s = Some s' /\
    committed1 (encode_record1 g m' true) ((p + 1) mod 32) g m' s' /\
    V1.battcheckCounter s' = battcheck_update (V1.battcheckCounter s).
Proof.
  intros Hg Hm Hc m'.
  destruct (getNextMode1_wraps g m Hg Hm) as [Hnext HL].
  destruct (encode1_fields g m true Hg ltac:(lia)) as (Hd & Hsg & Hsm & Hflag).
  cbv zeta in Hd, Hsg, Hsm, Hflag.
  destruct (committed1_scan _ _ _ _ _ Hc ltac:(unfold ERASED; lia)) as (Hp & Hff & Hdata).
  destruct (find_data1_first (V1.cells s) after p Hp Hff
              ltac:(rewrite Hdata; unfold ERASED; lia)) as (seen & Hfind & Hat).
  assert (Hm' : 0 <= m' < effective_length v1_cfg g)
    by (apply Z.mod_pos_bound; lia).
  destruct (encode1_fields g m' true Hg ltac:(lia)) as (Hd' & _).
  cbv zeta in Hd'.
  unfold quick_boot1, V1.getmode, V1.power_on. cbn [V1.cells V1.eepos V1.battcheckCounter].
  rewrite Hfind. cbn [mbind option_bind]. rewrite Hat, Hdata, Hsg, Hsm, Hflag, Hnext.
  fold m'. cbn [andb]. eexists. split; [reflexivity|]. split.
  - unfold committed1.
    split; [pose proof (Z.mod_pos_bound (p + 1) 32 ltac:(lia)); lia|]. split.
    + cbn [V1.eepSave V1.eepos]. apply land31_mod.
    + split; [|split; reflexivity].
      intros a. destruct Hc as (_ & _ & Hstore & _).
      apply (eepSave1_single_record _ p (encode_record1 g m true)
               (Z.lor (V1.codeGroupAndMode g m') 0x80));
        [exact Hp|reflexivity|exact Hstore|].
      change (Z.lor (V1.codeGroupAndMode g m') 0x80) with (encode_record1 g m' true).
      lia.
  - cbn [V1.eepSave V1.battcheckCounter]. unfold battcheck_update, battcheck_step.
    destruct (_ =? 43690); reflexivity.
Qed.

Lemma clicks_v1_spec after (n : nat) :
  forall s p g m,
    0 <= g < V1.GROUPS_COUNT -> 0 <= m < effective_length v1_cfg g ->
    committed1 (encode_record1 g m true) p g m s ->
    let m' := (m + Z.of_nat n) mod effective_length v1_cfg g in
    exists s',
      clicks_v1 after n s = Some s' /\
      committed1 (encode_record1 g m' true) ((p + Z.of_nat n) mod 32) g m' s' /\
      V1.battcheckCounter s' = Nat.iter n battcheck_update (V1.battcheckCounter s).
Proof.
  induction n as [|n IH]; intros s p g m Hg Hm Hc m'.
  - exists s. split; [reflexivity|]. subst m'.
    destruct Hc as (Hp & Hrest). rewrite !Z.add_0_r, (Z.mod_small m), (Z.mod_small p) by lia.
    split; [split; assumption|reflexivity].
  - destruct (getNextMode1_wraps g m Hg Hm) as [_ HL].
    destruct (quick_boot1_short after s p g m Hg Hm Hc) as (s1 & Hboot & Hc1 & Hbc1).
    destruct (IH s1 _ g _ Hg ltac:(apply Z.mod_pos_bound; lia) Hc1)
      as (s' & Hrun & Hc' & Hbc').
    exists s'. cbn [clicks_v1]. rewrite Hboot. cbn [mbind option_bind].
    split; [exact Hrun|].
    rewrite Z.add_mod_idemp_l in Hc' by lia.
    rewrite Z.add_mod_idemp_l in Hc' by lia.
    subst m'.
    replace (m + Z.of_nat (S n)) with (m + 1 + Z.of_nat n) by lia.
    replace (p + Z.of_nat (S n)) with (p + 1 + Z.of_nat n) by lia.
    split; [exact Hc'|].
    rewrite Hbc', Hbc1, Nat.iter_succ_r. reflexivity.
Qed.

(** X10.  Short clicks of v1.0 in a row.  From a machine whose log holds
    exactly the record with the short flag that its boot wrote for group
    [g] and a mode [m] of the effective part of the group, [n] power cycles
    that are each cut before the lock-in leave the group alone, advance the
    mode [n] times around the effective length of the group, move the
    record [n] cells further (modulo 32) and update the click counter [n]
    times; when the counter started at 0 the battery display is due exactly
    from the 16th click on. *)
Theorem short_clicks_v1 (after : Z -> Z) (n : nat) (s : V1.Machine) (p g m : Z) :
  0 <= g < V1.GROUPS_COUNT ->
  0 <= m < effective_length v1_cfg g ->
  committed1 (encode_record1 g m true) p g m s ->
  let m' := (m + Z.of_nat n) mod effective_length v1_cfg g in
  exists s',
    clicks_v1 after n s = Some s' /\
    V1.group s' = g /\ V1.mode s' = m' /\
    committed1 (encode_record1 g m' true) ((p + Z.of_nat n) mod 32) g m' s' /\
    V1.battcheckCounter s' = Nat.iter n battcheck_update (V1.battcheckCounter s) /\
    (V1.battcheckCounter s = 0 ->
     (V1.battcheckCounter s' = 0xaaaa <-> (16 <= n)%nat)).
Proof.
  intros Hg Hm Hc m'.
  destruct (clicks_v1_spec after n s p g m Hg Hm Hc) as (s' & Hrun & Hc' & Hbc).
  exists s'. split; [exact Hrun|].
  pose proof Hc' as (_ & _ & _ & Hg' & Hm').
  split; [exact Hg'|]. split; [exact Hm'|]. split; [exact Hc'|]. split; [exact Hbc|].
  intros H0. rewrite Hbc, H0. apply battcheck_from_zero.
Qed.

(** The statement for 5 clicks from mode 2 of group 0 (effective length 4),
    the record sitting in the last cell of the store. *)
Lemma short_clicks_v1_witness :
  exists s',
    clicks_v1 (fun _ => 0) 5
      {| V1.cells := single_record1 31 (encode_record1 0 2 true); V1.eepos := 31;
         V1.group := 0; V1.mode := 2; V1.ticks := 0; V1.mypwm := 0;
         V1.lowbattCounter := 0; V1.battcheckCounter := 0 |} = Some s' /\
    V1.group s' = 0 /\ V1.mode s' = 3 /\ V1.eepos s' = 4.
Proof.
  destruct (short_clicks_v1 (fun _ => 0) 5
              {| V1.cells := single_record1 31 (encode_record1 0 2 true); V1.eepos := 31;
                 V1.group := 0; V1.mode := 2; V1.ticks := 0; V1.mypwm := 0;
                 V1.lowbattCounter := 0; V1.battcheckCounter := 0 |} 31 0 2)
    as (s' & Hrun & Hg & Hm & (_ & Hp & _) & _).
  - unfold V1.GROUPS_COUNT. lia.
  - change (0 <= 2 < 4). lia.
  - unfold committed1. cbn. repeat split; lia.
  - exists s'. repeat split; assumption.
Defined.

Lemma WDT1_fields x s :
  V1.cells (V1.check_battery x s) = V1.cells s /\
  V1.eepos (V1.check_battery x s) = V1.eepos s /\
  V1.group (V1.check_battery x s) = V1.group s /\
  V1.mode (V1.check_battery x s) = V1.mode s /\
  V1.battcheckCounter (V1.check_battery x s) = V1.battcheckCounter s /\
  V1.ticks (V1.check_battery x s) = V1.ticks s.
Proof.
  unfold V1.check_battery. destruct (x <? V1.BATTMON); [destruct (_ >? 8)|];
    repeat split.
Qed.

Lemma WDT1_before x s0 s k :
  not_locked1 s0 s k -> 0 <= k -> k + 1 < V1.LOCKTIME ->
  not_locked1 s0 (V1.WDT_vect x s) (k + 1).
Proof.
  intros (Hc & He & Hg & Hm & Hb & Ht) Hk Hlt. unfold V1.LOCKTIME in *.
  unfold V1.WDT_vect.
  destruct (WDT1_fields x
    (let s1 := if V1.ticks s <? 255
               then {| V1.cells := V1.cells s; V1.eepos := V1.eepos s;
                       V1.group := V1.group s; V1.mode := V1.mode s;
                       V1.ticks := V1.ticks s + 1; V1.mypwm := V1.mypwm s;
                       V1.lowbattCounter := V1.lowbattCounter s;
                       V1.battcheckCounter := V1.battcheckCounter s |}
               else s in
     if V1.ticks s1 =? 50
     then let s2 := V1.eepSave (V1.codeGroupAndMode (V1.group s1) (V1.mode s1)) s1 in
          {| V1.cells := V1.cells s2; V1.eepos := V1.eepos s2;
             V1.group := V1.group s2; V1.mode := V1.mode s2;
             V1.ticks := V1.ticks s2; V1.mypwm := V1.mypwm s2;
             V1.lowbattCounter := V1.lowbattCounter s2; V1.battcheckCounter := 0 |}
     else s1)) as (F1 & F2 & F3 & F4 & F5 & F6).
  cbv zeta in F1, F2, F3, F4, F5, F6. unfold V1.LOCKTIME.
  unfold not_locked1. rewrite F1, F2, F3, F4, F5, F6.
  destruct (Z.ltb_spec (V1.ticks s) 255); [|lia]. cbn [V1.ticks].
  destruct (Z.eqb_spec (V1.ticks s + 1) 50); [lia|].
  cbn. repeat split; try assumption. lia.
Qed.

Lemma WDT1_lock x s0 s :
  not_locked1 s0 s (V1.LOCKTIME - 1) -> locked_in1 s0 (V1.WDT_vect x s).
Proof.
  intros (Hc & He & Hg & Hm & Hb & Ht). unfold V1.LOCKTIME in *.
  unfold V1.WDT_vect, V1.LOCKTIME.
  match goal with |- locked_in1 _ (V1.check_battery _ ?t) =>
    destruct (WDT1_fields x t) as (F1 & F2 & F3 & F4 & F5 & F6) end.
  unfold locked_in1. rewrite F1, F2, F3, F4, F5, F6.
  destruct (Z.ltb_spec (V1.ticks s) 255); [|lia]. cbn [V1.ticks].
  destruct (Z.eqb_spec (V1.ticks s + 1) 50); [|lia].
  cbn [V1.cells V1.eepos V1.group V1.mode V1.battcheckCounter V1.ticks V1.eepSave].
  rewrite Hc, He, Hg, Hm. unfold V1.LOCKTIME. repeat split. lia.
Qed.

Lemma WDT1_after x s0 s :
  locked_in1 s0 s -> locked_in1 s0 (V1.WDT_vect x s).
Proof.
  intros (Hc & He & Hg & Hm & Hb & Ht). unfold V1.LOCKTIME in *.
  unfold V1.WDT_vect, V1.LOCKTIME.
  match goal with |- locked_in1 _ (V1.check_battery _ ?t) =>
    destruct (WDT1_fields x t) as (F1 & F2 & F3 & F4 & F5 & F6) end.
  unfold locked_in1. rewrite F1, F2, F3, F4, F5, F6. unfold V1.LOCKTIME.
  destruct (Z.ltb_spec (V1.ticks s) 255).
  - cbn [V1.ticks]. destruct (Z.eqb_spec (V1.ticks s + 1) 50); [lia|].
    cbn. repeat split; try assumption. lia.
  - destruct (Z.eqb_spec (V1.ticks s) 50); [lia|]. repeat split; assumption.
Qed.

Lemma ticks_v1_before s0 samples :
  forall s k,
    not_locked1 s0 s k -> 0 <= k ->
    k + Z.of_nat (length samples) < V1.LOCKTIME ->
    not_locked1 s0 (ticks_v1 samples s) (k + Z.of_nat (length samples)).
Proof.
  unfold ticks_v1. induction samples as [|x samples IH]; intros s k Hs Hk Hlen.
  - cbn [fold_left length]. rewrite Z.add_0_r. exact Hs.
  - cbn [fold_left length] in *.
    replace (k + Z.of_nat (S (length samples))) with (k + 1 + Z.of_nat (length samples)) by lia.
    apply IH; [|lia|lia]. apply WDT1_before; [exact Hs|lia|lia].
Qed.

Lemma ticks_v1_after s0 samples :
  forall s, locked_in1 s0 s -> locked_in1 s0 (ticks_v1 samples s).
Proof.
  unfold ticks_v1. induction samples as [|x samples IH]; intros s Hs; [exact Hs|].
  cbn [fold_left]. apply IH, WDT1_after, Hs.
Qed.

Lemma ticks_v1_locks s0 samples :
  forall s k,
    not_locked1 s0 s k -> 0 <= k < V1.LOCKTIME ->
    V1.LOCKTIME <= k + Z.of_nat (length samples) ->
    locked_in1 s0 (ticks_v1 samples s).
Proof.
  induction samples as [|x samples IH]; intros s k Hs Hk Hlen.
  - cbn [length] in Hlen. lia.
  - cbn [length] in Hlen. change (ticks_v1 (x :: samples) s)
      with (ticks_v1 samples (V1.WDT_vect x s)).
    destruct (Z.eq_dec (k + 1) V1.LOCKTIME) as [Heq|Hne].
    + apply ticks_v1_after. apply WDT1_lock.
      replace (V1.LOCKTIME - 1) with k by lia. exact Hs.
    + apply (IH _ (k + 1)); [|lia|lia]. apply WDT1_before; [exact Hs|lia|lia].
Qed.

(** X11.  The lock-in of v1.0.  In a session in a mode other than mode 0
    (where [main] runs the group-change blink and appends records of its
    own) that began with the log holding exactly one record, the EEPROM
    and the click counter are left alone during the first [LOCKTIME - 1]
    ticks; from tick [LOCKTIME] on the log holds exactly the record of the
    current group and mode without the short flag, one cell further, and
    the click counter is 0, whatever the battery readings.  The boot that
    follows such a session resumes the same group and mode and does not
    count a click. *)
Theorem lock_in_v1 (samples : list Z) (s : V1.Machine) (after : Z -> Z) (d0 p g m : Z) :
  committed1 d0 p g m s ->
  0 <= g < V1.GROUPS_COUNT -> 0 <= m < V1.MODES_COUNT ->
  m <> 0 ->
  V1.ticks s = 0 ->
  let s' := ticks_v1 samples s in
  (Z.of_nat (length samples) < V1.LOCKTIME ->
     V1.cells s' = V1.cells s /\ V1.eepos s' = V1.eepos s /\
     V1.battcheckCounter s' = V1.battcheckCounter s) /\
  (V1.LOCKTIME <= Z.of_nat (length samples) ->
     V1.battcheckCounter s' = 0 /\
     committed1 (V1.codeGroupAndMode g m) ((p + 1) mod 32) g m s' /\
     exists r, quick_boot1 after s' = Some r /\
               V1.group r = g /\ V1.mode r = m /\ V1.battcheckCounter r = 0).
Proof.
  intros Hc Hg Hm _ Ht s'. subst s'.
  assert (H0 : not_locked1 s s 0) by (repeat split; exact Ht).
  split.
  - intros Hlen. destruct (ticks_v1_before s samples s 0 H0 ltac:(lia) ltac:(lia))
      as (H1 & H2 & _ & _ & H5 & _). repeat split; assumption.
  - intros Hlen.
    destruct (ticks_v1_locks s samples s 0 H0 ltac:(unfold V1.LOCKTIME; lia) ltac:(lia))
      as (L1 & L2 & L3 & L4 & L5 & L6).
    destruct Hc as (Hp & Hpos & Hstore & Hgs & Hms).
    rewrite Hgs, Hms in L1. rewrite Hpos in L2.
    destruct (encode1_fields g m false Hg Hm) as (Hd & Hsg & Hsm & Hflag).
    cbv zeta in Hd, Hsg, Hsm, Hflag.
    unfold encode_record1 in Hd, Hsg, Hsm, Hflag. rewrite Z.lor_0_r in Hd, Hsg, Hsm, Hflag.
    set (d := V1.codeGroupAndMode g m) in *.
    assert (Hc' : committed1 d ((p + 1) mod 32) g m (ticks_v1 samples s)).
    { unfold committed1.
      split; [pose proof (Z.mod_pos_bound (p + 1) 32 ltac:(lia)); lia|].
      split; [rewrite L2; apply land31_mod|].
      split; [|split; congruence].
      intros a. rewrite L1.
      apply (eepSave1_single_record s p d0 d Hp Hpos Hstore). lia. }
    split; [exact L5|]. split; [exact Hc'|].
    destruct (committed1_scan _ _ _ _ _ Hc' ltac:(unfold ERASED; lia)) as (Hq & Hff & Hdata).
    destruct (find_data1_first (V1.cells (ticks_v1 samples s)) after _ Hq Hff
                ltac:(rewrite Hdata; unfold ERASED; lia)) as (seen & Hfind & Hat).
    unfold quick_boot1, V1.getmode, V1.power_on.
    cbn [V1.cells V1.eepos V1.battcheckCounter].
    rewrite Hfind. cbn [mbind option_bind]. rewrite Hat, Hdata, Hsg, Hsm, Hflag.
    cbn [andb]. eexists. split; [reflexivity|].
    cbn [V1.eepSave V1.group V1.mode V1.battcheckCounter]. repeat split. exact L5.
Qed.

(** The statement for a session of 60 ticks on a good battery that began
    with the record (short flag, group 1, mode 5) in cell 7. *)
Lemma lock_in_v1_witness :
  V1.battcheckCounter
    (ticks_v1 (repeat 200 60)
       {| V1.cells := single_record1 7 (encode_record1 1 5 true); V1.eepos := 7;
          V1.group := 1; V1.mode := 5; V1.ticks := 0; V1.mypwm := 253;
          V1.lowbattCounter := 0; V1.battcheckCounter := 0xaaaa |}) = 0.
Proof.
  destruct (lock_in_v1 (repeat 200 60)
              {| V1.cells := single_record1 7 (encode_record1 1 5 true); V1.eepos := 7;
                 V1.group := 1; V1.mode := 5; V1.ticks := 0; V1.mypwm := 253;
                 V1.lowbattCounter := 0; V1.battcheckCounter := 0xaaaa |}
              (fun _ => 0) (encode_record1 1 5 true) 7 1 5) as [_ H].
  - unfold committed1. cbn. repeat split; lia.
  - unfold V1.GROUPS_COUNT. lia.
  - unfold V1.MODES_COUNT. lia.
  - discriminate.
  - reflexivity.
  - destruct H as [H _]; [|exact H].
    rewrite repeat_length. unfold V1.LOCKTIME. lia.
Defined.

(** ** Consecutive short clicks of the v2.0 variants *)

Lemma flagged_tally_checked :
  forallb (fun t =>
     let c := Z.lor t 0x80 in
     (c =? t + 128) && negb (Z.land c 0x80 =? 0) && (Z.land c 0x7f =? t))
    (below 128) = true.
Proof. vm_compute. reflexivity. Qed.

Lemma flagged_tally t :
  0 <= t <= 127 ->
  Z.lor t 0x80 = t + 128 /\ Z.land (Z.lor t 0x80) 0x80 <> 0 /\
  Z.land (Z.lor t 0x80) 0x7f = t.
Proof.
  intros Ht. pose proof (forallb_below _ _ flagged_tally_checked t ltac:(lia)) as H.
  cbv beta zeta in H. rewrite !andb_true_iff, negb_true_iff in H.
  destruct H as [[H1 H2] H3]. apply Z.eqb_neq in H2. lia.
Qed.

Lemma next_in_slots p : In p slots -> In ((p + 2) mod 32) slots.
Proof.
  intros Hp. apply In_slots in Hp.
  destruct (next_slot p Hp) as [[Hle ->]|[-> ->]]; apply In_slots.
  - split; [lia|]. replace (p + 2) with (p + 1 * 2) by lia.
    rewrite Z.mod_add by lia. tauto.
  - split; [lia|reflexivity].
Qed.

Lemma single_record_scan (e : Z -> Z) p c gm :
  In p slots -> (forall a, e a = single_record p c gm a) ->
  0 <= p <= 30 /\ (forall a, 0 <= a < p -> e a = ERASED) /\
  e p = c /\ e (p + 1) = gm.
Proof.
  intros Hslot Hstore. apply In_slots in Hslot.
  split; [lia|]. split; [|split].
  - intros a Ha. rewrite Hstore. unfold single_record, blank, insert, fn_insert.
    repeat (case_decide; try lia); reflexivity.
  - rewrite Hstore. unfold single_record, blank, insert, fn_insert.
    repeat (case_decide; try lia).
  - rewrite Hstore. unfold single_record, blank, insert, fn_insert.
    repeat (case_decide; try lia).
Qed.

Lemma committed_scan first p g m t s :
  committed first p g m t s ->
  0 <= p <= 30 /\ (forall a, 0 <= a < p -> cells s a = ERASED) /\
  cells s p = first /\ cells s (p + 1) = groupModeByte g m.
Proof.
  intros (Hslot & _ & Hstore & _). exact (single_record_scan _ _ _ _ Hslot Hstore).
Qed.

Lemma successor_mode_mod cfg g m :
  table_ok cfg = true -> 0 <= g < GROUPS_COUNT cfg ->
  0 <= m < effective_length cfg g ->
  successor_mode cfg g m = (m + 1) mod effective_length cfg g.
Proof.
  intros Hok Hg Hm. unfold successor_mode.
  destruct (Z.ltb_spec (m + 1) (effective_length cfg g)).
  - symmetry. apply Z.mod_small. lia.
  - replace (m + 1) with (effective_length cfg g) by lia.
    symmetry. apply Z.mod_same. lia.
Qed.

Lemma effective_slot_nonempty cfg g m :
  table_ok cfg = true -> 0 <= g < GROUPS_COUNT cfg ->
  0 <= m < effective_length cfg g ->
  pgm_read_byte cfg g m <> 0.
Proof.
  intros Hok Hg Hm.
  destruct (table_row cfg g Hok Hg) as (row & _ & Hlen & Heff & Hread).
  pose proof (first_zero_spec row) as (Hr & Hnz & _).
  rewrite Heff in Hm. rewrite Hread.
  assert (is_Some (row !! Z.to_nat m)) as [v Hv] by (apply lookup_lt_is_Some; lia).
  rewrite Hv. change (default 0 (Some v)) with v. apply (Hnz _ _ Hv). lia.
Qed.

Section ClicksNanjg.
Variable cfg : Config.
Hypothesis Hok : table_ok cfg = true.
Variable g : Z.
Hypothesis Hg : 0 <= g < GROUPS_COUNT cfg.

Lemma click_nanjg s p m t :
  0 <= m < effective_length cfg g -> 0 <= t <= 126 ->
  committed (Z.lor t 0x80) p g m t s ->
  exists s',
    eepLoad_nanjg cfg (power_on (cells s)) = Some s' /\
    committed (Z.lor (t + 1) 0x80) ((p + 2) mod 32) g
      ((m + 1) mod effective_length cfg g) (t + 1) s'.
Proof.
  intros Hm Ht Hc.
  pose proof (table_ok_spec cfg Hok) as (HM & HG & _).
  pose proof (effective_length_range cfg g Hok Hg) as HL.
  destruct (flagged_tally t ltac:(lia)) as (Hc1 & Hc2 & Hc3).
  destruct (flagged_tally (t + 1) ltac:(lia)) as (Hn1 & _).
  destruct (committed_scan _ _ _ _ _ _ Hc)
    as (Hp & Hff & Hfirst & Hsecond).
  destruct (decode_groupModeByte cfg g m HG HM Hg ltac:(lia)) as [Hdg Hdm].
  rewrite (eepLoad_nanjg_found cfg (cells s) p Hp Hff)
    by (rewrite Hfirst; unfold ERASED; lia).
  rewrite Hfirst, Hsecond, Hdg, Hdm, Hc3.
  destruct (Z.eqb_spec (Z.land (Z.lor t 128) 128) 0) as [E|_]; [contradiction|].
  cbn [negb]. rewrite (u8_small (t + 1)) by lia.
  rewrite (getNextMode_wraps cfg g m Hok Hg ltac:(lia) ltac:(left; lia)).
  fold (successor_mode cfg g m). rewrite (successor_mode_mod cfg g m Hok Hg Hm).
  eexists. split; [reflexivity|].
  destruct Hc as (Hslot & _ & Hstore & _).
  unfold committed. split; [apply next_in_slots, Hslot|].
  split; [cbn [eepSave eepos]; apply next_eepos_mod|].
  split; [|repeat split].
  intros a.
  apply (eepSave_single_record _ p (Z.lor t 128) (groupModeByte g m));
    [exact Hslot|reflexivity|exact Hstore|lia].
Qed.

Lemma clicks_nanjg_spec (n : nat) :
  forall s p m t,
    0 <= m < effective_length cfg g -> 0 <= t -> t + Z.of_nat n <= 127 ->
    committed (Z.lor t 0x80) p g m t s ->
    exists s',
      clicks_nanjg cfg n s = Some s' /\
      committed (Z.lor (t + Z.of_nat n) 0x80) ((p + 2 * Z.of_nat n) mod 32) g
        ((m + Z.of_nat n) mod effective_length cfg g) (t + Z.of_nat n) s'.
Proof.
  induction n as [|n IH]; intros s p m t Hm Ht Hn Hc.
  - exists s. split; [reflexivity|].
    pose proof Hc as (Hslot & _). apply In_slots in Hslot.
    rewrite Z.mul_0_r, !Z.add_0_r, (Z.mod_small m), (Z.mod_small p) by lia.
    exact Hc.
  - destruct (click_nanjg s p m t Hm ltac:(lia) Hc) as (s1 & Hboot & Hc1).
    destruct (IH s1 _ _ (t + 1) ltac:(apply Z.mod_pos_bound; lia) ltac:(lia) ltac:(lia) Hc1)
      as (s' & Hrun & Hc').
    exists s'. cbn [clicks_nanjg]. rewrite Hboot. cbn [mbind option_bind].
    split; [exact Hrun|].
    rewrite !Z.add_mod_idemp_l in Hc' by lia.
    replace (t + Z.of_nat (S n)) with (t + 1 + Z.of_nat n) by lia.
    replace (m + Z.of_nat (S n)) with (m + 1 + Z.of_nat n) by lia.
    replace (p + 2 * Z.of_nat (S n)) with (p + 2 + 2 * Z.of_nat n) by lia.
    exact Hc'.
Qed.

End ClicksNanjg.

(** X12.  Short clicks of the Nanjg variant in a row.  From a machine
    whose log holds exactly the record with the short flag that its boot
    wrote for group [g], a mode [m] of the effective part of the group and
    tally [t], [n] boots that are each cut off before the lock-in keep the
    group, advance the mode [n] times around the effective length of the
    group (never onto an empty slot), raise the tally to [t + n] and leave
    the log again with exactly one record, [n] slots further (modulo 16
    slots).  This holds while the tally stays within 127. *)
Theorem short_clicks_nanjg (cfg : Config) (n : nat) (s : Machine) (p g m t : Z) :
  table_ok cfg = true ->
  0 <= g < GROUPS_COUNT cfg ->
  0 <= m < effective_length cfg g ->
  0 <= t -> t + Z.of_nat n <= 127 ->
  committed (Z.lor t 0x80) p g m t s ->
  let m' := (m + Z.of_nat n) mod effective_length cfg g in
  exists s',
    clicks_nanjg cfg n s = Some s' /\
    group s' = g /\ mode s' = m' /\ shortClicks s' = t + Z.of_nat n /\
    pgm_read_byte cfg g m' <> 0 /\
    committed (Z.lor (t + Z.of_nat n) 0x80) ((p + 2 * Z.of_nat n) mod 32) g m'
      (t + Z.of_nat n) s'.
Proof.
  intros Hok Hg Hm Ht Hn Hc m'.
  destruct (clicks_nanjg_spec cfg Hok g Hg n s p m t Hm Ht Hn Hc) as (s' & Hrun & Hc').
  exists s'. split; [exact Hrun|].
  pose proof Hc' as (_ & _ & _ & Hg' & Hm' & Ht').
  split; [exact Hg'|]. split; [exact Hm'|]. split; [exact Ht'|]. split; [|exact Hc'].
  apply effective_slot_nonempty; [exact Hok|exact Hg|].
  apply Z.mod_pos_bound. lia.
Qed.

(** The statement for 3 clicks from mode 2 of group 0 (effective length
    4) of the shipped firmware, the record sitting in the last slot. *)
Lemma short_clicks_nanjg_witness :
  exists s',
    clicks_nanjg nanjg_cfg 3
      {| cells := single_record 30 0x80 (groupModeByte 0 2); eepos := 30;
         group := 0; mode := 2; shortClicks := 0; ticks := 0 |} = Some s' /\
    group s' = 0 /\ mode s' = 1 /\ shortClicks s' = 3.
Proof.
  destruct (short_clicks_nanjg nanjg_cfg 3
              {| cells := single_record 30 0x80 (groupModeByte 0 2); eepos := 30;
                 group := 0; mode := 2; shortClicks := 0; ticks := 0 |} 30 0 2 0)
    as (s' & Hrun & Hg & Hm & Ht & _).
  - reflexivity.
  - change (0 <= 0 < 2). lia.
  - change (0 <= 2 < 4). lia.
  - lia.
  - lia.
  - unfold committed. cbn [eepos group mode shortClicks cells].
    split; [apply In_slots; split; [lia|reflexivity]|]. repeat split.
  - exists s'. repeat split; assumption.
Defined.

Section ClicksA17dd.
Variable cfg : Config.
Hypothesis Hok : table_ok cfg = true.
Variable g : Z.
Hypothesis Hg : 0 <= g < GROUPS_COUNT cfg.

Lemma click_a17dd cap s p m t :
  0 <= m < effective_length cfg g -> 0 <= t <= 254 ->
  cap > CAP_THRESHOLD cfg ->
  committed t p g m t s ->
  exists s',
    eepLoad_a17dd cfg cap (power_on (cells s)) = Some s' /\
    committed (t + 1) ((p + 2) mod 32) g
      ((m + 1) mod effective_length cfg g) (t + 1) s'.
Proof.
  intros Hm Ht Hcap Hc.
  pose proof (table_ok_spec cfg Hok) as (HM & HG & _).
  pose proof (effective_length_range cfg g Hok Hg) as HL.
  destruct (committed_scan _ _ _ _ _ _ Hc)
    as (Hp & Hff & Hfirst & Hsecond).
  destruct (decode_groupModeByte cfg g m HG HM Hg ltac:(lia)) as [Hdg Hdm].
  rewrite (eepLoad_a17dd_found cfg cap (cells s) p Hp Hff)
    by (rewrite Hfirst; unfold ERASED; lia).
  rewrite Hfirst, Hsecond, Hdg, Hdm.
  destruct (Z.gtb_spec cap (CAP_THRESHOLD cfg)); [|lia].
  rewrite (u8_small (t + 1)) by lia.
  rewrite (getNextMode_wraps cfg g m Hok Hg ltac:(lia) ltac:(left; lia)).
  fold (successor_mode cfg g m). rewrite (successor_mode_mod cfg g m Hok Hg Hm).
  eexists. split; [reflexivity|].
  destruct Hc as (Hslot & _ & Hstore & _).
  unfold committed. split; [apply next_in_slots, Hslot|].
  split; [cbn [eepSave eepos]; apply next_eepos_mod|].
  split; [|repeat split].
  intros a.
  apply (eepSave_single_record _ p t (groupModeByte g m));
    [exact Hslot|reflexivity|exact Hstore|lia].
Qed.

Lemma clicks_a17dd_spec (caps : list Z) :
  forall s p m t,
    Forall (fun cap => cap > CAP_THRESHOLD cfg) caps ->
    0 <= m < effective_length cfg g -> 0 <= t ->
    t + Z.of_nat (length caps) <= 255 ->
    committed t p g m t s ->
    exists s',
      clicks_a17dd cfg caps s = Some s' /\
      committed (t + Z.of_nat (length caps))
        ((p + 2 * Z.of_nat (length caps)) mod 32) g
        ((m + Z.of_nat (length caps)) mod effective_length cfg g)
        (t + Z.of_nat (length caps)) s'.
Proof.
  induction caps as [|cap caps IH]; intros s p m t Hcaps Hm Ht Hn Hc.
  - exists s. split; [reflexivity|].
    pose proof Hc as (Hslot & _). apply In_slots in Hslot. cbn [length].
    rewrite Z.mul_0_r, !Z.add_0_r, (Z.mod_small m), (Z.mod_small p) by lia.
    exact Hc.
  - apply Forall_cons in Hcaps as [Hcap Hcaps]. cbn [length] in *.
    pose proof (effective_length_range cfg g Hok Hg) as HL.
    destruct (click_a17dd cap s p m t Hm ltac:(lia) Hcap Hc) as (s1 & Hboot & Hc1).
    destruct (IH s1 _ _ (t + 1) Hcaps ltac:(apply Z.mod_pos_bound; lia)
                ltac:(lia) ltac:(lia) Hc1) as (s' & Hrun & Hc').
    exists s'. cbn [clicks_a17dd]. rewrite Hboot. cbn [mbind option_bind].
    split; [exact Hrun|].
    rewrite !Z.add_mod_idemp_l in Hc' by lia.
    replace (t + Z.of_nat (S (length caps))) with (t + 1 + Z.of_nat (length caps)) by lia.
    replace (m + Z.of_nat (S (length caps))) with (m + 1 + Z.of_nat (length caps)) by lia.
    replace (p + 2 * Z.of_nat (S (length caps)))
      with (p + 2 + 2 * Z.of_nat (length caps)) by lia.
    exact Hc'.
Qed.

End ClicksA17dd.



(** ** The battery-check gesture end to end *)

(** X14.  The battery display appears at the click that brings the tally
    to [BATTCHECK] and not before.  After [n] short clicks that were each
    cut off early, starting from a log that holds exactly the record of
    group [g], mode [m] and tally [t], the next short boot resolves tally
    [t + n + 1], and its [main] shows the battery display exactly when
    [BATTCHECK <= t + n + 1]; with the shipped threshold and a tally that
    started at 0 this is the 16th click.  (Nanjg with the lock time within
    50 ticks, A17DD-L with every capacitor reading above the threshold.) *)
Theorem battcheck_at_threshold :
  (forall cfg (n : nat) voltage s p g m t,
     table_ok cfg = true -> 0 < LOCKTIME cfg <= 50 ->
     0 <= g < GROUPS_COUNT cfg -> 0 <= m < effective_length cfg g ->
     0 <= t -> t + Z.of_nat n <= 126 ->
     committed (Z.lor t 0x80) p g m t s ->
     exists s' r sf evs,
       clicks_nanjg cfg n s = Some s' /\
       eepLoad_nanjg cfg (power_on (cells s')) = Some r /\
       shortClicks r = t + Z.of_nat n + 1 /\
       main_nanjg cfg voltage (cells s') = Some (sf, evs) /\
       ((exists b, In (EvBattCheck b) evs) <-> BATTCHECK cfg <= t + Z.of_nat n + 1)) /\
  (forall cfg caps cap voltage s p g m t,
     table_ok cfg = true ->
     0 <= g < GROUPS_COUNT cfg -> 0 <= m < effective_length cfg g ->
     Forall (fun c => c > CAP_THRESHOLD cfg) caps -> cap > CAP_THRESHOLD cfg ->
     0 <= t -> t + Z.of_nat (length caps) <= 254 ->
     committed t p g m t s ->
     exists s' r sf evs,
       clicks_a17dd cfg caps s = Some s' /\
       eepLoad_a17dd cfg cap (power_on (cells s')) = Some r /\
       shortClicks r = t + Z.of_nat (length caps) + 1 /\
       main_a17dd cfg cap voltage (cells s') = Some (sf, evs) /\
       ((exists b, In (EvBattCheck b) evs)
        <-> BATTCHECK cfg <= t + Z.of_nat (length caps) + 1)).
Proof.
  split.
  - intros cfg n voltage s p g m t Hok HL Hg Hm Ht Hn Hc.
    pose proof (effective_length_range cfg g Hok Hg) as Heff.
    destruct (clicks_nanjg_spec cfg Hok g Hg n s p m t Hm Ht ltac:(lia) Hc)
      as (s' & Hrun & Hc').
    destruct (click_nanjg cfg Hok g Hg s' _ _ (t + Z.of_nat n)
                ltac:(apply Z.mod_pos_bound; lia) ltac:(lia) Hc')
      as (r & Hr & Hcr).
    destruct (main_nanjg_gesture cfg voltage (cells s') HL)
      as (r' & sf & evs & Hr' & Hmain & Hiff & _).
    rewrite Hr in Hr'. inversion Hr'; subst r'.
    destruct Hcr as (_ & _ & _ & _ & _ & Htally).
    exists s', r, sf, evs. rewrite Htally in Hiff. repeat split; try assumption;
      apply Hiff.
  - intros cfg caps cap voltage s p g m t Hok Hg Hm Hcaps Hcap Ht Hn Hc.
    pose proof (effective_length_range cfg g Hok Hg) as Heff.
    destruct (clicks_a17dd_spec cfg Hok g Hg caps s p m t Hcaps Hm Ht ltac:(lia) Hc)
      as (s' & Hrun & Hc').
    destruct (click_a17dd cfg Hok g Hg cap s' _ _ (t + Z.of_nat (length caps))
                ltac:(apply Z.mod_pos_bound; lia) ltac:(lia) Hcap Hc')
      as (r & Hr & Hcr).
    destruct (main_a17dd_gesture cfg cap voltage (cells s'))
      as (r' & sf & evs & Hr' & Hmain & Hiff & _).
    rewrite Hr in Hr'. inversion Hr'; subst r'.
    destruct Hcr as (_ & _ & _ & _ & _ & Htally).
    exists s', r, sf, evs. rewrite Htally in Hiff. repeat split; try assumption;
      apply Hiff.
Qed.

(** The statement for the shipped Nanjg firmware, 15 clicks after a boot
    that wrote tally 0 for group 0 and mode 1: the 16th shows the battery. *)
Lemma battcheck_at_threshold_witness :
  exists s' r sf evs,
    clicks_nanjg nanjg_cfg 15%nat
      {| cells := single_record 0 0x80 (groupModeByte 0 1); eepos := 0;
         group := 0; mode := 1; shortClicks := 0; ticks := 0 |} = Some s' /\
    eepLoad_nanjg nanjg_cfg (power_on (cells s')) = Some r /\
    shortClicks r = 0 + Z.of_nat 15%nat + 1 /\
    main_nanjg nanjg_cfg 165 (cells s') = Some (sf, evs) /\
    ((exists b, In (EvBattCheck b) evs) <-> BATTCHECK nanjg_cfg <= 0 + Z.of_nat 15%nat + 1).
Proof.
  apply (proj1 battcheck_at_threshold nanjg_cfg 15%nat 165
           {| cells := single_record 0 0x80 (groupModeByte 0 1); eepos := 0;
              group := 0; mode := 1; shortClicks := 0; ticks := 0 |} 0 0 1 0).
  - reflexivity.
  - change (0 < 50 <= 50). lia.
  - change (0 <= 0 < 2). lia.
  - change (0 <= 1 < 4). lia.
  - lia.
  - cbn. lia.
  - unfold committed. cbn [eepos group mode shortClicks cells].
    split; [left; reflexivity|]. repeat split.
Defined.

(** ** The group-change gesture *)

Lemma next_group_range cfg g :
  0 < GROUPS_COUNT cfg <= 16 ->
  u8 ((g + 1) mod GROUPS_COUNT cfg) = (g + 1) mod GROUPS_COUNT cfg /\
  0 <= (g + 1) mod GROUPS_COUNT cfg < GROUPS_COUNT cfg.
Proof.
  intros HG. pose proof (Z.mod_pos_bound (g + 1) (GROUPS_COUNT cfg) ltac:(lia)).
  split; [apply u8_small; lia|lia].
Qed.

Lemma next_group_differs cfg g :
  1 < GROUPS_COUNT cfg -> 0 <= g < GROUPS_COUNT cfg ->
  (g + 1) mod GROUPS_COUNT cfg <> g.
Proof.
  intros HG Hg. destruct (Z.eq_dec (g + 1) (GROUPS_COUNT cfg)) as [E|NE].
  - rewrite E, Z.mod_same by lia. lia.
  - rewrite Z.mod_small by lia. lia.
Qed.

Lemma boot_locked_a17dd cfg cap e q g m :
  table_ok cfg = true -> forallb zeros_trail (groups cfg) = true ->
  In q slots -> (forall a, e a = single_record q 0 (groupModeByte g m) a) ->
  0 <= g < GROUPS_COUNT cfg -> 0 <= m < MODES_COUNT cfg ->
  cap <= CAP_THRESHOLD cfg ->
  exists r, eepLoad_a17dd cfg cap (power_on e) = Some r /\
            group r = g /\ mode r = resumed_mode cfg g m /\ shortClicks r = 0.
Proof.
  intros Hok Htrail Hslot Hstore Hg Hm Hcap.
  pose proof (table_ok_spec cfg Hok) as (HM & HG & _).
  destruct (single_record_scan e q 0 _ Hslot Hstore) as (Hq & Hff & H0 & H1).
  destruct (decode_groupModeByte cfg g m HG HM Hg Hm) as [Hdg Hdm].
  apply (long_session_a17dd cfg e q g m cap); try assumption.
  - rewrite H0. discriminate.
  - rewrite H1. exact Hdg.
  - rewrite H1. exact Hdm.
Qed.

Lemma boot_locked_nanjg cfg e q g m :
  table_ok cfg = true ->
  In q slots -> (forall a, e a = single_record q 0 (groupModeByte g m) a) ->
  0 <= g < GROUPS_COUNT cfg -> 0 <= m < MODES_COUNT cfg ->
  exists r, eepLoad_nanjg cfg (power_on e) = Some r /\
            group r = g /\ mode r = m /\ shortClicks r = 0.
Proof.
  intros Hok Hslot Hstore Hg Hm.
  pose proof (table_ok_spec cfg Hok) as (HM & HG & _).
  destruct (single_record_scan e q 0 _ Hslot Hstore) as (Hq & Hff & H0 & H1).
  destruct (decode_groupModeByte cfg g m HG HM Hg Hm) as [Hdg Hdm].
  rewrite (eepLoad_nanjg_found cfg e q Hq Hff) by (rewrite H0; discriminate).
  eexists. split; [reflexivity|]. cbn [eepSave group mode shortClicks].
  rewrite H0, H1, Hdg, Hdm. repeat split.
Qed.

(** X15.  The group-change gesture of the A17DD-L variant.  Entered in
    the group-change mode on a log that holds exactly one record, the
    sequence first appends the next group (current group plus one, wrapped
    at [GROUPS_COUNT]) at mode 0 and at its end appends the original group
    at mode 0 again.  A power loss during the first blink leaves the log
    untouched; a power loss during the gap or the second blink makes the
    next boot (capacitor discharged) come up in the next group with tally
    0; when the sequence has run to its end the next boot comes up in the
    original group.  The mode it resumes is the one the memory policy gives
    for mode 0. *)
Theorem groupchange_a17dd_gesture (cfg : Config) (s : Machine) (p c0 gm0 cap : Z) :
  table_ok cfg = true ->
  forallb zeros_trail (groups cfg) = true ->
  In p slots -> eepos s = p ->
  (forall a, cells s a = single_record p c0 gm0 a) ->
  0 <= group s < GROUPS_COUNT cfg ->
  mode s = GROUP_CHANGE_MODE ->
  cap <= CAP_THRESHOLD cfg ->
  let ng := (group s + 1) mod GROUPS_COUNT cfg in
  groupchange_a17dd cfg s = (groupchange_a17dd_cut cfg 2 s, [EvGroupBlink]) /\
  cells (groupchange_a17dd_cut cfg 0 s) = cells s /\
  (exists r, eepLoad_a17dd cfg cap (power_on (cells (groupchange_a17dd_cut cfg 1 s))) = Some r /\
             group r = ng /\ mode r = resumed_mode cfg ng 0 /\ shortClicks r = 0) /\
  (exists r, eepLoad_a17dd cfg cap (power_on (cells (groupchange_a17dd_cut cfg 2 s))) = Some r /\
             group r = group s /\ mode r = resumed_mode cfg (group s) 0 /\
             shortClicks r = 0) /\
  (1 < GROUPS_COUNT cfg -> ng <> group s).
Proof.
  intros Hok Htrail Hslot Hpos Hstore Hg Hmode Hcap ng.
  pose proof (table_ok_spec cfg Hok) as (HM & HG & _).
  destruct (next_group_range cfg (group s) HG) as [Hu8 Hng]. fold ng in Hu8, Hng.
  set (s1 := eepSave 0 ng GROUP_CHANGE_MODE s).
  assert (H1 : forall a, cells s1 a = single_record ((p + 2) mod 32) 0 (groupModeByte ng 0) a).
  { intros a. apply (eepSave_single_record s p c0 gm0 0 ng 0 Hslot Hpos Hstore). lia. }
  assert (Hp1 : eepos s1 = (p + 2) mod 32)
    by (cbn [s1 eepSave eepos]; rewrite Hpos; apply next_eepos_mod).
  pose proof (next_in_slots p Hslot) as Hslot1.
  set (s2 := eepSave 0 (group s1) GROUP_CHANGE_MODE s1).
  assert (H2 : forall a, cells s2 a
                = single_record (((p + 2) mod 32 + 2) mod 32) 0 (groupModeByte (group s) 0) a).
  { intros a. apply (eepSave_single_record s1 _ 0 (groupModeByte ng 0) 0 (group s) 0
                       Hslot1 Hp1 H1). lia. }
  pose proof (next_in_slots _ Hslot1) as Hslot2.
  split; [|split; [|split; [|split]]].
  - unfold groupchange_a17dd, groupchange_a17dd_cut. rewrite Hmode. cbn [Z.eqb].
    reflexivity.
  - reflexivity.
  - unfold groupchange_a17dd_cut. fold ng. rewrite Hu8. fold s1.
    apply (boot_locked_a17dd cfg cap _ _ ng 0 Hok Htrail Hslot1 H1); [lia|lia|exact Hcap].
  - unfold groupchange_a17dd_cut. fold ng. rewrite Hu8. fold s1.
    change (group s) with (group s1) at 1. fold s2.
    apply (boot_locked_a17dd cfg cap _ _ (group s) 0 Hok Htrail Hslot2 H2); [lia|lia|exact Hcap].
  - intros H. apply next_group_differs; assumption.
Qed.

(** The statement for the shipped firmware in group 1 with the record in
    slot 30: cut during the second blink the next boot is in group 0. *)
Lemma groupchange_a17dd_gesture_witness :
  exists r,
    eepLoad_a17dd a17dd_cfg 100
      (power_on (cells (groupchange_a17dd_cut a17dd_cfg 1
         {| cells := single_record 30 0 (groupModeByte 1 0); eepos := 30;
            group := 1; mode := 0; shortClicks := 0; ticks := 0 |}))) = Some r /\
    group r = 0 /\ mode r = 0 /\ shortClicks r = 0.
Proof.
  destruct (groupchange_a17dd_gesture a17dd_cfg
              {| cells := single_record 30 0 (groupModeByte 1 0); eepos := 30;
                 group := 1; mode := 0; shortClicks := 0; ticks := 0 |}
              30 0 (groupModeByte 1 0) 100) as (_ & _ & H & _).
  - reflexivity.
  - reflexivity.
  - apply In_slots. split; [lia|reflexivity].
  - reflexivity.
  - intros a. reflexivity.
  - change (0 <= 1 < 2). lia.
  - reflexivity.
  - change (100 <= 190). lia.
  - exact H.
Defined.

Lemma WDT_past_lock cfg s (n : nat) :
  LOCKTIME cfg <= ticks s ->
  cells (Nat.iter n (WDT_vect cfg) s) = cells s /\
  eepos (Nat.iter n (WDT_vect cfg) s) = eepos s /\
  group (Nat.iter n (WDT_vect cfg) s) = group s /\
  mode (Nat.iter n (WDT_vect cfg) s) = mode s /\
  LOCKTIME cfg <= ticks (Nat.iter n (WDT_vect cfg) s).
Proof.
  intros Ht. induction n as [|n IH]; [repeat split; try reflexivity; exact Ht|].
  rewrite Nat.iter_succ. destruct IH as (H1 & H2 & H3 & H4 & H5).
  set (x := Nat.iter n (WDT_vect cfg) s) in *.
  unfold WDT_vect. destruct (Z.ltb_spec (ticks x) 255); [|repeat split; assumption].
  cbn [ticks set_ticks]. destruct (Z.eqb_spec (ticks x + 1) (LOCKTIME cfg)); [lia|].
  cbn. repeat split; try assumption; lia.
Qed.

(** X16.  The group-change gesture of the Nanjg variant.  Entered in the
    group-change mode with the tick counter at 0, on a log that holds
    exactly one record, the first blink lasts two lock times, so the tick
    handler commits the current group on the way; the sequence then appends
    the next group (current group plus one, wrapped at [GROUPS_COUNT]) at
    mode 0, sleeps [LOCKTIME / 10 + LOCKTIME] ticks and appends the
    original group again.  A power loss before the last of those ticks
    makes the next boot come up in the next group, in mode 0 whatever the
    memory policy, with tally 0; a power loss after the sequence, however
    late, makes it come up in the original group, in the mode after mode 0
    under [MEM_NEXT] and in mode 0 otherwise: the tick handler does not
    write again. *)
Theorem groupchange_nanjg_gesture (cfg : Config) (s : Machine) (p c0 gm0 : Z) (k : nat) :
  table_ok cfg = true ->
  0 < LOCKTIME cfg <= 127 ->
  In p slots -> eepos s = p ->
  (forall a, cells s a = single_record p c0 gm0 a) ->
  0 <= group s < GROUPS_COUNT cfg ->
  mode s = GROUP_CHANGE_MODE ->
  ticks s = 0 ->
  let ng := (group s + 1) mod GROUPS_COUNT cfg in
  let back := match memory cfg with
              | MEM_NEXT => getNextMode cfg (group s) 0
              | _ => 0
              end in
  let early := Z.of_nat k <? LOCKTIME cfg / 10 + LOCKTIME cfg in
  (exists r, eepLoad_nanjg cfg (power_on (cells (groupchange_nanjg_cut cfg k s))) = Some r /\
             group r = (if early then ng else group s) /\
             mode r = (if early then 0 else back) /\
             shortClicks r = 0) /\
  (exists sf, groupchange_nanjg cfg s = (sf, [EvGroupBlink]) /\
              (early = false -> cells (groupchange_nanjg_cut cfg k s) = cells sf)) /\
  (1 < GROUPS_COUNT cfg -> ng <> group s).
Proof.
  intros Hok HL Hslot Hpos Hstore Hg Hmode Ht ng back early.
  pose proof (table_ok_spec cfg Hok) as (HM & HG & _).
  destruct (next_group_range cfg (group s) HG) as [Hu8 Hng]. fold ng in Hu8, Hng.
  assert (HL10 : 0 <= LOCKTIME cfg / 10 <= 12).
  { split; [apply Z.div_pos; lia|].
    apply Z.lt_succ_r. apply Z.div_lt_upper_bound; lia. }
  assert (Hblink : Z.of_nat (Z.to_nat (u8 (LOCKTIME cfg / 10)) + Z.to_nat (u8 (LOCKTIME cfg)))
                   = LOCKTIME cfg / 10 + LOCKTIME cfg)
    by (rewrite !u8_small by lia; lia).
  (* the first blink: the tick handler locks the current group in *)
  set (s1 := doSleep cfg (LOCKTIME cfg * 2) s).
  assert (L1 : locked_in cfg s s1).
  { apply WDT_locks; [exact Ht|lia|]. rewrite u8_small by lia. lia. }
  destruct L1 as (Hc1 & Hp1 & Hg1 & Hm1 & Ht1).
  set (pm := match memory cfg with
             | MEM_NEXT => getNextMode cfg (group s) (mode s)
             | MEM_FIRST => 0
             | MEM_LAST => mode s
             end) in Hc1.
  assert (Hpm : 0 <= pm < MODES_COUNT cfg).
  { subst pm. rewrite Hmode. unfold GROUP_CHANGE_MODE.
    destruct (memory cfg); first [apply getNextMode_range; exact HM | lia]. }
  assert (S1 : forall a, cells s1 a
                = single_record ((p + 2) mod 32) 0 (groupModeByte (group s) pm) a).
  { intros a. rewrite Hc1.
    apply (eepSave_single_record s p c0 gm0 0 (group s) pm Hslot Hpos Hstore). lia. }
  rewrite Hpos, next_eepos_mod in Hp1.
  pose proof (next_in_slots p Hslot) as Hslot1.
  (* the advanced group is written *)
  set (s2 := eepSave 0 ng 0 s1).
  assert (S2 : forall a, cells s2 a
                = single_record (((p + 2) mod 32 + 2) mod 32) 0 (groupModeByte ng 0) a).
  { intros a. apply (eepSave_single_record s1 _ 0 (groupModeByte (group s) pm) 0 ng 0
                       Hslot1 Hp1 S1). lia. }
  assert (Hp2 : eepos s2 = ((p + 2) mod 32 + 2) mod 32)
    by (cbn [s2 eepSave eepos]; rewrite Hp1; apply next_eepos_mod).
  pose proof (next_in_slots _ Hslot1) as Hslot2.
  assert (Ht2 : LOCKTIME cfg <= ticks s2) by exact Ht1.
  assert (Hg2 : group s2 = group s) by exact Hg1.
  assert (Hm2 : mode s2 = mode s) by exact Hm1.
  (* the gap and the second blink *)
  set (s3 := doSleep cfg (LOCKTIME cfg / 10) s2).
  destruct (WDT_past_lock cfg s2 (Z.to_nat (u8 (LOCKTIME cfg / 10))) Ht2)
    as (Hc3 & Hp3 & Hg3 & Hm3 & Ht3).
  fold (doSleep cfg (LOCKTIME cfg / 10) s2) in Hc3, Hp3, Hg3, Hm3, Ht3.
  fold s3 in Hc3, Hp3, Hg3, Hm3, Ht3.
  set (s4 := doSleep cfg (LOCKTIME cfg) s3).
  destruct (WDT_past_lock cfg s3 (Z.to_nat (u8 (LOCKTIME cfg))) Ht3)
    as (Hc4 & Hp4 & Hg4 & Hm4 & Ht4).
  fold (doSleep cfg (LOCKTIME cfg) s3) in Hc4, Hp4, Hg4, Hm4, Ht4.
  fold s4 in Hc4, Hp4, Hg4, Hm4, Ht4.
  assert (S4 : forall a, cells s4 a
                = single_record (((p + 2) mod 32 + 2) mod 32) 0 (groupModeByte ng 0) a)
    by (intros a; rewrite Hc4, Hc3; apply S2).
  assert (Hpos4 : eepos s4 = ((p + 2) mod 32 + 2) mod 32) by congruence.
  assert (Hgrp4 : group s4 = group s) by congruence.
  assert (Hmod4 : mode s4 = 0) by (rewrite Hm4, Hm3, Hm2; exact Hmode).
  assert (Hback : 0 <= back < MODES_COUNT cfg).
  { subst back. destruct (memory cfg); first [apply getNextMode_range; exact HM | lia]. }
  pose proof (next_in_slots _ Hslot2) as Hslot3.
  (* the original group is written again *)
  set (s5 := match memory cfg with
             | MEM_NEXT => eepSave 0 (group s4) (getNextMode cfg (group s4) (mode s4)) s4
             | _ => eepSave 0 (group s4) GROUP_CHANGE_MODE s4
             end).
  assert (S5 : forall a, cells s5 a
                = single_record ((((p + 2) mod 32 + 2) mod 32 + 2) mod 32) 0
                    (groupModeByte (group s) back) a).
  { intros a. subst s5 back. rewrite Hgrp4, Hmod4.
    destruct (memory cfg);
      apply (eepSave_single_record s4 _ 0 (groupModeByte ng 0) 0 (group s) _
               Hslot2 Hpos4 S4); lia. }
  assert (Ht5 : LOCKTIME cfg <= ticks s5)
    by (subst s5; destruct (memory cfg); exact Ht4).
  assert (Hseq : groupchange_nanjg cfg s = (s5, [EvGroupBlink])).
  { unfold groupchange_nanjg. rewrite Hmode. cbn [Z.eqb GROUP_CHANGE_MODE].
    fold s1. rewrite Hg1. fold ng. rewrite Hu8. reflexivity. }
  assert (Hcut : groupchange_nanjg_cut cfg k s
                 = if early then Nat.iter k (WDT_vect cfg) s2
                   else Nat.iter (k - (Z.to_nat (u8 (LOCKTIME cfg / 10))
                                       + Z.to_nat (u8 (LOCKTIME cfg)))) (WDT_vect cfg) s5).
  { unfold groupchange_nanjg_cut. fold s1. rewrite Hg1. fold ng. rewrite Hu8. fold s2.
    subst early.
    destruct (Nat.ltb_spec k (Z.to_nat (u8 (LOCKTIME cfg / 10)) + Z.to_nat (u8 (LOCKTIME cfg))));
      destruct (Z.ltb_spec (Z.of_nat k) (LOCKTIME cfg / 10 + LOCKTIME cfg));
      try lia; reflexivity. }
  split; [|split].
  - rewrite Hcut. destruct early.
    + destruct (WDT_past_lock cfg s2 k Ht2) as (Hck & _). rewrite Hck.
      apply (boot_locked_nanjg cfg _ _ ng 0 Hok Hslot2 S2); lia.
    + destruct (WDT_past_lock cfg s5 (k - (Z.to_nat (u8 (LOCKTIME cfg / 10))
                                           + Z.to_nat (u8 (LOCKTIME cfg)))) Ht5)
        as (Hck & _).
      rewrite Hck.
      apply (boot_locked_nanjg cfg _ _ (group s) back Hok Hslot3 S5 Hg Hback).
  - exists s5. split; [exact Hseq|]. intros He. rewrite Hcut, He.
    destruct (WDT_past_lock cfg s5 (k - (Z.to_nat (u8 (LOCKTIME cfg / 10))
                                         + Z.to_nat (u8 (LOCKTIME cfg)))) Ht5)
      as (Hck & _).
    exact Hck.
  - intros H. apply next_group_differs; assumption.
Qed.

(** The statement for the shipped firmware in group 1 with the record in
    slot 30: a power loss 3 ticks into the gap makes the next boot come up
    in group 0. *)
Lemma groupchange_nanjg_gesture_witness :
  exists r,
    eepLoad_nanjg nanjg_cfg
      (power_on (cells (groupchange_nanjg_cut nanjg_cfg 3
         {| cells := single_record 30 0 (groupModeByte 1 0); eepos := 30;
            group := 1; mode := 0; shortClicks := 0; ticks := 0 |}))) = Some r /\
    group r = 0 /\ mode r = 0 /\ shortClicks r = 0.
Proof.
  destruct (groupchange_nanjg_gesture nanjg_cfg
              {| cells := single_record 30 0 (groupModeByte 1 0); eepos := 30;
                 group := 1; mode := 0; shortClicks := 0; ticks := 0 |}
              30 0 (groupModeByte 1 0) 3) as (H & _).
  - reflexivity.
  - change (0 < 50 <= 127). lia.
  - apply In_slots. split; [lia|reflexivity].
  - reflexivity.
  - intros a. reflexivity.
  - change (0 <= 1 < 2). lia.
  - reflexivity.
  - reflexivity.
  - exact H.
Defined.
